(** * squish-ccr: the SSE colour types, the eigen-solver and the single-palette fitter

    A shallow embedding of three translation units of the library,
    - [simd_sse.h]          (classes [Col4] and [Vec4] over SSE registers),
    - [maths.cpp]           ([ComputePrincipleComponent], the gamma tables),
    - [singlepalettefit.cpp] ([SinglePaletteFit::ComputeEndPoints]),
    followed by the properties established about them.

    Conventions.
    - a 32-bit lane of an [__m128i] is a [Z] in [[0, 2^32)]; every operation
      writes its wrap-around out;
    - a [float] is an IEEE-754 binary32 number, a [spec_float] used at
      precision 24 and maximal exponent 128, rounded to nearest-even
      (the default MXCSR state, denormals kept);
    - a C++ decimal literal [1.25f] is the binary32 number nearest to the
      rational it denotes;
    - code that can stop without a value (an [abort()], a read through a
      null table pointer) returns an [outcome]. *)

From Stdlib Require Import ZArith QArith List Bool Lia.
From Stdlib Require Import Floats.SpecFloat.
Import ListNotations.
Local Open Scope Z_scope.

(* ================================================================== *)
(** * Part I: the embedding                                            *)
(* ================================================================== *)

(** ** IEEE-754 binary32 *)

Module F32.

Definition prec : Z := 24.
Definition emax : Z := 128.

Definition float : Type := spec_float.

Definition fadd : float -> float -> float := SFadd prec emax.
Definition fsub : float -> float -> float := SFsub prec emax.
Definition fmul : float -> float -> float := SFmul prec emax.
Definition fdiv : float -> float -> float := SFdiv prec emax.
Definition fsqrt : float -> float := SFsqrt prec emax.
Definition fneg : float -> float := SFopp.
Definition fabs : float -> float := SFabs.

(** The C++ comparisons [a < b], [a > b], [a <= b]; all false on a NaN. *)
Definition flt (a b : float) : bool := SFltb a b.
Definition fgt (a b : float) : bool := SFltb b a.
Definition fle (a b : float) : bool := SFleb a b.

Definition is_nan (x : float) : bool :=
  match x with S754_nan => true | _ => false end.

(** Correctly rounded quotient of two positive integers. *)
Definition of_ratio (s : bool) (n d : positive) : float :=
  let '(mz, ez, lz) := SFdiv_core_binary prec emax (Zpos n) 0 (Zpos d) 0 in
  binary_round_aux prec emax s mz ez lz.

(** A decimal literal with the [f] suffix. *)
Definition lit (q : Q) : float :=
  match Qnum q with
  | Z0 => S754_zero false
  | Zpos n => of_ratio false n (Qden q)
  | Zneg n => of_ratio true n (Qden q)
  end.

(** [(float) i] for an [int]. *)
Definition of_int (i : Z) : float := binary_normalize prec emax i 0 false.

(** <float.h> and <limits.h> *)
Definition FLT_MAX : float := SFmax_float prec emax.
Definition FLT_EPSILON : float := lit 1.192092896e-07.
Definition INT_MAX : Z := 2147483647.

(** The exact rational value of a finite number (0 on infinities, NaN). *)
Definition to_Q (x : float) : Q :=
  match x with
  | S754_finite s m e =>
      let v := if 0 <=? e then inject_Z (Zpos m * 2 ^ e)
               else Qmake (Zpos m) (Z.to_pos (2 ^ (- e))) in
      if s then Qopp v else v
  | _ => 0%Q
  end.

(** The bit pattern of a register lane holding [x], and back.  A NaN is
    stored as the default quiet NaN. *)
Definition sign_bit (s : bool) : Z := if s then 2 ^ 31 else 0.

Definition bits_of (x : float) : Z :=
  match x with
  | S754_zero s => sign_bit s
  | S754_infinity s => sign_bit s + 255 * 2 ^ 23
  | S754_nan => 511 * 2 ^ 22
  | S754_finite s m e =>
      sign_bit s +
      (if 2 ^ 23 <=? Zpos m then (e + 150) * 2 ^ 23 + (Zpos m - 2 ^ 23)
       else Zpos m)
  end.

Definition of_bits (b : Z) : float :=
  let s := Z.testbit b 31 in
  let ex := (b / 2 ^ 23) mod 256 in
  let mant := b mod 2 ^ 23 in
  if ex =? 255 then (if mant =? 0 then S754_infinity s else S754_nan)
  else if ex =? 0 then
    match mant with Zpos m => S754_finite s m (-149) | _ => S754_zero s end
  else
    match mant + 2 ^ 23 with
    | Zpos m => S754_finite s m (ex - 150)
    | _ => S754_zero s
    end.

(** Truncation toward zero to a signed integer, before any range check. *)
Definition truncate (x : float) : option Z :=
  match x with
  | S754_zero _ => Some 0
  | S754_finite s m e =>
      let a := Z.shiftl (Zpos m) e in Some (if s then - a else a)
  | _ => None
  end.

End F32.

(** ** SSE registers *)

(** Four lanes; [lane0] is the lowest. *)
Record quad (A : Type) : Type := Quad
  { lane0 : A; lane1 : A; lane2 : A; lane3 : A }.

Arguments Quad {A} _ _ _ _.
Arguments lane0 {A} _.
Arguments lane1 {A} _.
Arguments lane2 {A} _.
Arguments lane3 {A} _.

Definition lane {A : Type} (o : Z) (v : quad A) : A :=
  if o =? 0 then lane0 v
  else if o =? 1 then lane1 v
  else if o =? 2 then lane2 v
  else lane3 v.

Definition set_lane {A : Type} (o : Z) (x : A) (v : quad A) : quad A :=
  if o =? 0 then Quad x (lane1 v) (lane2 v) (lane3 v)
  else if o =? 1 then Quad (lane0 v) x (lane2 v) (lane3 v)
  else if o =? 2 then Quad (lane0 v) (lane1 v) x (lane3 v)
  else Quad (lane0 v) (lane1 v) (lane2 v) x.

Definition splat {A : Type} (x : A) : quad A := Quad x x x x.

Definition map2 {A B C : Type} (f : A -> B -> C) (a : quad A) (b : quad B)
  : quad C :=
  Quad (f (lane0 a) (lane0 b)) (f (lane1 a) (lane1 b))
       (f (lane2 a) (lane2 b)) (f (lane3 a) (lane3 b)).

Definition map1 {A B : Type} (f : A -> B) (a : quad A) : quad B :=
  Quad (f (lane0 a)) (f (lane1 a)) (f (lane2 a)) (f (lane3 a)).

Definition __m128i : Type := quad Z.
Definition __m128 : Type := quad F32.float.

(** The build: the switches the three files test, and what the compiler
    makes of [_mm_comilt_ss] on an unordered pair (a NaN on either side).
    The intrinsic is defined to answer 0 there; g++ 12 compiles it to COMISS
    followed by SETB, and COMISS sets the carry flag on an unordered pair,
    so that build answers 1. *)
Record BuildConfig : Type := MkBuildConfig
  { SQUISH_USE_SSE : Z;                       (* 2, 3 or 4 *)
    SQUISH_USE_XSSE : Z;
    FEATURE_SHAREDBITS_TRIALS : option Z;     (* [None]: not defined *)
    COMILT_UNORDERED : bool }.

Module SSE.

Definition wrap32 (x : Z) : Z := x mod 2 ^ 32.
Definition wrap16 (x : Z) : Z := x mod 2 ^ 16.

(** The value of a lane read as a signed [int] or [short]. *)
Definition signed32 (x : Z) : Z := if x <? 2 ^ 31 then x else x - 2 ^ 32.
Definition signed16 (x : Z) : Z := if x <? 2 ^ 15 then x else x - 2 ^ 16.

(** The two 16-bit words of a 32-bit lane. *)
Definition lo16 (x : Z) : Z := x mod 2 ^ 16.
Definition hi16 (x : Z) : Z := (x / 2 ^ 16) mod 2 ^ 16.
Definition words (l h : Z) : Z := l + 2 ^ 16 * h.

(** The four bytes of a 32-bit lane, lowest first. *)
Definition byte_of (j x : Z) : Z := (x / 2 ^ (8 * j)) mod 256.
Definition bytes (b0 b1 b2 b3 : Z) : Z :=
  b0 + 2 ^ 8 * b1 + 2 ^ 16 * b2 + 2 ^ 24 * b3.

Definition wf32 (x : Z) : bool := (0 <=? x) && (x <? 2 ^ 32).
Definition wf (v : __m128i) : bool :=
  wf32 (lane0 v) && wf32 (lane1 v) && wf32 (lane2 v) && wf32 (lane3 v).

Definition _mm_set1_epi32 (s : Z) : __m128i := splat (wrap32 s).
Definition _mm_setr_epi32 (r g b a : Z) : __m128i :=
  Quad (wrap32 r) (wrap32 g) (wrap32 b) (wrap32 a).
Definition _mm_setzero_si128 : __m128i := splat 0.

Definition _mm_add_epi32 (a b : __m128i) : __m128i :=
  map2 (fun x y => wrap32 (x + y)) a b.
Definition _mm_sub_epi32 (a b : __m128i) : __m128i :=
  map2 (fun x y => wrap32 (x - y)) a b.

(** Eight 16-bit products, the low 16 bits of each kept. *)
Definition mullo16 (x y : Z) : Z :=
  words (wrap16 (lo16 x * lo16 y)) (wrap16 (hi16 x * hi16 y)).
Definition _mm_mullo_epi16 (a b : __m128i) : __m128i := map2 mullo16 a b.

(** Lane [i] of the result is lane [(imm >> 2i) & 3] of the source. *)
Definition _mm_shuffle_epi32 (a : __m128i) (imm : Z) : __m128i :=
  Quad (lane (Z.land imm 3) a)
       (lane (Z.land (Z.shiftr imm 2) 3) a)
       (lane (Z.land (Z.shiftr imm 4) 3) a)
       (lane (Z.land (Z.shiftr imm 6) 3) a).

Definition _mm_cmpeq_epi32 (a b : __m128i) : __m128i :=
  map2 (fun x y => if x =? y then 2 ^ 32 - 1 else 0) a b.

(** The top bit of each of the sixteen bytes. *)
Definition msb4 (x : Z) : Z :=
  Z.b2z (Z.testbit x 7) + 2 * Z.b2z (Z.testbit x 15)
  + 4 * Z.b2z (Z.testbit x 23) + 8 * Z.b2z (Z.testbit x 31).
Definition _mm_movemask_epi8 (a : __m128i) : Z :=
  msb4 (lane0 a) + 2 ^ 4 * msb4 (lane1 a)
  + 2 ^ 8 * msb4 (lane2 a) + 2 ^ 12 * msb4 (lane3 a).

(** Word [i] of the eight, zero-extended. *)
Definition _mm_extract_epi16 (a : __m128i) (i : Z) : Z :=
  let x := lane (i / 2) a in if Z.even i then lo16 x else hi16 x.

Definition _mm_cvtsi128_si32 (a : __m128i) : Z := signed32 (lane0 a).

(** PSRLD: a count outside 0..31 clears the lanes. *)
Definition _mm_srli_epi32 (a : __m128i) (n : Z) : __m128i :=
  map1 (fun x => if (0 <=? n) && (n <? 32) then Z.shiftr x n else 0) a.

(** Lanes 0 and 2 multiplied as unsigned numbers into two 64-bit results. *)
Definition _mm_mul_epu32 (a b : __m128i) : __m128i :=
  let p := lane0 a * lane0 b in
  let q := lane2 a * lane2 b in
  Quad (wrap32 p) (wrap32 (p / 2 ^ 32)) (wrap32 q) (wrap32 (q / 2 ^ 32)).

(** Saturation of a signed value to a [short], to an unsigned byte. *)
Definition sat_i16 (x : Z) : Z :=
  wrap16 (if x <? - 2 ^ 15 then - 2 ^ 15 else if 2 ^ 15 - 1 <? x then 2 ^ 15 - 1 else x).
Definition sat_u8 (x : Z) : Z :=
  if x <? 0 then 0 else if 255 <? x then 255 else x.

Definition _mm_packs_epi32 (a b : __m128i) : __m128i :=
  let s x := sat_i16 (signed32 x) in
  Quad (words (s (lane0 a)) (s (lane1 a))) (words (s (lane2 a)) (s (lane3 a)))
       (words (s (lane0 b)) (s (lane1 b))) (words (s (lane2 b)) (s (lane3 b))).

Definition _mm_packus_epi16 (a b : __m128i) : __m128i :=
  let u x := sat_u8 (signed16 x) in
  let pk x y := bytes (u (lo16 x)) (u (hi16 x)) (u (lo16 y)) (u (hi16 y)) in
  Quad (pk (lane0 a) (lane1 a)) (pk (lane2 a) (lane3 a))
       (pk (lane0 b) (lane1 b)) (pk (lane2 b) (lane3 b)).

(** *** Bitwise, 64-bit and 128-bit integer intrinsics *)

Definition _mm_and_si128 (a b : __m128i) : __m128i := map2 Z.land a b.
Definition _mm_or_si128 (a b : __m128i) : __m128i := map2 Z.lor a b.
Definition _mm_xor_si128 (a b : __m128i) : __m128i := map2 Z.lxor a b.

(** [e3] is the highest lane. *)
Definition _mm_set_epi32 (e3 e2 e1 e0 : Z) : __m128i :=
  Quad (wrap32 e0) (wrap32 e1) (wrap32 e2) (wrap32 e3).

Definition _mm_cvtsi32_si128 (v : Z) : __m128i := Quad (wrap32 v) 0 0 0.

(** PSLLD: a count outside 0..31 clears the lanes. *)
Definition _mm_slli_epi32 (a : __m128i) (n : Z) : __m128i :=
  map1 (fun x => if (0 <=? n) && (n <? 32) then wrap32 (Z.shiftl x n)
                 else 0) a.

(** The register as two 64-bit halves and as one 128-bit number. *)
Definition lo64 (a : __m128i) : Z := lane0 a + 2 ^ 32 * lane1 a.
Definition hi64 (a : __m128i) : Z := lane2 a + 2 ^ 32 * lane3 a.
Definition of_halves (l h : Z) : __m128i :=
  Quad (l mod 2 ^ 32) ((l / 2 ^ 32) mod 2 ^ 32)
       (h mod 2 ^ 32) ((h / 2 ^ 32) mod 2 ^ 32).
Definition value128 (a : __m128i) : Z := lo64 a + 2 ^ 64 * hi64 a.
Definition of_value128 (x : Z) : __m128i :=
  of_halves (x mod 2 ^ 64) ((x / 2 ^ 64) mod 2 ^ 64).

(** PSLLDQ / PSRLDQ: the whole register shifted by [imm] bytes, zeros
    shifted in; a count outside 0..15 clears it. *)
Definition _mm_slli_si128 (a : __m128i) (imm : Z) : __m128i :=
  if (0 <=? imm) && (imm <? 16) then of_value128 (value128 a * 2 ^ (8 * imm))
  else splat 0.

(** PSLLQ / PSRLQ with an immediate, and with the count in the low 64 bits
    of a register: both halves shifted, a count outside 0..63 clears them. *)
Definition shift64 (left : bool) (a : __m128i) (count : Z) : __m128i :=
  if (0 <=? count) && (count <? 64) then
    if left then
      of_halves ((lo64 a * 2 ^ count) mod 2 ^ 64)
                ((hi64 a * 2 ^ count) mod 2 ^ 64)
    else of_halves (lo64 a / 2 ^ count) (hi64 a / 2 ^ count)
  else splat 0.
Definition _mm_slli_epi64 (a : __m128i) (n : Z) : __m128i := shift64 true a n.
Definition _mm_srli_epi64 (a : __m128i) (n : Z) : __m128i := shift64 false a n.
Definition _mm_sll_epi64 (a count : __m128i) : __m128i :=
  shift64 true a (lo64 count).
Definition _mm_srl_epi64 (a count : __m128i) : __m128i :=
  shift64 false a (lo64 count).

Definition _mm_unpacklo_epi64 (a b : __m128i) : __m128i :=
  Quad (lane0 a) (lane1 a) (lane0 b) (lane1 b).

(** Word [imm] of the eight replaced by the low 16 bits of [i]. *)
Definition _mm_insert_epi16 (a : __m128i) (i imm : Z) : __m128i :=
  let o := imm / 2 in
  let x := lane o a in
  set_lane o (if Z.even imm then words (wrap16 i) (hi16 x)
              else words (lo16 x) (wrap16 i)) a.

(** Signed minimum and maximum of the eight 16-bit words. *)
Definition word_op (f : Z -> Z -> Z) (x y : Z) : Z :=
  words (wrap16 (f (signed16 (lo16 x)) (signed16 (lo16 y))))
        (wrap16 (f (signed16 (hi16 x)) (signed16 (hi16 y)))).
Definition _mm_min_epi16 (a b : __m128i) : __m128i := map2 (word_op Z.min) a b.
Definition _mm_max_epi16 (a b : __m128i) : __m128i := map2 (word_op Z.max) a b.

(** Signed comparison of the lanes. *)
Definition _mm_cmpgt_epi32 (a b : __m128i) : __m128i :=
  map2 (fun x y => if signed32 y <? signed32 x then 2 ^ 32 - 1 else 0) a b.

End SSE.

(** ** SSE float intrinsics *)

(** What the C++ text leaves to the machine and to <cmath>: the reciprocal
    estimate of RCPSS / RCPPS and the single-precision [atan2], [cos], [sin]. *)
Record Machine : Type := MkMachine
  { rcp_estimate : F32.float -> F32.float;
    atan2f : F32.float -> F32.float -> F32.float;
    cosf : F32.float -> F32.float;
    sinf : F32.float -> F32.float }.

Module SSEf.

Import SSE.

Definition _mm_set1_ps (s : F32.float) : __m128 := splat s.
Definition _mm_setr_ps (x y z w : F32.float) : __m128 := Quad x y z w.

Definition _mm_add_ps (a b : __m128) : __m128 := map2 F32.fadd a b.
Definition _mm_sub_ps (a b : __m128) : __m128 := map2 F32.fsub a b.
Definition _mm_mul_ps (a b : __m128) : __m128 := map2 F32.fmul a b.

(** The two low lanes come from [a], the two high lanes from [b]. *)
Definition _mm_shuffle_ps (a b : __m128) (imm : Z) : __m128 :=
  Quad (lane (Z.land imm 3) a)
       (lane (Z.land (Z.shiftr imm 2) 3) a)
       (lane (Z.land (Z.shiftr imm 4) 3) b)
       (lane (Z.land (Z.shiftr imm 6) 3) b).

Definition _mm_hadd_ps (a b : __m128) : __m128 :=
  Quad (F32.fadd (lane0 a) (lane1 a)) (F32.fadd (lane2 a) (lane3 a))
       (F32.fadd (lane0 b) (lane1 b)) (F32.fadd (lane2 b) (lane3 b)).

(** CVTTPS2DQ: truncation; the "integer indefinite" 0x80000000 when the
    value does not fit an [int]. *)
Definition cvtt (x : F32.float) : Z :=
  match F32.truncate x with
  | Some z => if (- 2 ^ 31 <=? z) && (z <? 2 ^ 31) then wrap32 z else 2 ^ 31
  | None => 2 ^ 31
  end.
Definition _mm_cvttps_epi32 (a : __m128) : __m128i := map1 cvtt a.

Definition _mm_cvtepi32_ps (a : __m128i) : __m128 :=
  map1 (fun x => F32.of_int (signed32 x)) a.

Definition _mm_castps_si128 (a : __m128) : __m128i := map1 F32.bits_of a.
Definition _mm_castsi128_ps (a : __m128i) : __m128 := map1 F32.of_bits a.

(** The scalar forms work on lane 0 and copy the other lanes of [a]. *)
Definition scalar1 (f : F32.float -> F32.float) (a : __m128) : __m128 :=
  Quad (f (lane0 a)) (lane1 a) (lane2 a) (lane3 a).
Definition scalar2 (f : F32.float -> F32.float -> F32.float) (a b : __m128)
  : __m128 :=
  Quad (f (lane0 a) (lane0 b)) (lane1 a) (lane2 a) (lane3 a).

Definition _mm_load_ss (x : F32.float) : __m128 :=
  Quad x (S754_zero false) (S754_zero false) (S754_zero false).
Definition _mm_store_ss (a : __m128) : F32.float := lane0 a.
Definition _mm_add_ss : __m128 -> __m128 -> __m128 := scalar2 F32.fadd.
Definition _mm_sub_ss : __m128 -> __m128 -> __m128 := scalar2 F32.fsub.
Definition _mm_mul_ss : __m128 -> __m128 -> __m128 := scalar2 F32.fmul.
Definition _mm_sqrt_ss : __m128 -> __m128 := scalar1 F32.fsqrt.
Definition _mm_rcp_ss (hw : Machine) : __m128 -> __m128 :=
  scalar1 (rcp_estimate hw).

(** COMISS on the lowest lanes.  On an ordered pair [_mm_comilt_ss] and
    [_mm_comigt_ss] are [<] and [>].  On an unordered pair
    [_mm_comigt_ss] answers 0 in every build (SETA needs the carry flag
    clear), and [_mm_comilt_ss] answers what the build makes of it. *)
Definition unordered (a b : F32.float) : bool :=
  F32.is_nan a || F32.is_nan b.
Definition _mm_comilt_ss (cfg : BuildConfig) (a b : __m128) : bool :=
  F32.flt (lane0 a) (lane0 b)
  || (COMILT_UNORDERED cfg && unordered (lane0 a) (lane0 b)).
Definition _mm_comigt_ss (a b : __m128) : bool := F32.fgt (lane0 a) (lane0 b).

(** *** Further float intrinsics *)

(** RCPPS: the estimate in every lane. *)
Definition _mm_rcp_ps (hw : Machine) (a : __m128) : __m128 :=
  map1 (rcp_estimate hw) a.

(** MINPS / MAXPS: the first operand where it is strictly below (above) the
    second, the second operand otherwise, so also when one of the two is a
    NaN or both are zeros. *)
Definition _mm_min_ps (a b : __m128) : __m128 :=
  map2 (fun x y => if F32.flt x y then x else y) a b.
Definition _mm_max_ps (a b : __m128) : __m128 :=
  map2 (fun x y => if F32.fgt x y then x else y) a b.

(** CMPLTPS leaves a mask, all ones in the lanes where [a < b]; a mask is
    kept as the bits of the register.  MOVMSKPS collects the top bit of
    each lane. *)
Definition _mm_cmplt_ps (a b : __m128) : __m128i :=
  map2 (fun x y => if F32.flt x y then 2 ^ 32 - 1 else 0) a b.
Definition _mm_movemask_ps (bits : __m128i) : Z :=
  Z.b2z (Z.testbit (lane0 bits) 31) + 2 * Z.b2z (Z.testbit (lane1 bits) 31)
  + 4 * Z.b2z (Z.testbit (lane2 bits) 31)
  + 8 * Z.b2z (Z.testbit (lane3 bits) 31).

(** XORPS works on the bits of the two registers, whatever they encode. *)
Definition _mm_xor_ps (a b : __m128i) : __m128i := map2 Z.lxor a b.

End SSEf.

(** The shuffle selectors of simd_sse.h. *)
Definition SQUISH_SSE_SPLAT (a : Z) : Z :=
  Z.lor (Z.lor (Z.lor a (Z.shiftl a 2)) (Z.shiftl a 4)) (Z.shiftl a 6).
Definition SQUISH_SSE_SHUF (x y z w : Z) : Z :=
  Z.lor (Z.lor (Z.lor x (Z.shiftl y 2)) (Z.shiftl z 4)) (Z.shiftl w 6).
Definition SQUISH_SSE_SWAP64 : Z := SQUISH_SSE_SHUF 2 3 0 1.
Definition SQUISH_SSE_SWAP32 : Z := SQUISH_SSE_SHUF 3 2 1 0.

(** What simd_sse.h leaves to the AMD SSE4a instructions EXTRQ and INSERTQ,
    which the builds with [SQUISH_USE_XSSE == 4] use. *)
Record SSE4a : Type := MkSSE4a
  { _mm_inserti_si64 : __m128i -> __m128i -> Z -> Z -> __m128i;
    _mm_insert_si64 : __m128i -> __m128i -> __m128i;
    _mm_extracti_si64 : __m128i -> Z -> Z -> __m128i;
    _mm_extract_si64 : __m128i -> __m128i -> __m128i }.

(** ** simd_sse.h, class Col4 *)

Module Col4.

Import SSE.

Definition t : Type := __m128i.

(** [explicit Col4( int s )] and [Col4( int r, int g, int b, int a )] *)
Definition of_int (s : Z) : t := _mm_set1_epi32 s.
Definition make (r g b a : Z) : t := _mm_setr_epi32 r g b a.

Definition R (v : t) : Z := _mm_extract_epi16 v 0.
Definition G (v : t) : Z := _mm_extract_epi16 v 2.
Definition B (v : t) : Z := _mm_extract_epi16 v 4.
Definition A (v : t) : Z := _mm_extract_epi16 v 6.

(** [operator+], [operator-] *)
Definition add (left right : t) : t := _mm_add_epi32 left right.
Definition sub (left right : t) : t := _mm_sub_epi32 left right.

(** [operator*( Col4, Col4 )]; the 32-bit multiply is commented out in the
    source and the 16-bit one is used. *)
Definition mul (left right : t) : t := _mm_mullo_epi16 left right.

(** [operator*( Col4, int )] *)
Definition mul_int (left : t) (right : Z) : t :=
  _mm_mullo_epi16 left (_mm_set1_epi32 right).

(** [operator*=]: the new value of the receiver *)
Definition mul_assign (m_v v : t) : t := _mm_mullo_epi16 m_v v.

(** Returns a*b + c *)
Definition MultiplyAdd (a b c : t) : t :=
  _mm_add_epi32 (_mm_mullo_epi16 a b) c.

(** Returns -( a*b - c ) *)
Definition NegativeMultiplySubtract (a b c : t) : t :=
  _mm_sub_epi32 c (_mm_mullo_epi16 a b).

(** PHADDD, used when [SQUISH_USE_XSSE == 3] *)
Definition _mm_hadd_epi32 (a b : t) : t :=
  Quad (wrap32 (lane0 a + lane1 a)) (wrap32 (lane2 a + lane3 a))
       (wrap32 (lane0 b + lane1 b)) (wrap32 (lane2 b + lane3 b)).

Definition HorizontalAdd (cfg : BuildConfig) (a : t) : t :=
  if SQUISH_USE_XSSE cfg =? 3 then
    let res := _mm_hadd_epi32 a a in
    _mm_hadd_epi32 res res
  else
    let res := a in
    let res := _mm_add_epi32 res (_mm_shuffle_epi32 res SQUISH_SSE_SWAP64) in
    let res := _mm_add_epi32 res (_mm_shuffle_epi32 res SQUISH_SSE_SWAP32) in
    res.

Definition Dot (cfg : BuildConfig) (left right : t) : t :=
  HorizontalAdd cfg (_mm_mullo_epi16 left right).

Definition CompareAnyLessThan (left right : t) : bool :=
  let bits := _mm_cmpeq_epi32 left right in
  let value := _mm_movemask_epi8 bits in
  negb (value =? 0).

Definition CompareAllEqualTo (left right : t) : bool :=
  let bits := _mm_cmpeq_epi32 left right in
  let value := _mm_movemask_epi8 bits in
  value =? 65535.

(** [PackBytes( a, loc )]: the [int] written to [loc] *)
Definition PackBytes (a : t) : Z :=
  let r := _mm_packs_epi32 a a in
  let r := _mm_packus_epi16 r r in
  _mm_cvtsi128_si32 r.

(** *** The rest of class Col4.  A method that assigns to its receiver is
    given as the new value of the receiver; a template parameter is an
    argument. *)

Import SSEf.

Definition GetLong (m_v : t) : Z := _mm_cvtsi128_si32 m_v.
Definition SetLong (v : Z) : t := _mm_cvtsi32_si128 v.

Definition SplatR (m_v : t) : t := _mm_shuffle_epi32 m_v (SQUISH_SSE_SPLAT 0).
Definition SplatG (m_v : t) : t := _mm_shuffle_epi32 m_v (SQUISH_SSE_SPLAT 1).
Definition SplatB (m_v : t) : t := _mm_shuffle_epi32 m_v (SQUISH_SSE_SPLAT 2).
Definition SplatA (m_v : t) : t := _mm_shuffle_epi32 m_v (SQUISH_SSE_SPLAT 3).

(** The four [_mm_insert_epi16] both setters start with. *)
Definition insert_rgba (r g b a : Z) : t :=
  let v := _mm_setzero_si128 in
  let v := _mm_insert_epi16 v r 0 in
  let v := _mm_insert_epi16 v g 2 in
  let v := _mm_insert_epi16 v b 4 in
  let v := _mm_insert_epi16 v a 6 in
  v.

(** [template<const int inv> void SetRGBA( int r, int g, int b, int a )] *)
Definition SetRGBA (inv r g b a : Z) : t :=
  let v := insert_rgba r g b a in
  let v := if negb (inv =? 0) then _mm_sub_epi32 (_mm_set1_epi32 inv) v
           else v in
  v.

(** [template<const int inv> void SetRGBApow2( int r, int g, int b, int a )] *)
Definition SetRGBApow2 (inv r g b a : Z) : t :=
  let v := insert_rgba r g b a in
  let v := if negb (inv =? 0) then _mm_sub_epi32 (_mm_set1_epi32 inv) v
           else v in
  let v := _mm_slli_epi32 v 23 in
  let v := _mm_add_epi32 v (_mm_castps_si128 (_mm_set1_ps (F32.lit 1.0))) in
  _mm_cvttps_epi32 (_mm_castsi128_ps v).

(** [operator&], [operator^], [operator|], [operator>>], [operator<<] *)
Definition band (left right : t) : t := _mm_and_si128 left right.
Definition bxor (left right : t) : t := _mm_xor_si128 left right.
Definition bor (left right : t) : t := _mm_or_si128 left right.

(** [template<const int n> ShiftLeft], [ShiftRight] *)
Definition ShiftLeft (n : Z) (a : t) : t :=
  if n <=? 0 then a
  else if negb (Z.land n 7 =? 0) then
    _mm_slli_epi32 (_mm_slli_si128 a (Z.shiftr n 3)) (Z.land n 7)
  else _mm_slli_si128 a (Z.shiftr n 3).


(** [ShiftRightHalf] and [ShiftLeftHalf]: the template forms, and the
    forms with the count in an [int] or in a Col4. *)
Definition ShiftRightHalf (n : Z) (a : t) : t :=
  if 0 <? n then _mm_srli_epi64 a n else a.
Definition ShiftRightHalf_int (a : t) (n : Z) : t :=
  _mm_srl_epi64 a (_mm_cvtsi32_si128 n).
Definition ShiftRightHalf_col (a b : t) : t := _mm_srl_epi64 a b.
Definition ShiftLeftHalf (n : Z) (a : t) : t :=
  if 0 <? n then _mm_slli_epi64 a n else a.
Definition ShiftLeftHalf_int (a : t) (n : Z) : t :=
  _mm_sll_epi64 a (_mm_cvtsi32_si128 n).

(** (1 << r, 1 << g, 1 << b, 1 << a) *)
Definition ShiftLeftLo (r g b a : Z) (v : t) : t :=
  let p2 := SetRGBApow2 0 r g b a in
  _mm_mullo_epi16 v p2.

(** [template<const int n, const int p> MaskBits]:
    [__int64 base = ~(0xFFFFFFFFFFFFFFFFULL << ((p + n) & 63))] *)
Definition mask_base (n p : Z) : Z :=
  Z.lxor (2 ^ 64 - 1) (((2 ^ 64 - 1) * 2 ^ Z.land (p + n) 63) mod 2 ^ 64).

Definition MaskBits (n p : Z) (a : t) : t :=
  if p + n <=? 0 then of_int 0
  else if 64 <=? p + n then a
  else
    let base := mask_base n p in
    let mask := _mm_setr_epi32 (Z.shiftr base 0) (Z.shiftr base 32) 0 0 in
    _mm_and_si128 a mask.

(** [MaskBits( Col4::Arg a, const int n, const int p )] *)
Definition MaskBits_int (a : t) (n p : Z) : t :=
  let val := 64 - (p + n) in
  let shift := _mm_max_epi16 (_mm_cvtsi32_si128 val) (_mm_set1_epi32 0) in
  let mask := _mm_setr_epi32 4294967295 4294967295 0 0 in
  let mask := _mm_srl_epi64 mask shift in
  _mm_and_si128 a mask.

(** [CopyBits], [ExtrBits]: the template forms and the forms with [int]
    arguments. *)
Definition CopyBits (cfg : BuildConfig) (x : SSE4a) (n p : Z)
  (left right : t) : t :=
  if n =? 0 then left
  else if p =? 0 then MaskBits n 0 right
  else if 64 <=? p + n then bor left (ShiftLeftHalf p right)
  else if SQUISH_USE_XSSE cfg =? 4 then _mm_inserti_si64 x left right n p
  else bor (MaskBits p 0 left) (MaskBits n p (ShiftLeftHalf p right)).

Definition CopyBits_int (cfg : BuildConfig) (x : SSE4a) (left right : t)
  (n p : Z) : t :=
  if SQUISH_USE_XSSE cfg =? 4 then
    let val := Z.lor (Z.shiftl p 8) (Z.shiftl n 0) in
    let right := _mm_unpacklo_epi64 right (_mm_cvtsi32_si128 val) in
    _mm_insert_si64 x left right
  else
    bor (MaskBits_int left p 0) (MaskBits_int (ShiftLeftHalf_int right p) n p).

Definition ExtrBits (cfg : BuildConfig) (x : SSE4a) (n p : Z) (a : t) : t :=
  if n =? 0 then of_int 0
  else if p =? 0 then MaskBits n 0 a
  else if 64 <=? n + p then ShiftRightHalf p a
  else if SQUISH_USE_XSSE cfg =? 4 then _mm_extracti_si64 x a n p
  else MaskBits n 0 (ShiftRightHalf p a).

Definition ExtrBits_int (cfg : BuildConfig) (x : SSE4a) (a : t) (n p : Z)
  : t :=
  if SQUISH_USE_XSSE cfg =? 4 then
    let val := Z.lor (Z.shiftl p 8) (Z.shiftl n 0) in
    _mm_extract_si64 x a (_mm_cvtsi32_si128 val)
  else MaskBits_int (ShiftRightHalf_int a p) n 0.

(** [ConcBits<n, p>( left, right )], [ReplBits<n, p>( left, right )]: the
    new value of [right]. *)
Definition ConcBits (cfg : BuildConfig) (x : SSE4a) (n p : Z)
  (left right : t) : t :=
  let right := ShiftLeft 32 right in
  if 0 <? n then bor right (ExtrBits cfg x n p left) else right.

Definition ReplBits (cfg : BuildConfig) (x : SSE4a) (n p : Z)
  (left right : t) : t :=
  if n =? 0 then right
  else if n <? 0 then
    let right := ExtrBits cfg x (- n) p left in
    _mm_shuffle_epi32 right (SQUISH_SSE_SHUF 0 0 0 3)
  else
    let right := ExtrBits cfg x n p left in
    _mm_shuffle_epi32 right (SQUISH_SSE_SHUF 0 0 0 0).

(** [template<const int f, const int t> Shuffle], [Exchange] *)
Definition Shuffle (f t' : Z) (a : t) : t :=
  if f =? t' then a
  else _mm_shuffle_epi32 a (SQUISH_SSE_SHUF
         (if t' =? 0 then f else 0)
         (if t' =? 1 then f else 1)
         (if t' =? 2 then f else 2)
         (if t' =? 3 then f else 3)).

Definition Exchange (f t' : Z) (a : t) : t :=
  if f =? t' then a
  else _mm_shuffle_epi32 a (SQUISH_SSE_SHUF
         (if t' =? 0 then f else (if f =? 0 then t' else 0))
         (if t' =? 1 then f else (if f =? 1 then t' else 1))
         (if t' =? 2 then f else (if f =? 2 then t' else 2))
         (if t' =? 3 then f else (if f =? 3 then t' else 3))).

(** [HorizontalAdd( Arg a, Arg b )] *)
Definition HorizontalAdd2 (cfg : BuildConfig) (a b : t) : t :=
  if SQUISH_USE_XSSE cfg =? 3 then
    let resc := _mm_hadd_epi32 a b in
    let resc := _mm_hadd_epi32 resc resc in
    let resc := _mm_hadd_epi32 resc resc in
    resc
  else
    let resc := _mm_add_epi32 a b in
    let resc := _mm_add_epi32 resc (_mm_shuffle_epi32 resc SQUISH_SSE_SWAP64) in
    let resc := _mm_add_epi32 resc (_mm_shuffle_epi32 resc SQUISH_SSE_SWAP32) in
    resc.

(** [HorizontalAddTiny]: the lanes are added as floats where HADDPS is
    there ("relies on correct de-normal floating-point treatment"). *)
Definition HorizontalAddTiny (cfg : BuildConfig) (a : t) : t :=
  if (SQUISH_USE_XSSE cfg =? 4) || (3 <=? SQUISH_USE_SSE cfg) then
    let res := _mm_castsi128_ps a in
    let res := _mm_hadd_ps res res in
    let res := _mm_hadd_ps res res in
    _mm_castps_si128 res
  else HorizontalAdd cfg a.

Definition DotTiny (cfg : BuildConfig) (left right : t) : t :=
  HorizontalAddTiny cfg (_mm_mullo_epi16 left right).

(** [Min], [Max]: the 32-bit forms are commented out in the source and the
    16-bit ones are used. *)
Definition Min (left right : t) : t := _mm_min_epi16 left right.
Definition Max (left right : t) : t := _mm_max_epi16 left right.

Definition IsNotZero (v : t) : t := _mm_cmpgt_epi32 v _mm_setzero_si128.
Definition IsOne (v : t) : t := _mm_cmpeq_epi32 v (_mm_set1_epi32 255).

Definition TransferA (left right : t) : t :=
  let l := _mm_and_si128 left
             (_mm_set_epi32 0 4294967295 4294967295 4294967295) in
  let r := _mm_and_si128 right (_mm_set_epi32 4294967295 0 0 0) in
  _mm_or_si128 l r.

Definition KillA (left : t) : t :=
  _mm_or_si128 left (_mm_setr_epi32 0 0 0 255).

(** clamp the output to [0, 1] *)
Definition Clamp (m_v : t) : t :=
  let one := of_int 255 in
  let zero := of_int 0 in
  Min one (Max zero m_v).

(** [LoadAligned( a, b, c )]: the new [a] and [b];
    [StoreAligned( a, b, c )]: the new [c]. *)
Definition LoadAligned (c : t) : t * t :=
  let a := c in
  let b := _mm_shuffle_epi32 a SQUISH_SSE_SWAP64 in
  (a, b).
Definition StoreAligned (a b : t) : t := _mm_unpacklo_epi64 a b.

End Col4.

(** ** simd_sse.h, class Vec4 *)

Module Vec4.

Import SSE SSEf.

Definition t : Type := __m128.

(** [explicit Vec4( float s )], [explicit Vec4( int s )],
    [Vec4( float x, float y, float z, float w )] *)
Definition of_float (s : F32.float) : t := _mm_set1_ps s.
Definition of_int (s : Z) : t := _mm_set1_ps (F32.of_int s).
Definition make (x y z w : F32.float) : t := _mm_setr_ps x y z w.

Definition X (v : t) : F32.float := lane0 v.
Definition Y (v : t) : F32.float := lane1 v.
Definition Z (v : t) : F32.float := lane2 v.
Definition W (v : t) : F32.float := lane3 v.

(** [float &GetO(int o)]: read through the reference, write through it *)
Definition GetO (v : t) (o : BinNums.Z) : F32.float := lane o v.
Definition SetO (v : t) (o : BinNums.Z) (x : F32.float) : t := set_lane o x v.

(** [operator+], [operator-], [operator*] *)
Definition add (left right : t) : t := _mm_add_ps left right.
Definition sub (left right : t) : t := _mm_sub_ps left right.
Definition mul (left right : t) : t := _mm_mul_ps left right.

Definition use_hadd (cfg : BuildConfig) : bool :=
  (SQUISH_USE_XSSE cfg =? 4) || (3 <=? SQUISH_USE_SSE cfg).

Definition HorizontalAdd (cfg : BuildConfig) (a : t) : t :=
  if use_hadd cfg then
    let res := a in
    let res := _mm_hadd_ps res res in
    let res := _mm_hadd_ps res res in
    res
  else
    let res := a in
    let res := _mm_add_ps res (_mm_shuffle_ps res res SQUISH_SSE_SWAP64) in
    let res := _mm_add_ps res (_mm_shuffle_ps res res SQUISH_SSE_SWAP32) in
    res.

Definition Dot (cfg : BuildConfig) (left right : t) : t :=
  HorizontalAdd cfg (_mm_mul_ps left right).

(** [template<const bool round> FloatToInt], the SSE2 form *)
Definition FloatToInt (round : bool) (v : t) : Col4.t :=
  if round then
    _mm_cvttps_epi32 (_mm_add_ps v (_mm_set1_ps (F32.lit 0.5)))
  else
    _mm_cvttps_epi32 v.

Definition CompareFirstLessThan (cfg : BuildConfig) (left right : t) : bool :=
  _mm_comilt_ss cfg left right.

Definition CompareFirstGreaterThan (left right : t) : bool :=
  _mm_comigt_ss left right.

Definition sqrt (x : F32.float) : F32.float :=
  let s := _mm_load_ss x in
  let s := _mm_sqrt_ss s in
  _mm_store_ss s.

(** One pass of the loop body of [cbrt]; [x] is the current guess. *)
Definition cbrt_step (hw : Machine) (n x : __m128) : __m128 :=
  (* X * X * X *)
  let c := _mm_mul_ss x (_mm_mul_ss x x) in
  (* ((c * t) + (n * f)) *)
  let u := _mm_add_ss (_mm_mul_ss c (_mm_set1_ps (F32.of_int 2)))
                      (_mm_mul_ss n (_mm_set1_ps (F32.of_int 4))) in
  (* ((c * f) + (n * t)) *)
  let v := _mm_add_ss (_mm_mul_ss c (_mm_set1_ps (F32.of_int 4)))
                      (_mm_mul_ss n (_mm_set1_ps (F32.of_int 2))) in
  (* 1 / u *)
  let estimate := _mm_rcp_ss hw v in
  let diff := _mm_sub_ss (_mm_set1_ps (F32.lit 1.0)) (_mm_mul_ss estimate v) in
  let v := _mm_add_ss (_mm_mul_ss diff estimate) estimate in
  (* ((c * t) + (n * f)) * (x) / ((c * f) + (n * t)) *)
  _mm_mul_ss x (_mm_mul_ss u v).

Definition cbrt (hw : Machine) (x : F32.float) : F32.float :=
  let n := _mm_load_ss x in
  (* initial guess, cool hack:
     Y = (((Y >> 17) * 0xAAAB)) + (709921077L << 0); this overwrites the
     "poor" guess sqrt( n ) + 1e-15 computed just before *)
  let x :=
    _mm_castsi128_ps
      (_mm_add_epi32
         (_mm_mul_epu32 (_mm_srli_epi32 (_mm_castps_si128 n) 17)
                        (_mm_set1_epi32 43691))
         (_mm_set1_epi32 709921077)) in
  (* for (int i = 0; i < 1; i++) *)
  let x := cbrt_step hw n x in
  _mm_store_ss x.


(** *** The rest of class Vec4.  A method that assigns to its receiver is
    given as the new value of the receiver; a template parameter is an
    argument. *)

Definition SplatX (m_v : t) : t := _mm_shuffle_ps m_v m_v (SQUISH_SSE_SPLAT 0).
Definition SplatY (m_v : t) : t := _mm_shuffle_ps m_v m_v (SQUISH_SSE_SPLAT 1).
Definition SplatZ (m_v : t) : t := _mm_shuffle_ps m_v m_v (SQUISH_SSE_SPLAT 2).
Definition SplatW (m_v : t) : t := _mm_shuffle_ps m_v m_v (SQUISH_SSE_SPLAT 3).

(** The four [_mm_insert_epi16] both setters start with. *)
Definition insert_xyzw (x y z w : BinNums.Z) : __m128i :=
  let v := _mm_setzero_si128 in
  let v := _mm_insert_epi16 v x 0 in
  let v := _mm_insert_epi16 v y 2 in
  let v := _mm_insert_epi16 v z 4 in
  let v := _mm_insert_epi16 v w 6 in
  v.

(** [template<const int inv> void SetXYZW( int x, int y, int z, int w )] *)
Definition SetXYZW (inv x y z w : BinNums.Z) : t :=
  let v := insert_xyzw x y z w in
  let v := if negb (inv =? 0) then _mm_sub_epi32 (_mm_set1_epi32 inv) v
           else v in
  _mm_cvtepi32_ps v.

(** [template<const int inv> void SetXYZWpow2( int x, int y, int z, int w )] *)
Definition SetXYZWpow2 (inv x y z w : BinNums.Z) : t :=
  let v := insert_xyzw x y z w in
  let v := if negb (inv =? 0) then _mm_sub_epi32 (_mm_set1_epi32 inv) v
           else v in
  let v := _mm_slli_epi32 v 23 in
  let v := _mm_add_epi32 v (_mm_castps_si128 (_mm_set1_ps (F32.lit 1.0))) in
  _mm_castsi128_ps v.

(** [operator*( Vec4, float )], [operator*( float, Vec4 )],
    [operator*( Vec4, int )] *)
Definition mul_float (left : t) (right : F32.float) : t :=
  _mm_mul_ps left (_mm_set1_ps right).
Definition float_mul (left : F32.float) (right : t) : t :=
  _mm_mul_ps (_mm_set1_ps left) right.
Definition mul_int (left : t) (right : BinNums.Z) : t :=
  _mm_mul_ps left (_mm_cvtepi32_ps (_mm_set1_epi32 right)).

(** Returns a*b + c *)
Definition MultiplyAdd (a b c : t) : t := _mm_add_ps (_mm_mul_ps a b) c.

(** Returns -( a*b - c ) *)
Definition NegativeMultiplySubtract (a b c : t) : t :=
  _mm_sub_ps c (_mm_mul_ps a b).

Definition HorizontalAdd2 (cfg : BuildConfig) (a b : t) : t :=
  if use_hadd cfg then
    let resc := _mm_hadd_ps a b in
    let resc := _mm_hadd_ps resc resc in
    let resc := _mm_hadd_ps resc resc in
    resc
  else
    let resc := _mm_add_ps a b in
    let resc := _mm_add_ps resc (_mm_shuffle_ps resc resc SQUISH_SSE_SWAP64) in
    let resc := _mm_add_ps resc (_mm_shuffle_ps resc resc SQUISH_SSE_SWAP32) in
    resc.

Definition Reciprocal (hw : Machine) (v : t) : t :=
  (* get the reciprocal estimate *)
  let estimate := _mm_rcp_ps hw v in
  (* one round of Newton-Rhaphson refinement *)
  let diff := _mm_sub_ps (_mm_set1_ps (F32.lit 1.0)) (_mm_mul_ps estimate v) in
  _mm_add_ps (_mm_mul_ps diff estimate) estimate.

(** [operator/( Vec4, float )]; [operator/=] assigns the same value. *)
Definition div_float (hw : Machine) (left : t) (right : F32.float) : t :=
  mul left (Reciprocal hw (of_float right)).

Definition Min (left right : t) : t := _mm_min_ps left right.
Definition Max (left right : t) : t := _mm_max_ps left right.

(** clamp the output to [0, 1] *)
Definition Clamp (m_v : t) : t :=
  let one := of_float (F32.lit 1.0) in
  let zero := of_float (F32.lit 0.0) in
  Min one (Max zero m_v).

(** [Truncate], the SSE2 form *)
Definition Truncate (v : t) : t := _mm_cvtepi32_ps (_mm_cvttps_epi32 v).

Definition CompareAnyLessThan (left right : t) : bool :=
  let bits := _mm_cmplt_ps left right in
  let value := _mm_movemask_ps bits in
  negb (value =? 0).

Definition TransferW (left right : t) : t :=
  (* [new W, new W, old Z, old Z] *)
  let u := _mm_shuffle_ps left right (SQUISH_SSE_SHUF 2 2 3 3) in
  (* [new W, old Z, old Y, old X] *)
  let u := _mm_shuffle_ps left u (SQUISH_SSE_SHUF 0 1 0 2) in
  u.

(** [SwapXYZW], [SwapXYZ] and [SwapW] write to the receiver and to the
    argument, which they get by reference: the two may be one object.  A
    memory maps the address of a [Vec4] to its lanes. *)
Definition Memory (A : Type) : Type := BinNums.Z -> quad A.
Definition store {A : Type} (mem : Memory A) (p : BinNums.Z) (v : quad A)
  : Memory A :=
  fun q => if q =? p then v else mem q.

(** inplace swap based on xors: the lanes are the bits of the registers *)
Definition SwapXYZW (mem : Memory BinNums.Z) (this with_ : BinNums.Z)
  : Memory BinNums.Z :=
  let mem := store mem this (_mm_xor_ps (mem this) (mem with_)) in
  let mem := store mem with_ (_mm_xor_ps (mem with_) (mem this)) in
  let mem := store mem this (_mm_xor_ps (mem this) (mem with_)) in
  mem.

Definition SwapXYZ (mem : Memory F32.float) (this with_ : BinNums.Z)
  : Memory F32.float :=
  (* [old W, old W, new Z, new Z] *)
  let u := _mm_shuffle_ps (mem this) (mem with_) (SQUISH_SSE_SHUF 3 3 2 2) in
  let v := _mm_shuffle_ps (mem with_) (mem this) (SQUISH_SSE_SHUF 3 3 2 2) in
  let w := mem this in
  (* [new X, new Y, new Z, old W] *)
  let mem :=
    store mem this (_mm_shuffle_ps (mem with_) u (SQUISH_SSE_SHUF 0 1 2 0)) in
  let mem :=
    store mem with_ (_mm_shuffle_ps w v (SQUISH_SSE_SHUF 0 1 2 0)) in
  mem.

Definition SwapW (mem : Memory F32.float) (this with_ : BinNums.Z)
  : Memory F32.float :=
  (* [old Z, old Z, new W, new W] *)
  let u := _mm_shuffle_ps (mem this) (mem with_) (SQUISH_SSE_SHUF 2 2 3 3) in
  let v := _mm_shuffle_ps (mem with_) (mem this) (SQUISH_SSE_SHUF 2 2 3 3) in
  (* [old X, old Y, old Z, new W] *)
  let mem :=
    store mem this (_mm_shuffle_ps (mem this) u (SQUISH_SSE_SHUF 0 1 0 2)) in
  let mem :=
    store mem with_ (_mm_shuffle_ps (mem with_) v (SQUISH_SSE_SHUF 0 1 0 2)) in
  mem.
End Vec4.

(** [LengthSquared( Vec4::Arg v )] *)
Definition LengthSquared (cfg : BuildConfig) (v : Vec4.t) : Vec4.t :=
  Vec4.Dot cfg v v.

(** ** maths.cpp: the symmetric eigen-solver *)

(** [Vec3] and [Sym3x3] are declared in maths.h: three floats, and the six
    floats of the upper triangle, read by [operator[]]. *)
Record Vec3 : Type := MkVec3 { v3x : F32.float; v3y : F32.float; v3z : F32.float }.

(** [explicit Vec3( float s )] *)
Definition Vec3_splat (s : F32.float) : Vec3 := MkVec3 s s s.

Record Sym3x3 : Type := MkSym3x3
  { m_x0 : F32.float; m_x1 : F32.float; m_x2 : F32.float;
    m_x3 : F32.float; m_x4 : F32.float; m_x5 : F32.float }.

Definition sym_at (m : Sym3x3) (i : Z) : F32.float :=
  if i =? 0 then m_x0 m
  else if i =? 1 then m_x1 m
  else if i =? 2 then m_x2 m
  else if i =? 3 then m_x3 m
  else if i =? 4 then m_x4 m
  else m_x5 m.

(** [smatrix[i]] is written [smatrix i]. *)
Coercion sym_at : Sym3x3 >-> Funclass.

Declare Scope f32_scope.
Delimit Scope f32_scope with f32.
Notation "x + y" := (F32.fadd x y) : f32_scope.
Notation "x - y" := (F32.fsub x y) : f32_scope.
Notation "x * y" := (F32.fmul x y) : f32_scope.
Notation "x / y" := (F32.fdiv x y) : f32_scope.
Notation "- x" := (F32.fneg x) : f32_scope.
Notation "x <? y" := (F32.flt x y) : f32_scope.
Notation "x >? y" := (F32.fgt x y) : f32_scope.

(** The float constants the solver spells out. *)
Definition f_third : F32.float := (F32.lit 1.0 / F32.lit 3.0)%f32.
Definition f_m2_27 : F32.float := (- F32.lit 2.0 / F32.lit 27.0)%f32.
Definition f_1_27 : F32.float := (F32.lit 1.0 / F32.lit 27.0)%f32.

(** [( float )sqrt( 3.0f )]: the square root is taken in double precision
    and then narrowed. *)
Definition narrow (x : spec_float) : F32.float :=
  match x with
  | S754_finite s m e => binary_round F32.prec F32.emax s m e
  | _ => x
  end.
Definition f_sqrt3 : F32.float :=
  narrow (SFsqrt 53 1024 (binary_normalize 53 1024 3 0 false)).

(** The index of the component largest in magnitude, the scan of both
    [GetMultiplicity1Evector] and [GetMultiplicity2Evector]:
    [[
      float mc = std::fabs( u[0] ); int mi = 0;
      for( int i = 1; i < 6; ++i ) {
        float c = std::fabs( u[i] );
        if( c > mc ) { mc = c; mi = i; }
      }
    ]] *)
Definition scan_step (u : Sym3x3) (acc : F32.float * Z) (i : Z)
  : F32.float * Z :=
  let '(mc, mi) := acc in
  let c := F32.fabs (sym_at u i) in
  if (c >? mc)%f32 then (c, i) else (mc, mi).

Definition largest_component (u : Sym3x3) : Z :=
  snd (fold_left (scan_step u) [1; 2; 3; 4; 5] (F32.fabs (sym_at u 0), 0)).

(** [M = smatrix - evalue * I] *)
Definition shift_matrix (smatrix : Sym3x3) (evalue : F32.float) : Sym3x3 :=
  MkSym3x3 (smatrix 0 - evalue)%f32 (smatrix 1) (smatrix 2)
           (smatrix 3 - evalue)%f32 (smatrix 4)
           (smatrix 5 - evalue)%f32.

Definition GetMultiplicity1Evector (smatrix : Sym3x3) (evalue : F32.float)
  : Vec3 :=
  (* compute M *)
  let m := shift_matrix smatrix evalue in
  (* compute U *)
  let u := (MkSym3x3
    (m 3 * m 5 - m 4 * m 4)
    (m 2 * m 4 - m 1 * m 5)
    (m 1 * m 4 - m 2 * m 3)
    (m 0 * m 5 - m 2 * m 2)
    (m 1 * m 2 - m 4 * m 0)
    (m 0 * m 3 - m 1 * m 1))%f32 in
  (* find the largest component *)
  let mi := largest_component u in
  (* pick the column with this component *)
  if mi =? 0 then MkVec3 (u 0) (u 1) (u 2)
  else if (mi =? 1) || (mi =? 3) then MkVec3 (u 1) (u 3) (u 4)
  else MkVec3 (u 2) (u 4) (u 5).

Definition GetMultiplicity2Evector (smatrix : Sym3x3) (evalue : F32.float)
  : Vec3 :=
  (* compute M *)
  let m := shift_matrix smatrix evalue in
  (* find the largest component *)
  let mi := largest_component m in
  (* pick the first eigenvector based on this index *)
  if (mi =? 0) || (mi =? 1) then
    MkVec3 (- m 1)%f32 (m 0) (F32.lit 0.0)
  else if mi =? 2 then
    MkVec3 (m 2) (F32.lit 0.0) (- m 0)%f32
  else if (mi =? 3) || (mi =? 4) then
    MkVec3 (F32.lit 0.0) (- m 4)%f32 (m 3)
  else
    MkVec3 (F32.lit 0.0) (- m 5)%f32 (m 4).


(** ** maths.cpp: the weighted covariance *)

(** [Sym3x3 ComputeWeightedCovariance(int n, Vec4 const* points,
    float const* weights)].  The arrays are lists; a read at an index the
    list does not have is outside the array, and the call has no result.
    The products are rounded to single precision before they are added. *)

(** The first loop:
    [[
      for (int i = 0; i < n; ++i) {
        total    += weights[i];
        centroid += weights[i] * points[i];
      }
    ]] *)
Fixpoint centroid_loop (points : list Vec4.t) (weights : list F32.float)
  (count i : nat) (total : F32.float) (centroid : Vec4.t)
  : option (F32.float * Vec4.t) :=
  match count with
  | O => Some (total, centroid)
  | S count' =>
      match nth_error weights i, nth_error points i with
      | Some w, Some p =>
          centroid_loop points weights count' (S i)
            (total + w)%f32 (Vec4.add centroid (Vec4.float_mul w p))
      | _, _ => None
      end
  end.

(** One pass of the second loop on the point [p] with weight [w]. *)
Definition covariance_step (centroid : Vec4.t) (covariance : Sym3x3)
  (p : Vec4.t) (w : F32.float) : Sym3x3 :=
  let a := Vec4.sub p centroid in
  let b := Vec4.float_mul w a in
  (MkSym3x3
     (covariance 0 + Vec4.X a * Vec4.X b)
     (covariance 1 + Vec4.X a * Vec4.Y b)
     (covariance 2 + Vec4.X a * Vec4.Z b)
     (covariance 3 + Vec4.Y a * Vec4.Y b)
     (covariance 4 + Vec4.Y a * Vec4.Z b)
     (covariance 5 + Vec4.Z a * Vec4.Z b))%f32.

Fixpoint covariance_loop (points : list Vec4.t) (weights : list F32.float)
  (centroid : Vec4.t) (count i : nat) (covariance : Sym3x3) : option Sym3x3 :=
  match count with
  | O => Some covariance
  | S count' =>
      match nth_error points i, nth_error weights i with
      | Some p, Some w =>
          covariance_loop points weights centroid count' (S i)
            (covariance_step centroid covariance p w)
      | _, _ => None
      end
  end.

(** [Sym3x3( float s )] *)
Definition Sym3x3_splat (s : F32.float) : Sym3x3 := MkSym3x3 s s s s s s.

Definition ComputeWeightedCovariance (hw : Machine) (n : Z)
  (points : list Vec4.t) (weights : list F32.float) : option Sym3x3 :=
  (* compute the centroid *)
  match centroid_loop points weights (Z.to_nat n) 0
          (F32.lit 0.0) (Vec4.of_float (F32.lit 0.0)) with
  | None => None
  | Some (total, centroid) =>
      let centroid := Vec4.div_float hw centroid total in
      (* accumulate the covariance smatrix *)
      covariance_loop points weights centroid (Z.to_nat n) 0
        (Sym3x3_splat (F32.lit 0.0))
  end.
(** [ComputePrincipleComponent], cut at its comments. *)

(** compute the cubic coefficients *)
Definition cubic_c0 (smatrix : Sym3x3) : F32.float :=
  (smatrix 0 * smatrix 3 * smatrix 5
   + F32.lit 2.0 * smatrix 1 * smatrix 2 * smatrix 4
   - smatrix 0 * smatrix 4 * smatrix 4
   - smatrix 3 * smatrix 2 * smatrix 2
   - smatrix 5 * smatrix 1 * smatrix 1)%f32.

Definition cubic_c1 (smatrix : Sym3x3) : F32.float :=
  (smatrix 0 * smatrix 3 + smatrix 0 * smatrix 5
   + smatrix 3 * smatrix 5
   - smatrix 1 * smatrix 1 - smatrix 2 * smatrix 2
   - smatrix 4 * smatrix 4)%f32.

Definition cubic_c2 (smatrix : Sym3x3) : F32.float :=
  (smatrix 0 + smatrix 3 + smatrix 5)%f32.

(** compute the quadratic coefficients *)
Definition quadratic_a (c1 c2 : F32.float) : F32.float :=
  (c1 - f_third * c2 * c2)%f32.

Definition quadratic_b (c0 c1 c2 : F32.float) : F32.float :=
  (f_m2_27 * c2 * c2 * c2 + f_third * c1 * c2 - c0)%f32.

(** compute the root count check *)
Definition root_check (a b : F32.float) : F32.float :=
  (F32.lit 0.25 * b * b + f_1_27 * a * a * a)%f32.

Definition discriminant (smatrix : Sym3x3) : F32.float :=
  let c0 := cubic_c0 smatrix in
  let c1 := cubic_c1 smatrix in
  let c2 := cubic_c2 smatrix in
  root_check (quadratic_a c1 c2) (quadratic_b c0 c1 c2).

(** test the multiplicity: which of the three arms of the [if] runs *)
Inductive Multiplicity : Type := OneRoot | ThreeRoots | TwoRoots.

Definition multiplicity (Q : F32.float) : Multiplicity :=
  if (F32.FLT_EPSILON <? Q)%f32 then OneRoot
  else if (Q <? - F32.FLT_EPSILON)%f32 then ThreeRoots
  else TwoRoots.

(** three distinct roots: [l1], [l2], [l3] *)
Definition three_roots (hw : Machine) (c2 b Q : F32.float)
  : F32.float * F32.float * F32.float :=
  let theta := atan2f hw (Vec4.sqrt (- Q)%f32) (- F32.lit 0.5 * b)%f32 in
  let rho := Vec4.sqrt (F32.lit 0.25 * b * b - Q)%f32 in
  let rt := Vec4.cbrt hw rho in
  let ct := cosf hw (theta / F32.lit 3.0)%f32 in
  let st := sinf hw (theta / F32.lit 3.0)%f32 in
  let l1 := (f_third * c2 + F32.lit 2.0 * rt * ct)%f32 in
  let l2 := (f_third * c2 - rt * (ct + f_sqrt3 * st))%f32 in
  let l3 := (f_third * c2 - rt * (ct - f_sqrt3 * st))%f32 in
  (l1, l2, l3).

(** pick the larger:
    [[
      if( std::fabs( l2 ) > std::fabs( l1 ) ) l1 = l2;
      if( std::fabs( l3 ) > std::fabs( l1 ) ) l1 = l3;
    ]] *)
Definition pick_larger (l1 l2 l3 : F32.float) : F32.float :=
  let l1 := if (F32.fabs l2 >? F32.fabs l1)%f32 then l2 else l1 in
  let l1 := if (F32.fabs l3 >? F32.fabs l1)%f32 then l3 else l1 in
  l1.

(** two roots: [l1] the repeated one, [l2] the other *)
Definition two_roots (hw : Machine) (c2 b : F32.float)
  : F32.float * F32.float :=
  let rt :=
    if (b <? F32.lit 0.0)%f32 then (- Vec4.cbrt hw (- F32.lit 0.5 * b))%f32
    else Vec4.cbrt hw (F32.lit 0.5 * b)%f32 in
  let l1 := (f_third * c2 + rt)%f32 in
  let l2 := (f_third * c2 - F32.lit 2.0 * rt)%f32 in
  (l1, l2).

(** [if( std::fabs( l1 ) > std::fabs( l2 ) )]: the repeated root wins *)
Definition repeated_wins (l1 l2 : F32.float) : bool :=
  (F32.fabs l1 >? F32.fabs l2)%f32.

Definition ComputePrincipleComponent (hw : Machine) (smatrix : Sym3x3) : Vec3 :=
  let c0 := cubic_c0 smatrix in
  let c1 := cubic_c1 smatrix in
  let c2 := cubic_c2 smatrix in
  let a := quadratic_a c1 c2 in
  let b := quadratic_b c0 c1 c2 in
  let Q := root_check a b in
  match multiplicity Q with
  | OneRoot =>
      (* only one root, which implies we have a multiple of the identity *)
      Vec3_splat (F32.lit 1.0)
  | ThreeRoots =>
      let '(l1, l2, l3) := three_roots hw c2 b Q in
      GetMultiplicity1Evector smatrix (pick_larger l1 l2 l3)
  | TwoRoots =>
      let '(l1, l2) := two_roots hw c2 b in
      if repeated_wins l1 l2 then GetMultiplicity2Evector smatrix l1
      else GetMultiplicity1Evector smatrix l2
  end.

(** ** maths.cpp: the gamma tables *)

Local Open Scope Q_scope.

(** sRGB spec *)
Definition basefpartition : F32.float := F32.lit 0.0031308.
Definition baseipartition : F32.float := F32.lit 0.004045.
Definition basefslope : F32.float := F32.fdiv (F32.lit 12.92) (F32.lit 1.0).
Definition baseislope : F32.float := F32.fdiv (F32.lit 1.0) (F32.lit 12.92).
Definition basefgamma : F32.float := F32.fdiv (F32.lit 2.4) (F32.lit 1.0).
Definition baseigamma : F32.float := F32.fdiv (F32.lit 1.0) (F32.lit 2.4).
Definition baseoffset : F32.float := F32.lit 0.055.

(** The initialisers of [baseLUT_sRGB] and [baseLUT_Linear], as written. *)
Definition baseLUT_sRGB_init : list Q := [
   0.0; 0.000303527; 0.00114819; 0.00132772; 0.00152264; 0.00173331; 0.00196007; 0.00220325;
   0.00246318; 0.00274017; 0.00303452; 0.00334654; 0.00367651; 0.00402472; 0.00439144; 0.00477695;
   0.00518152; 0.00560539; 0.00604883; 0.00651209; 0.00699541; 0.00749903; 0.00802319; 0.00856813;
   0.00913406; 0.00972122; 0.0103298; 0.0109601; 0.0116122; 0.0122865; 0.012983; 0.0137021;
   0.0144438; 0.0152085; 0.0159963; 0.0168074; 0.017642; 0.0185002; 0.0193824; 0.0202886;
   0.021219; 0.0221739; 0.0231534; 0.0241576; 0.0251869; 0.0262412; 0.0273209; 0.028426;
   0.0295568; 0.0307134; 0.031896; 0.0331048; 0.0343398; 0.0356013; 0.0368894; 0.0382044;
   0.0395462; 0.0409152; 0.0423114; 0.043735; 0.0451862; 0.0466651; 0.0481718; 0.0497066;
   0.0512695; 0.0528606; 0.0544803; 0.0561285; 0.0578054; 0.0595112; 0.0612461; 0.06301;
   0.0648033; 0.0666259; 0.0684782; 0.0703601; 0.0722719; 0.0742136; 0.0761854; 0.0781874;
   0.0802198; 0.0822827; 0.0843762; 0.0865005; 0.0886556; 0.0908417; 0.093059; 0.0953075;
   0.0975873; 0.0998987; 0.102242; 0.104616; 0.107023; 0.109462; 0.111932; 0.114435;
   0.116971; 0.119538; 0.122139; 0.124772; 0.127438; 0.130136; 0.132868; 0.135633;
   0.138432; 0.141263; 0.144128; 0.147027; 0.14996; 0.152926; 0.155926; 0.158961;
   0.162029; 0.165132; 0.168269; 0.171441; 0.174647; 0.177888; 0.181164; 0.184475;
   0.187821; 0.191202; 0.194618; 0.198069; 0.201556; 0.205079; 0.208637; 0.212231;
   0.215861; 0.219526; 0.223228; 0.226966; 0.23074; 0.234551; 0.238398; 0.242281;
   0.246201; 0.250158; 0.254152; 0.258183; 0.262251; 0.266356; 0.270498; 0.274677;
   0.278894; 0.283149; 0.287441; 0.291771; 0.296138; 0.300544; 0.304987; 0.309469;
   0.313989; 0.318547; 0.323143; 0.327778; 0.332452; 0.337164; 0.341914; 0.346704;
   0.351533; 0.3564; 0.361307; 0.366253; 0.371238; 0.376262; 0.381326; 0.386429;
   0.391572; 0.396755; 0.401978; 0.40724; 0.412543; 0.417885; 0.423268; 0.42869;
   0.434154; 0.439657; 0.445201; 0.450786; 0.456411; 0.462077; 0.467784; 0.473531;
   0.47932; 0.48515; 0.491021; 0.496933; 0.502886; 0.508881; 0.514918; 0.520996;
   0.527115; 0.533276; 0.539479; 0.545724; 0.552011; 0.55834; 0.564712; 0.571125;
   0.57758; 0.584078; 0.590619; 0.597202; 0.603827; 0.610496; 0.617207; 0.62396;
   0.630757; 0.637597; 0.64448; 0.651406; 0.658375; 0.665387; 0.672443; 0.679542;
   0.686685; 0.693872; 0.701102; 0.708376; 0.715693; 0.723055; 0.730461; 0.73791;
   0.745404; 0.752942; 0.760525; 0.768151; 0.775822; 0.783538; 0.791298; 0.799103;
   0.806952; 0.814847; 0.822786; 0.83077; 0.838799; 0.846873; 0.854993; 0.863157;
   0.871367; 0.879622; 0.887923; 0.896269; 0.904661; 0.913099; 0.921582; 0.930111;
   0.938686; 0.947307; 0.955973; 0.964686; 0.973445; 0.982251; 0.991102; 1.0].

Definition baseLUT_Linear_init : list Q := [
   0.0; 0.00392157; 0.00784314; 0.0117647; 0.0156863; 0.0196078; 0.0235294; 0.027451;
   0.0313726; 0.0352941; 0.0392157; 0.0431373; 0.0470588; 0.0509804; 0.054902; 0.0588235;
   0.0627451; 0.0666667; 0.0705882; 0.0745098; 0.0784314; 0.0823529; 0.0862745; 0.0901961;
   0.0941176; 0.0980392; 0.101961; 0.105882; 0.109804; 0.113725; 0.117647; 0.121569;
   0.12549; 0.129412; 0.133333; 0.137255; 0.141176; 0.145098; 0.14902; 0.152941;
   0.156863; 0.160784; 0.164706; 0.168627; 0.172549; 0.176471; 0.180392; 0.184314;
   0.188235; 0.192157; 0.196078; 0.2; 0.203922; 0.207843; 0.211765; 0.215686;
   0.219608; 0.223529; 0.227451; 0.231373; 0.235294; 0.239216; 0.243137; 0.247059;
   0.25098; 0.254902; 0.258824; 0.262745; 0.266667; 0.270588; 0.27451; 0.278431;
   0.282353; 0.286275; 0.290196; 0.294118; 0.298039; 0.301961; 0.305882; 0.309804;
   0.313726; 0.317647; 0.321569; 0.32549; 0.329412; 0.333333; 0.337255; 0.341176;
   0.345098; 0.34902; 0.352941; 0.356863; 0.360784; 0.364706; 0.368627; 0.372549;
   0.376471; 0.380392; 0.384314; 0.388235; 0.392157; 0.396078; 0.4; 0.403922;
   0.407843; 0.411765; 0.415686; 0.419608; 0.423529; 0.427451; 0.431373; 0.435294;
   0.439216; 0.443137; 0.447059; 0.45098; 0.454902; 0.458824; 0.462745; 0.466667;
   0.470588; 0.47451; 0.478431; 0.482353; 0.486275; 0.490196; 0.494118; 0.498039;
   0.501961; 0.505882; 0.509804; 0.513726; 0.517647; 0.521569; 0.52549; 0.529412;
   0.533333; 0.537255; 0.541176; 0.545098; 0.54902; 0.552941; 0.556863; 0.560784;
   0.564706; 0.568627; 0.572549; 0.576471; 0.580392; 0.584314; 0.588235; 0.592157;
   0.596078; 0.6; 0.603922; 0.607843; 0.611765; 0.615686; 0.619608; 0.623529;
   0.627451; 0.631373; 0.635294; 0.639216; 0.643137; 0.647059; 0.65098; 0.654902;
   0.658824; 0.662745; 0.666667; 0.670588; 0.67451; 0.678431; 0.682353; 0.686275;
   0.690196; 0.694118; 0.698039; 0.701961; 0.705882; 0.709804; 0.713726; 0.717647;
   0.721569; 0.72549; 0.729412; 0.733333; 0.737255; 0.741176; 0.745098; 0.74902;
   0.752941; 0.756863; 0.760784; 0.764706; 0.768627; 0.772549; 0.776471; 0.780392;
   0.784314; 0.788235; 0.792157; 0.796078; 0.8; 0.803922; 0.807843; 0.811765;
   0.815686; 0.819608; 0.823529; 0.827451; 0.831373; 0.835294; 0.839216; 0.843137;
   0.847059; 0.85098; 0.854902; 0.858824; 0.862745; 0.866667; 0.870588; 0.87451;
   0.878431; 0.882353; 0.886275; 0.890196; 0.894118; 0.898039; 0.901961; 0.905882;
   0.909804; 0.913725; 0.917647; 0.921569; 0.92549; 0.929412; 0.933333; 0.937255;
   0.941176; 0.945098; 0.94902; 0.952941; 0.956863; 0.960784; 0.964706; 0.968627;
   0.972549; 0.976471; 0.980392; 0.984314; 0.988235; 0.992157; 0.996078; 1.0].

Local Close Scope Q_scope.

Definition baseLUT_sRGB : list F32.float := map F32.lit baseLUT_sRGB_init.
Definition baseLUT_Linear : list F32.float := map F32.lit baseLUT_Linear_init.

Definition ComputeGammaLUT (sRGB : bool) : list F32.float :=
  if sRGB then baseLUT_sRGB else baseLUT_Linear.

(** [eLUT[i]] for an [u8] index *)
Definition lut_at (eLUT : list F32.float) (i : Z) : F32.float :=
  nth (Z.to_nat i) eLUT (S754_zero false).

(** ** singlepalettefit.cpp: the data *)

(** A call either returns, or ends the process in [abort()], or reads
    through a null table pointer. *)
Inductive outcome (A : Type) : Type :=
  | Returned (a : A)
  | Aborted
  | Faulted.

Arguments Returned {A} a.
Arguments Aborted {A}.
Arguments Faulted {A}.

(** [struct SP_SourceBlock { u8 start; u8 end; u8 error; }] *)
Record SP_SourceBlock : Type := MkSource
  { sp_start : Z; sp_end : Z; sp_error : Z }.

(** [SinglePaletteLookup2], [..4], [..8] hold [sources[2]], [[4]], [[8]]:
    a lookup maps the codebook index to its source block, and a table
    [sp_lookup_*] maps the 8-bit target to its lookup.  The tables
    themselves come from singlepalettelookup.inl. *)
Definition SinglePaletteLookup : Type := Z -> SP_SourceBlock.
Definition LookupTable : Type := Z -> SinglePaletteLookup.

(** A table pointer; [None] is [NULL]. *)
Definition LookupPtr : Type := option LookupTable.

Record LookupInl : Type := MkLookupInl
  { sp_lookup_5_4 : LookupTable;
    sp_lookup_6_4 : LookupTable;
    sp_lookup_7_4 : LookupTable;
    sp_lookup_8_4 : LookupTable;
    sp_lookup_5_8 : LookupTable;
    sp_lookup_6_8 : LookupTable;
    sp_lookup_7_8 : LookupTable;
    sp_lookup_8_16 : LookupTable;
    sp_lookup_5u1_4 : Z -> LookupTable;
    sp_lookup_7u1_4 : Z -> LookupTable;
    sp_lookup_4u1_8 : Z -> LookupTable;
    sp_lookup_6s1_8 : Z -> LookupTable;
    sp_lookup_7u1_16 : Z -> LookupTable;
    (* the macro [SK] and the constant [SBEND] the shared-bit builds use *)
    SK : Z -> bool;
    SBEND : Z }.

(** [class vQuantizer]: the two members the fitter touches. *)
Record vQuantizer : Type := MkQuantizer
  { gridinv : Col4.t;
    LookUpLattice : Z -> Z -> Z -> Z -> Vec4.t }.

(** [class PaletteSet]: [GetPoints(set)] points at the single entry of the
    set; the field is the [Vec4] it points at. *)
Record PaletteSet : Type := MkPaletteSet
  { GetPoints : Z -> Vec4.t }.

(** Modelled from the spec: the type [Scr4] is declared outside the three
    files.  It is "a scalar squared-error accumulator maintained in a 4-lane
    vector", of which "only the first lane is semantically meaningful": a
    [Vec4] whose [<] and [>] compare the first lanes, with
    [CompareFirstLessThan] and [CompareFirstGreaterThan]. *)
Definition Scr4 : Type := Vec4.t.
Definition Scr4_of_float (s : F32.float) : Scr4 := Vec4.of_float s.
Definition Scr4_of_int (s : Z) : Scr4 := Vec4.of_int s.
Definition Scr4_operator_lt (cfg : BuildConfig) (left right : Scr4) : bool :=
  Vec4.CompareFirstLessThan cfg left right.
Definition Scr4_gt (left right : Scr4) : bool :=
  Vec4.CompareFirstGreaterThan left right.

(** The fitter object: what the constructor receives and hands to
    [PaletteFit], and the members [ComputeEndPoints] reads and writes.
    [m_entry[set]] is [u8[4]]; [GetSharedBits] is the value the inherited
    method of that name returns. *)
Record SinglePaletteFit : Type := MkFit
  { m_palette : PaletteSet;
    m_flags : Z;
    m_swap : Z;
    GetSharedBits : Z;
    m_entry : Z -> quad Z;
    m_start : Z -> Vec4.t;
    m_end : Z -> Vec4.t;
    m_index : Z }.

(** [SinglePaletteFit::SinglePaletteFit(palette, flags, swap, shared)] on an
    object whose other members hold [old]. *)
Definition SinglePaletteFit_ctor (old : SinglePaletteFit)
  (palette : PaletteSet) (flags swap shared : Z) : SinglePaletteFit :=
  MkFit palette flags swap shared
        (m_entry old) (m_start old) (m_end old) (m_index old).

Definition upd {A : Type} (f : Z -> A) (i : Z) (x : A) : Z -> A :=
  fun j => if j =? i then x else f j.

(** The four bytes of an [int] in memory (little-endian). *)
Definition int_bytes (loc : Z) : quad Z :=
  let w := SSE.wrap32 loc in
  Quad (SSE.byte_of 0 w) (SSE.byte_of 1 w) (SSE.byte_of 2 w) (SSE.byte_of 3 w).

(** ** singlepalettefit.cpp: the three table-driven overloads *)

(** The channel loop of one codebook index:
    [[
      SP_SourceBlock const* sources[4] = {NULL};
      Vec4 cerror(0.0f);
      for (int channel = 0; channel < 4; ++channel) {
        if (cmask & (1 << channel)) {
          SinglePaletteLookupN const* lookup = lookups[channel];
          int target = m_entry[set][channel];
          sources[channel] = lookup[target].sources + index;
          cerror.GetO(channel) = eLUT[sources[channel]->error];
        }
      }
    ]] *)
Definition Sources : Type := quad (option SP_SourceBlock).

Definition channel_body (eLUT : list F32.float) (lookups : quad LookupPtr)
  (entry : quad Z) (cmask index : Z) (channel : Z)
  (st : Sources * Vec4.t) : outcome (Sources * Vec4.t) :=
  let '(sources, cerror) := st in
  (* skip if it's completely irrelevant what's in a specific channel *)
  if negb (Z.land cmask (Z.shiftl 1 channel) =? 0) then
    (* grab the lookup table and index for this channel *)
    match lane channel lookups with
    | None => Faulted
    | Some lookup =>
        let target := lane channel entry in
        (* store a pointer to the source for this channel *)
        let source := lookup target index in
        (* accumulate the error *)
        Returned (set_lane channel (Some source) sources,
                  Vec4.SetO cerror channel (lut_at eLUT (sp_error source)))
    end
  else Returned st.

Fixpoint channel_loop (eLUT : list F32.float) (lookups : quad LookupPtr)
  (entry : quad Z) (cmask index : Z) (channels : list Z)
  (st : Sources * Vec4.t) : outcome (Sources * Vec4.t) :=
  match channels with
  | [] => Returned st
  | channel :: rest =>
      match channel_body eLUT lookups entry cmask index channel st with
      | Returned st' => channel_loop eLUT lookups entry cmask index rest st'
      | Aborted => Aborted
      | Faulted => Faulted
      end
  end.

Definition slot_sources (eLUT : list F32.float) (lookups : quad LookupPtr)
  (entry : quad Z) (cmask index : Z) : outcome (Sources * Vec4.t) :=
  channel_loop eLUT lookups entry cmask index [0; 1; 2; 3]
               (splat None, Vec4.of_float (F32.lit 0.0)).

(** [sources[c] ? sources[c]->start : dflt] and the same for [end] *)
Definition start_or (s : option SP_SourceBlock) (dflt : Z) : Z :=
  match s with Some b => sp_start b | None => dflt end.
Definition end_or (s : option SP_SourceBlock) (dflt : Z) : Z :=
  match s with Some b => sp_end b | None => dflt end.

(** The four arguments of each [q.LookUpLattice] call. *)
Definition start_bytes (sources : Sources) (AxFF : Z) : quad Z :=
  Quad (start_or (lane0 sources) 0) (start_or (lane1 sources) 0)
       (start_or (lane2 sources) 0) (start_or (lane3 sources) AxFF).
Definition end_bytes (sources : Sources) (AxFF : Z) : quad Z :=
  Quad (end_or (lane0 sources) 0) (end_or (lane1 sources) 0)
       (end_or (lane2 sources) 0) (end_or (lane3 sources) AxFF).

Definition lattice (q : vQuantizer) (b : quad Z) : Vec4.t :=
  LookUpLattice q (lane0 b) (lane1 b) (lane2 b) (lane3 b).

(** The body of [if (error < besterror)] up to the early out. *)
Definition keep (q : vQuantizer) (set index AxFF : Z) (sources : Sources)
  (fit : SinglePaletteFit) : SinglePaletteFit :=
  MkFit (m_palette fit) (m_flags fit) (m_swap fit) (GetSharedBits fit)
        (m_entry fit)
        (upd (m_start fit) set (lattice q (start_bytes sources AxFF)))
        (upd (m_end fit) set (lattice q (end_bytes sources AxFF)))
        (* m_index = (u8)(1 * index) *)
        ((1 * index) mod 256).

(** [for (int index = ...; index < k; ++index)], [fuel] iterations left. *)
Fixpoint index_loop (cfg : BuildConfig) (eLUT : list F32.float)
  (metric : Vec4.t) (q : vQuantizer) (lookups : quad LookupPtr)
  (cmask set AxFF : Z) (fuel : nat) (index : Z)
  (besterror : Scr4) (fit : SinglePaletteFit)
  : outcome (Scr4 * SinglePaletteFit) :=
  match fuel with
  | O => Returned (besterror, fit)
  | S fuel' =>
      (* check the error for this codebook index *)
      match slot_sources eLUT lookups (m_entry fit set) cmask index with
      | Returned (sources, cerror) =>
          (* calculate the error *)
          let error := LengthSquared cfg (Vec4.mul metric cerror) in
          (* keep it if the error is lower *)
          if Scr4_operator_lt cfg error besterror then
            let besterror := error in
            let fit := keep q set index AxFF sources fit in
            (* early out *)
            if negb (Scr4_gt besterror (Scr4_of_float (F32.lit 0.0))) then
              Returned (besterror, fit)
            else
              index_loop cfg eLUT metric q lookups cmask set AxFF
                         fuel' (index + 1) besterror fit
          else
            index_loop cfg eLUT metric q lookups cmask set AxFF
                       fuel' (index + 1) besterror fit
      | Aborted => Aborted
      | Faulted => Faulted
      end
  end.

(** The text the three overloads share; [k] is the bound of the index loop.
    The [assert]s on [m_entry] are compiled out (NDEBUG). *)
Definition ComputeEndPoints_lookups (k : nat) (cfg : BuildConfig)
  (fit : SinglePaletteFit) (set : Z) (metric : Vec4.t) (q : vQuantizer)
  (lookups : quad LookupPtr) (cmask : Z)
  : outcome (Scr4 * SinglePaletteFit) :=
  (* check each index combination (endpoint or intermediate) *)
  let besterror := Scr4_of_float F32.FLT_MAX in
  (* grab the single entry *)
  let values := GetPoints (m_palette fit) set in
  let eLUT := ComputeGammaLUT false in
  let AxFF := Col4.A (gridinv q) - 1 in
  (* values are directly out of the codebook and
     natural numbers / 255, no need to round *)
  let loc :=
    Col4.PackBytes
      (Vec4.FloatToInt true (Vec4.mul values (Vec4.of_float (F32.lit 255.0)))) in
  let fit :=
    MkFit (m_palette fit) (m_flags fit) (m_swap fit) (GetSharedBits fit)
          (upd (m_entry fit) set (int_bytes loc))
          (m_start fit) (m_end fit) (m_index fit) in
  index_loop cfg eLUT metric q lookups cmask set AxFF k 0 besterror fit.

(** [SinglePaletteLookup2 const* const* lookups]: [index < 2] *)
Definition ComputeEndPoints2 := ComputeEndPoints_lookups 2.
(** [SinglePaletteLookup4 const* const* lookups]: [index < 4] *)
Definition ComputeEndPoints4 := ComputeEndPoints_lookups 4.
(** [SinglePaletteLookup8 const* const* lookups]: [index < 8] *)
Definition ComputeEndPoints8 := ComputeEndPoints_lookups 8.

(** ** singlepalettefit.cpp: the format dispatcher *)

(** merge start and end shared bits:
    [sb = (sb & 1) | ((sb >> (SBEND - 1)) & 2)] *)
Definition merge_shared_bits (inl : LookupInl) (sb : Z) : Z :=
  Z.lor (Z.land sb 1) (Z.land (Z.shiftr sb (SBEND inl - 1)) 2).

(** The table macros [sp_lookup_*_sb_] and [sp_lookup_*_ck_], which the three
    arms of [#if !defined(FEATURE_SHAREDBITS_TRIALS) / #elif (... == 0) /
    #else] define differently. *)
Definition select_sb (cfg : BuildConfig) (inl : LookupInl) (sb : Z)
  (plain : LookupTable) (shared : LookupTable) : LookupTable :=
  match FEATURE_SHAREDBITS_TRIALS cfg with
  | None => plain
  | Some v =>
      if v =? 0 then
        (* allow bailout if whole == -1 *)
        (if SK inl sb then plain else shared)
      else
        (* no bailouts happen here *)
        shared
  end.

Definition sp_lookup_5u1_4_sb_ (cfg : BuildConfig) (inl : LookupInl) (sb : Z)
  : LookupTable :=
  select_sb cfg inl sb (sp_lookup_6_4 inl) (sp_lookup_5u1_4 inl sb).
Definition sp_lookup_7u1_4_sb_ (cfg : BuildConfig) (inl : LookupInl) (sb : Z)
  : LookupTable :=
  select_sb cfg inl sb (sp_lookup_8_4 inl) (sp_lookup_7u1_4 inl sb).
Definition sp_lookup_4u1_8_sb_ (cfg : BuildConfig) (inl : LookupInl) (sb : Z)
  : LookupTable :=
  select_sb cfg inl sb (sp_lookup_5_8 inl) (sp_lookup_4u1_8 inl sb).
Definition sp_lookup_6s1_8_sb_ (cfg : BuildConfig) (inl : LookupInl) (sb : Z)
  : LookupTable :=
  select_sb cfg inl sb (sp_lookup_7_8 inl) (sp_lookup_6s1_8 inl (Z.land sb 1)).
Definition sp_lookup_7u1_16_sb_ (cfg : BuildConfig) (inl : LookupInl) (sb : Z)
  : LookupTable :=
  select_sb cfg inl sb (sp_lookup_8_16 inl) (sp_lookup_7u1_16 inl sb).

Definition select_ck (cfg : BuildConfig) (fit : SinglePaletteFit)
  (plain : LookupTable) (sb_ : LookupTable) : LookupTable :=
  match FEATURE_SHAREDBITS_TRIALS cfg with
  | None => plain
  | Some _ => if negb (GetSharedBits fit =? 0) then sb_ else plain
  end.

Definition sp_lookup_5u1_4_ck_ (cfg : BuildConfig) (inl : LookupInl)
  (fit : SinglePaletteFit) (sb : Z) : LookupTable :=
  select_ck cfg fit (sp_lookup_6_4 inl) (sp_lookup_5u1_4_sb_ cfg inl sb).
Definition sp_lookup_4u1_8_ck_ (cfg : BuildConfig) (inl : LookupInl)
  (fit : SinglePaletteFit) (sb : Z) : LookupTable :=
  select_ck cfg fit (sp_lookup_5_8 inl) (sp_lookup_4u1_8_sb_ cfg inl sb).

(** The [switch (cb)] and [switch (ab)] of each arm: the colour table, or
    [None] where the switch runs into [abort()]; the alpha table pointer. *)
Definition colour_table_2 (cfg : BuildConfig) (inl : LookupInl) (sb cb : Z)
  : option LookupTable :=
  if cb =? 5 then Some (sp_lookup_5_4 inl)
  else if cb =? 6 then Some (sp_lookup_5u1_4_sb_ cfg inl sb)
  else if cb =? 7 then Some (sp_lookup_7_4 inl)
  else if cb =? 8 then Some (sp_lookup_7u1_4_sb_ cfg inl sb)
  else None.

Definition alpha_table_2 (cfg : BuildConfig) (inl : LookupInl)
  (fit : SinglePaletteFit) (sb ab : Z) : LookupPtr :=
  if ab =? 6 then Some (sp_lookup_5u1_4_ck_ cfg inl fit sb)
  else if ab =? 8 then Some (sp_lookup_8_4 inl)
  else None.

Definition colour_table_3 (cfg : BuildConfig) (inl : LookupInl)
  (fit : SinglePaletteFit) (sb cb : Z) : option LookupTable :=
  if cb =? 5 then Some (sp_lookup_4u1_8_ck_ cfg inl fit sb)
  else if cb =? 7 then Some (sp_lookup_6s1_8_sb_ cfg inl sb)
  else None.

Definition alpha_table_3 (inl : LookupInl) (ab : Z) : LookupPtr :=
  if ab =? 6 then Some (sp_lookup_6_8 inl) else None.

Definition colour_table_4 (cfg : BuildConfig) (inl : LookupInl) (sb cb : Z)
  : option LookupTable :=
  if cb =? 8 then Some (sp_lookup_7u1_16_sb_ cfg inl sb) else None.

Definition alpha_table_4 (cfg : BuildConfig) (inl : LookupInl) (sb ab : Z)
  : option LookupTable :=
  if ab =? 8 then Some (sp_lookup_7u1_16_sb_ cfg inl sb) else None.

(** [ComputeEndPoints(set, metric, q, cb, ab, sb, ib, cmask)].  [assume] is
    an optimiser hint and does nothing at run time. *)
Definition ComputeEndPoints (cfg : BuildConfig) (inl : LookupInl)
  (fit : SinglePaletteFit) (set : Z) (metric : Vec4.t) (q : vQuantizer)
  (cb ab sb ib : Z) (cmask : Z) : outcome (Scr4 * SinglePaletteFit) :=
  let sb :=
    match FEATURE_SHAREDBITS_TRIALS cfg with
    | None => sb
    | Some _ => merge_shared_bits inl sb
    end in
  if ib =? 2 then
    match colour_table_2 cfg inl sb cb with
    | None => Aborted
    | Some cl =>
        let al := alpha_table_2 cfg inl fit sb ab in
        let lookups := Quad (Some cl) (Some cl) (Some cl) al in
        ComputeEndPoints2 cfg fit set metric q lookups cmask
    end
  else if ib =? 3 then
    match colour_table_3 cfg inl fit sb cb with
    | None => Aborted
    | Some cl =>
        let al := alpha_table_3 inl ab in
        let lookups := Quad (Some cl) (Some cl) (Some cl) al in
        ComputeEndPoints4 cfg fit set metric q lookups cmask
    end
  else if ib =? 4 then
    match colour_table_4 cfg inl sb cb with
    | None => Aborted
    | Some cl =>
        match alpha_table_4 cfg inl sb ab with
        | None => Aborted
        | Some al =>
            let lookups := Quad (Some cl) (Some cl) (Some cl) (Some al) in
            ComputeEndPoints8 cfg fit set metric q lookups cmask
        end
    end
  else
    Returned (Scr4_of_int F32.INT_MAX, fit).

(** ** Concrete inputs, used to run the definitions *)

Module Sample.

(** An SSE2 build without the shared-bit trials, whose [_mm_comilt_ss]
    answers 0 on an unordered pair; the same compiled by g++; and the SSE3
    build. *)
Definition cfg : BuildConfig := MkBuildConfig 2 0 None false.
Definition gxx : BuildConfig := MkBuildConfig 2 0 None true.
Definition sse3 : BuildConfig := MkBuildConfig 3 0 None false.

(** SSE4a instructions that are never run in this build. *)
Definition sse4a : SSE4a :=
  MkSSE4a (fun a _ _ _ => a) (fun a _ => a) (fun a _ _ => a) (fun a _ => a).

(** Col4 values with small lanes, and one whose lane product reaches 2^16. *)
Definition col_a : Col4.t := Col4.make 3 5 7 9.
Definition col_b : Col4.t := Col4.make 2 4 6 8.
Definition col_c : Col4.t := Col4.make 1 1 1 1.
Definition col_256 : Col4.t := Col4.of_int 256.

(** A machine whose reciprocal estimate is the correctly rounded quotient
    and whose <cmath> functions are constant: enough to run the solver. *)
Definition machine : Machine :=
  MkMachine (fun x => F32.fdiv (F32.lit 1.0) x)
            (fun _ _ => F32.lit 1.0) (fun _ => F32.lit 0.5)
            (fun _ => F32.lit 0.86).

(** 100 times the identity; the matrix with eigenvalues 4, 3, 1 and
    eigenvector (1,1,1); the identity. *)
Definition diag (t : F32.float) : Sym3x3 :=
  MkSym3x3 t (F32.lit 0.0) (F32.lit 0.0) t (F32.lit 0.0) t.
Definition hundred : Sym3x3 := diag (F32.lit 100.0).
Definition identity : Sym3x3 := diag (F32.lit 1.0).
Definition spread : Sym3x3 :=
  MkSym3x3 (F32.lit 2.0) (F32.lit 1.0) (F32.lit 1.0)
           (F32.lit 3.0) (F32.lit 0.0) (F32.lit 3.0).

(** The diagonal matrix (1e7, 5e6, 0), whose discriminant overflows. *)
Definition stretched : Sym3x3 :=
  MkSym3x3 (F32.lit 1e7) (F32.lit 0.0) (F32.lit 0.0)
           (F32.lit 5e6) (F32.lit 0.0) (F32.lit 0.0).

(** The diagonal matrix (1e13, 1e13, 1e13), whose discriminant is a NaN. *)
Definition swollen : Sym3x3 := diag (F32.lit 1e13).

(** A covariance matrix with eigenvalues 2.5, 1 and 0.5 whose principal
    axis is (1,1,1): the cofactors of [covariance - 2.5 I] are all 1. *)
Definition covariance : Sym3x3 :=
  MkSym3x3 (F32.lit 1.5) (F32.lit 0.5) (F32.lit 0.5)
           (F32.lit 1.25) (F32.lit 0.75) (F32.lit 1.25).

(** A function known at one argument, given by bit patterns. *)
Definition tabulated (arg value : Z) (otherwise : F32.float -> F32.float)
  (x : F32.float) : F32.float :=
  if F32.bits_of x =? arg then F32.of_bits value else otherwise x.

(** An x86-64 processor with glibc 2.36, at the arguments the solver meets
    on [covariance]: RCPSS(0x3fa8445c) = 0x3f42b800, and
    atan2f(0x3e13cd49, 0x3e25ed00) = 0x3f3a4a14,
    cosf(0x3e7862c5) = 0x3f788173, sinf(0x3e7862c5) = 0x3e75f50e,
    which are also the correctly rounded values of atan2, cos and sin. *)
Definition x86_glibc : Machine :=
  MkMachine
    (tabulated 0x3fa8445c 0x3f42b800 (fun x => F32.fdiv (F32.lit 1.0) x))
    (fun y x =>
       if (F32.bits_of y =? 0x3e13cd49) && (F32.bits_of x =? 0x3e25ed00)
       then F32.of_bits 0x3f3a4a14 else F32.lit 0.0)
    (tabulated 0x3e7862c5 0x3f788173 (fun _ => F32.lit 1.0))
    (tabulated 0x3e7862c5 0x3e75f50e (fun _ => F32.lit 0.0)).

(** A quantizer with an 8-bit alpha grid that hands the bytes on as floats. *)
Definition quantizer : vQuantizer :=
  MkQuantizer (Col4.of_int 256)
              (fun r g b a =>
                 Vec4.make (F32.of_int r) (F32.of_int g)
                           (F32.of_int b) (F32.of_int a)).

(** A table whose every source block is [(start, end, error)]. *)
Definition table (s e err : Z) : LookupTable := fun _ _ => MkSource s e err.

(** A table with error 0 at codebook index 1 and error 2 elsewhere. *)
Definition table_index1 : LookupTable :=
  fun _ index => if index =? 1 then MkSource 10 20 0 else MkSource 30 40 2.

Definition inl : LookupInl :=
  MkLookupInl (table 1 2 0) (table 1 2 0) (table 1 2 0) (table 1 2 0)
              (table 1 2 0) (table 1 2 0) (table 1 2 0) (table 1 2 0)
              (fun _ => table 1 2 0) (fun _ => table 1 2 0)
              (fun _ => table 1 2 0) (fun _ => table 1 2 0)
              (fun _ => table 1 2 0)
              (fun sb => sb <? 0) 2.

(** One opaque mid-grey entry. *)
Definition palette : PaletteSet :=
  MkPaletteSet
    (fun _ => Vec4.make (F32.lit 0.5) (F32.lit 0.5) (F32.lit 0.5) (F32.lit 1.0)).

(** A fitter built with the flags word [flags] whose [m_index] holds
    [index] from earlier work. *)
Definition fit (flags index : Z) : SinglePaletteFit :=
  MkFit palette flags 0 0
        (fun _ => splat 0)
        (fun _ => Vec4.of_float (F32.lit 0.0))
        (fun _ => Vec4.of_float (F32.lit 0.0))
        index.

(** The unit metric, and one whose squares leave the binary32 range. *)
Definition metric_one : Vec4.t := Vec4.of_float (F32.lit 1.0).
Definition metric_huge : Vec4.t := Vec4.of_float (F32.lit 1e20).

(** The unit metric with the weight +infinity on alpha. *)
Definition metric_inf_alpha : Vec4.t :=
  Vec4.make (F32.lit 1.0) (F32.lit 1.0) (F32.lit 1.0) (S754_infinity false).

(** The weights 1, 1 + 2^-23 and 1.25 * 2^-12, whose squares 1, 1 + 2^-22
    and 1.5625 * 2^-24 add up to 2 + 2^-22 as (x + y) + z and to 2 + 2^-21
    as (x + z) + y. *)
Definition metric_order : Vec4.t :=
  Vec4.make (F32.lit 1.0) (F32.lit 1.00000011920928955078125)
            (F32.lit 0.00030517578125) (F32.lit 1.0).

(** A table with the error [err] at codebook index 0 and error 0 elsewhere. *)
Definition table_first (err : Z) : LookupTable :=
  fun _ index => if index =? 0 then MkSource 10 20 err else MkSource 30 40 0.

(** Errors (255, 255, 255) at index 0 and (255, 255, 0) at index 1; the
    alpha pointer is null. *)
Definition lookups_order : quad LookupPtr :=
  Quad (Some (table 1 2 255)) (Some (table 1 2 255)) (Some (table_first 255))
       None.

(** Colour tables only; the alpha pointer is null. *)
Definition lookups_rgb (t : LookupTable) : quad LookupPtr :=
  Quad (Some t) (Some t) (Some t) None.

End Sample.

(** ** Vocabulary of the statements about Col4 *)

(** All four lanes hold a 16-bit value. *)
Definition lanes16 (v : Col4.t) : Prop :=
  0 <= lane0 v < 2 ^ 16 /\ 0 <= lane1 v < 2 ^ 16 /\
  0 <= lane2 v < 2 ^ 16 /\ 0 <= lane3 v < 2 ^ 16.

(** The exact per-lane products, and the same reduced modulo 2^16. *)
Definition lane_products (a b : Col4.t) : Col4.t := map2 Z.mul a b.
Definition lane_products16 (a b : Col4.t) : Col4.t :=
  map2 (fun x y => (x * y) mod 2 ^ 16) a b.

(** ** Vocabulary of the statements about the fitter *)

(** [a < b] and [a <= b] on the first lanes, as numbers: false when one
    of the two is a NaN. *)
Definition Scr4_lt (left right : Scr4) : bool :=
  F32.flt (lane0 left) (lane0 right).
Definition Scr4_le (left right : Scr4) : bool :=
  F32.fle (lane0 left) (lane0 right).

(** The score is a NaN. *)
Definition Scr4_nan (r : Scr4) : bool := F32.is_nan (lane0 r).

(** What was recorded was below the start value, or is a NaN that a build
    answering 1 on an unordered pair let through. *)
Definition let_through (cfg : BuildConfig) (r b : Scr4) : Prop :=
  Scr4_lt r b = true \/ (COMILT_UNORDERED cfg = true /\ Scr4_nan r = true).

(** The bytes [ComputeEndPoints] stores in [m_entry[set]]. *)
Definition entry_bytes (values : Vec4.t) : quad Z :=
  int_bytes
    (Col4.PackBytes
       (Vec4.FloatToInt true (Vec4.mul values (Vec4.of_float (F32.lit 255.0))))).

(** Bit [channel] of the mask is set. *)
Definition selected (cmask channel : Z) : bool :=
  negb (Z.land cmask (Z.shiftl 1 channel) =? 0).

Definition has_table (p : LookupPtr) : bool :=
  match p with Some _ => true | None => false end.

(** Every channel the mask selects has a table. *)
Definition tables_present (lookups : quad LookupPtr) (cmask : Z) : bool :=
  implb (selected cmask 0) (has_table (lane0 lookups))
  && implb (selected cmask 1) (has_table (lane1 lookups))
  && implb (selected cmask 2) (has_table (lane2 lookups))
  && implb (selected cmask 3) (has_table (lane3 lookups)).

(** What the channel loop leaves in [sources[channel]] and in lane
    [channel] of [cerror] when it runs through. *)
Definition source_of (lookups : quad LookupPtr) (entry : quad Z)
  (cmask index channel : Z) : option SP_SourceBlock :=
  if selected cmask channel then
    match lane channel lookups with
    | Some lookup => Some (lookup (lane channel entry) index)
    | None => None
    end
  else None.

Definition sources_of (lookups : quad LookupPtr) (entry : quad Z)
  (cmask index : Z) : Sources :=
  Quad (source_of lookups entry cmask index 0)
       (source_of lookups entry cmask index 1)
       (source_of lookups entry cmask index 2)
       (source_of lookups entry cmask index 3).

Definition cerror_lane (eLUT : list F32.float) (s : option SP_SourceBlock)
  : F32.float :=
  match s with
  | Some b => lut_at eLUT (sp_error b)
  | None => F32.lit 0.0
  end.

Definition cerror_of (eLUT : list F32.float) (sources : Sources) : Vec4.t :=
  map1 (cerror_lane eLUT) sources.

(** The error of codebook slot [index] under the table [eLUT]. *)
Definition slot_error (cfg : BuildConfig) (eLUT : list F32.float)
  (metric : Vec4.t) (lookups : quad LookupPtr) (entry : quad Z)
  (cmask index : Z) : Scr4 :=
  LengthSquared cfg
    (Vec4.mul metric (cerror_of eLUT (sources_of lookups entry cmask index))).

(** Slot [m] of [[0, k)] carries the least error, and is the first to. *)
Definition best_slot (E : Z -> Scr4) (k m : Z) : Prop :=
  0 <= m < k
  /\ (forall i, 0 <= i < k -> Scr4_lt (E i) (E m) = false)
  /\ (forall j, 0 <= j < m -> Scr4_le (E j) (E m) = false).

(** The members written for a slot with sources [src], stored as [idx]. *)
Definition recorded (q : vQuantizer) (set AxFF : Z) (src : Sources) (idx : Z)
  (fit' : SinglePaletteFit) : Prop :=
  m_index fit' = idx
  /\ m_start fit' set = lattice q (start_bytes src AxFF)
  /\ m_end fit' set = lattice q (end_bytes src AxFF).

(** Everything but [m_index], [m_start[set]] and [m_end[set]] is as before. *)
Definition same_frame (set : Z) (fit fit' : SinglePaletteFit) : Prop :=
  m_palette fit' = m_palette fit /\ m_flags fit' = m_flags fit
  /\ m_swap fit' = m_swap fit /\ GetSharedBits fit' = GetSharedBits fit
  /\ m_entry fit' = m_entry fit
  /\ (forall s, s <> set ->
        m_start fit' s = m_start fit s /\ m_end fit' s = m_end fit s).

(** The three members a recorded slot overwrites are as before. *)
Definition untouched (set : Z) (fit fit' : SinglePaletteFit) : Prop :=
  m_index fit' = m_index fit
  /\ m_start fit' set = m_start fit set
  /\ m_end fit' set = m_end fit set.

(** The object after the [PackBytes] store into [m_entry[set]]. *)
Definition with_entry (fit : SinglePaletteFit) (set : Z) : SinglePaletteFit :=
  MkFit (m_palette fit) (m_flags fit) (m_swap fit) (GetSharedBits fit)
        (upd (m_entry fit) set
             (entry_bytes (GetPoints (m_palette fit) set)))
        (m_start fit) (m_end fit) (m_index fit).

(** The text of the overloads with the gamma table left open; the source
    fixes it to [ComputeGammaLUT(false)], the specification's flag
    [SRGB_METRIC] would make it [ComputeGammaLUT(true)]. *)
Definition ComputeEndPoints_with_lut (eLUT : list F32.float) (k : nat)
  (cfg : BuildConfig) (fit : SinglePaletteFit) (set : Z) (metric : Vec4.t)
  (q : vQuantizer) (lookups : quad LookupPtr) (cmask : Z)
  : outcome (Scr4 * SinglePaletteFit) :=
  index_loop cfg eLUT metric q lookups cmask set (Col4.A (gridinv q) - 1)
             k 0 (Scr4_of_float F32.FLT_MAX) (with_entry fit set).

(** The object with another flags word. *)
Definition with_flags (fit : SinglePaletteFit) (flags : Z) : SinglePaletteFit :=
  MkFit (m_palette fit) flags (m_swap fit) (GetSharedBits fit)
        (m_entry fit) (m_start fit) (m_end fit) (m_index fit).

(** Sign of a number: not below zero (a NaN counts). *)
Definition not_negative (x : F32.float) : bool :=
  match x with
  | S754_finite true _ _ | S754_infinity true => false
  | _ => true
  end.

(** The format triples the dispatcher is written for. *)
Definition well_formed_format (ib cb ab : Z) : Prop :=
  (ib = 2 /\ (cb = 5 \/ cb = 6 \/ cb = 7 \/ cb = 8)
          /\ (ab = 0 \/ ab = 6 \/ ab = 8))
  \/ (ib = 3 /\ (cb = 5 \/ cb = 7) /\ (ab = 0 \/ ab = 6))
  \/ (ib = 4 /\ cb = 8 /\ ab = 8).

(** ** The statements that are compared with the code *)

(** Two runs of the index loop in the build [cfg], from [fitA] and from
    [fitB], end alike: with the same score, and with the same recorded
    members unless neither run recorded anything.  A recorded score is below
    the start value [b], or is a NaN that the build let through. *)
Definition agree_after (cfg : BuildConfig) (set : Z) (b : Scr4)
  (fitA fitB : SinglePaletteFit)
  (oA oB : outcome (Scr4 * SinglePaletteFit)) : Prop :=
  match oA, oB with
  | Returned (rA, fA), Returned (rB, fB) =>
      rA = rB /\ same_frame set fitA fA /\ same_frame set fitB fB
      /\ ((rA = b /\ fA = fitA /\ fB = fitB)
          \/ (let_through cfg rA b /\ m_index fA = m_index fB
              /\ m_start fA set = m_start fB set
              /\ m_end fA set = m_end fB set))
  | Faulted, Faulted => True
  | Aborted, Aborted => True
  | _, _ => False
  end.

(** The byte [LookUpLattice] receives for a channel without a source. *)
Definition default_byte (AxFF channel : Z) : Z :=
  if channel =? 3 then AxFF else 0.

(** The return value and the members named by the fitter's contract: the
    call returns the error of a best slot [m] and records that slot. *)
Definition fits_best_slot (k : nat) (cfg : BuildConfig)
  (fit : SinglePaletteFit) (set : Z) (metric : Vec4.t) (q : vQuantizer)
  (lookups : quad LookupPtr) (cmask : Z)
  (r : Scr4) (fit' : SinglePaletteFit) : Prop :=
  let entry := entry_bytes (GetPoints (m_palette fit) set) in
  let E := slot_error cfg (ComputeGammaLUT false) metric lookups entry cmask in
  let S := sources_of lookups entry cmask in
  exists m : Z,
    best_slot E (Z.of_nat k) m /\ r = E m
    /\ recorded q set (Col4.A (gridinv q) - 1) (S m) m fit'.

(** The single-colour contract without any side condition. *)
Definition always_fits_best_slot (k : nat) (cfg : BuildConfig)
  (fit : SinglePaletteFit) (set : Z) (metric : Vec4.t) (q : vQuantizer)
  (lookups : quad LookupPtr) (cmask : Z) : Prop :=
  exists (r : Scr4) (fit' : SinglePaletteFit),
    ComputeEndPoints_lookups k cfg fit set metric q lookups cmask
    = Returned (r, fit')
    /\ fits_best_slot k cfg fit set metric q lookups cmask r fit'.

(** The comparisons of a call are between numbers, or made in a build that
    answers 0 on an unordered pair. *)
Definition ordered_comparisons (k : nat) (cfg : BuildConfig) (E : Z -> Scr4)
  : Prop :=
  COMILT_UNORDERED cfg = false
  \/ forall i, 0 <= i < Z.of_nat k -> Scr4_nan (E i) = false.

(** The call returns [FLT_MAX] and has written [m_entry[set]] only. *)
Definition records_nothing (k : nat) (cfg : BuildConfig)
  (fit : SinglePaletteFit) (set : Z) (metric : Vec4.t) (q : vQuantizer)
  (lookups : quad LookupPtr) (cmask : Z) : Prop :=
  ComputeEndPoints_lookups k cfg fit set metric q lookups cmask
  = Returned (Scr4_of_float F32.FLT_MAX, with_entry fit set).

(** The call returns the error of slot [m], a NaN, and has recorded that
    slot. *)
Definition returns_nan_slot (k : nat) (cfg : BuildConfig)
  (fit : SinglePaletteFit) (set : Z) (metric : Vec4.t) (q : vQuantizer)
  (lookups : quad LookupPtr) (cmask m : Z) : Prop :=
  let entry := entry_bytes (GetPoints (m_palette fit) set) in
  let E := slot_error cfg (ComputeGammaLUT false) metric lookups entry cmask in
  let S := sources_of lookups entry cmask in
  exists fit' : SinglePaletteFit,
    ComputeEndPoints_lookups k cfg fit set metric q lookups cmask
    = Returned (E m, fit')
    /\ Scr4_nan (E m) = true
    /\ recorded q set (Col4.A (gridinv q) - 1) (S m) m fit'.

(** Two calls on objects with the same palette entry end with the same
    score, [m_start[set]], [m_end[set]] and [m_index]. *)
Definition same_result (set : Z)
  (oA oB : outcome (Scr4 * SinglePaletteFit)) : Prop :=
  match oA, oB with
  | Returned (rA, fA), Returned (rB, fB) =>
      rA = rB /\ m_start fA set = m_start fB set
      /\ m_end fA set = m_end fB set /\ m_index fA = m_index fB
  | Faulted, Faulted => True
  | Aborted, Aborted => True
  | _, _ => False
  end.

Definition pure_in_its_inputs (k : nat) (cfg : BuildConfig)
  (fitA fitB : SinglePaletteFit) (set : Z) (metric : Vec4.t) (q : vQuantizer)
  (lookups : quad LookupPtr) (cmask : Z) : Prop :=
  GetPoints (m_palette fitA) set = GetPoints (m_palette fitB) set ->
  same_result set
    (ComputeEndPoints_lookups k cfg fitA set metric q lookups cmask)
    (ComputeEndPoints_lookups k cfg fitB set metric q lookups cmask).

(** The same call made in two builds ends with the same score and the same
    three members. *)
Definition same_in_builds (k : nat) (cfgA cfgB : BuildConfig)
  (fit : SinglePaletteFit) (set : Z) (metric : Vec4.t) (q : vQuantizer)
  (lookups : quad LookupPtr) (cmask : Z) : Prop :=
  same_result set
    (ComputeEndPoints_lookups k cfgA fit set metric q lookups cmask)
    (ComputeEndPoints_lookups k cfgB fit set metric q lookups cmask).

(** There is a call on which the two builds end differently. *)
Definition builds_differ (cfgA cfgB : BuildConfig) : Prop :=
  exists (fit : SinglePaletteFit) (set : Z) (metric : Vec4.t)
         (q : vQuantizer) (lookups : quad LookupPtr) (cmask : Z),
    ~ same_in_builds 2 cfgA cfgB fit set metric q lookups cmask.

(** With the flag bits [SRGB_METRIC] set in the flags word, the call is the
    one that reads its errors through [ComputeGammaLUT(true)]. *)
Definition srgb_flag_selects_srgb_lut (SRGB_METRIC : Z) (k : nat)
  (cfg : BuildConfig) (fit : SinglePaletteFit) (set : Z) (metric : Vec4.t)
  (q : vQuantizer) (lookups : quad LookupPtr) (cmask : Z) : Prop :=
  Z.land (m_flags fit) SRGB_METRIC <> 0 ->
  ComputeEndPoints_lookups k cfg fit set metric q lookups cmask
  = ComputeEndPoints_with_lut (ComputeGammaLUT true) k cfg fit set metric q
                              lookups cmask.

(** A well-formed format never aborts and always returns a score. *)
Definition returns_a_score (cfg : BuildConfig) (inl : LookupInl)
  (fit : SinglePaletteFit) (set : Z) (metric : Vec4.t) (q : vQuantizer)
  (cb ab sb ib cmask : Z) : Prop :=
  ComputeEndPoints cfg inl fit set metric q cb ab sb ib cmask <> Aborted
  /\ exists (r : Scr4) (fit' : SinglePaletteFit),
       ComputeEndPoints cfg inl fit set metric q cb ab sb ib cmask
       = Returned (r, fit').

(** No root is larger in magnitude than [l]. *)
Definition maximal_magnitude (l l1 l2 l3 : F32.float) : Prop :=
  (l = l1 \/ l = l2 \/ l = l3)
  /\ F32.fgt (F32.fabs l1) (F32.fabs l) = false
  /\ F32.fgt (F32.fabs l2) (F32.fabs l) = false
  /\ F32.fgt (F32.fabs l3) (F32.fabs l) = false.

(** The standard sRGB transfer on its linear segment, in exact rationals. *)
Definition srgb_break : Q := 0.04045%Q.
Definition srgb_linear_segment (i : Z) : Q :=
  ((inject_Z i / 255) / 12.92)%Q.

(** A number that is neither an infinity nor a NaN. *)
Definition finite_number (x : F32.float) : bool :=
  match x with
  | S754_zero _ | S754_finite _ _ _ => true
  | _ => false
  end.

(** The term of channel [c] in a slot error: the square of its weighted
    error. *)
Definition channel_term (metric cerror : Vec4.t) (c : Z) : F32.float :=
  F32.fmul (lane c (Vec4.mul metric cerror)) (lane c (Vec4.mul metric cerror)).

(** The channel contributes exactly zero to every slot's error. *)
Definition contributes_zero (fit : SinglePaletteFit) (set : Z)
  (metric : Vec4.t) (lookups : quad LookupPtr) (cmask c : Z) : Prop :=
  forall (index : Z) (sources : Sources) (cerror : Vec4.t),
    slot_sources (ComputeGammaLUT false) lookups
      (entry_bytes (GetPoints (m_palette fit) set)) cmask index
    = Returned (sources, cerror) ->
    channel_term metric cerror c = F32.lit 0.0.

(** Channel [c] takes no part in a call: in every pass of the channel loop
    its source stays null, its lane of [cerror] stays [0.0f] and the bytes
    handed to [LookUpLattice] for it are the defaults; its term of the slot
    error is zero under a finite weight and a NaN under an infinite or NaN
    weight; whatever table pointer sits in lane [c] of the lookups, the call
    ends alike; and the endpoints of a recorded slot, which is any return
    with a score other than [FLT_MAX], come from default bytes in lane
    [c]. *)
Definition inert_channel (k : nat) (cfg : BuildConfig)
  (fit : SinglePaletteFit) (set : Z) (metric : Vec4.t) (q : vQuantizer)
  (lookups : quad LookupPtr) (cmask c : Z) : Prop :=
  let AxFF := Col4.A (gridinv q) - 1 in
  (forall (index : Z) (sources : Sources) (cerror : Vec4.t),
     slot_sources (ComputeGammaLUT false) lookups
       (entry_bytes (GetPoints (m_palette fit) set)) cmask index
     = Returned (sources, cerror) ->
     lane c sources = None
     /\ lane c cerror = F32.lit 0.0
     /\ lane c (start_bytes sources AxFF) = default_byte AxFF c
     /\ lane c (end_bytes sources AxFF) = default_byte AxFF c
     /\ (finite_number (lane c metric) = true ->
         channel_term metric cerror c = F32.lit 0.0)
     /\ (finite_number (lane c metric) = false ->
         channel_term metric cerror c = S754_nan))
  /\ (forall p : LookupPtr,
        ComputeEndPoints_lookups k cfg fit set metric q
          (set_lane c p lookups) cmask
        = ComputeEndPoints_lookups k cfg fit set metric q lookups cmask)
  /\ (forall (r : Scr4) (fit' : SinglePaletteFit),
        ComputeEndPoints_lookups k cfg fit set metric q lookups cmask
        = Returned (r, fit') ->
        r <> Scr4_of_float F32.FLT_MAX ->
        exists sources : Sources,
          m_start fit' set = lattice q (start_bytes sources AxFF)
          /\ m_end fit' set = lattice q (end_bytes sources AxFF)
          /\ lane c (start_bytes sources AxFF) = default_byte AxFF c
          /\ lane c (end_bytes sources AxFF) = default_byte AxFF c).

(** ** Vocabulary of the statements about the eigen-solver *)

(** The locals [a] and [b] of [ComputePrincipleComponent], and the roots
    its second and third arm compute. *)
Definition solver_a (smatrix : Sym3x3) : F32.float :=
  quadratic_a (cubic_c1 smatrix) (cubic_c2 smatrix).

Definition solver_b (smatrix : Sym3x3) : F32.float :=
  quadratic_b (cubic_c0 smatrix) (cubic_c1 smatrix) (cubic_c2 smatrix).

Definition roots3 (hw : Machine) (smatrix : Sym3x3)
  : F32.float * F32.float * F32.float :=
  three_roots hw (cubic_c2 smatrix) (solver_b smatrix) (discriminant smatrix).

Definition roots2 (hw : Machine) (smatrix : Sym3x3) : F32.float * F32.float :=
  two_roots hw (cubic_c2 smatrix) (solver_b smatrix).

(** The axis (1,1,1). *)
Definition ones : Vec3 := Vec3_splat (F32.lit 1.0).

(** The result is (1,1,1) exactly when the discriminant exceeds epsilon. *)
Definition ones_exactly_above_epsilon (hw : Machine) (smatrix : Sym3x3)
  : Prop :=
  ComputePrincipleComponent hw smatrix = ones
  <-> F32.flt F32.FLT_EPSILON (discriminant smatrix) = true.

(** [|l| >= |y|] for each computed root [y]. *)
Definition at_least_all (l l1 l2 l3 : F32.float) : Prop :=
  F32.fle (F32.fabs l1) (F32.fabs l) = true
  /\ F32.fle (F32.fabs l2) (F32.fabs l) = true
  /\ F32.fle (F32.fabs l3) (F32.fabs l) = true.

(** The three-roots arm without a proviso on the roots: the root used is at
    least as large in magnitude as each of the three computed roots. *)
Definition largest_of_three (hw : Machine) (smatrix : Sym3x3) : Prop :=
  forall l1 l2 l3 : F32.float,
    multiplicity (discriminant smatrix) = ThreeRoots ->
    roots3 hw smatrix = (l1, l2, l3) ->
    exists l : F32.float,
      ComputePrincipleComponent hw smatrix = GetMultiplicity1Evector smatrix l
      /\ at_least_all l l1 l2 l3.

(** The double-root arm without a proviso on Q: it runs exactly when
    [|Q| <= epsilon]. *)
Definition double_root_arm_within_epsilon (smatrix : Sym3x3) : Prop :=
  multiplicity (discriminant smatrix) = TwoRoots
  <-> F32.fle (F32.fabs (discriminant smatrix)) F32.FLT_EPSILON = true.

(** [a < b] and [a <= b] on exact rationals, as booleans. *)
Definition Qlt_bool (a b : Q) : bool :=
  match (a ?= b)%Q with Lt => true | _ => false end.

(** Sylvester's criterion on the exact entries: the matrix is positive
    definite, so it is the covariance of some point set. *)
Definition positive_definite (m : Sym3x3) : bool :=
  let a := F32.to_Q (m_x0 m) in
  let b := F32.to_Q (m_x1 m) in
  let c := F32.to_Q (m_x2 m) in
  let d := F32.to_Q (m_x3 m) in
  let e := F32.to_Q (m_x4 m) in
  let f := F32.to_Q (m_x5 m) in
  (Qlt_bool 0 a
   && Qlt_bool 0 (a * d - b * b)
   && Qlt_bool 0 (a * (d * f - e * e) - b * (b * f - e * c)
                  + c * (b * e - d * c)))%Q.

(** ** Vocabulary of the statements about the gamma table *)

(** The base of the standard's power segment: [y = x^2.4] exactly when
    [y^5 = x^12]. *)
Definition srgb_power_base (i : Z) : Q :=
  ((inject_Z i / 255 + 0.055) / 1.055)%Q.

(** Entry [i] of [baseLUT_sRGB] is within [tol] of the IEC 61966-2-1
    transfer of [i/255]: of the linear segment at or below the break, of
    the power segment above it. *)
Definition iec61966_within (tol : Q) (i : Z) : bool :=
  let t := F32.to_Q (lut_at baseLUT_sRGB i) in
  (if Qle_bool (inject_Z i / 255) srgb_break then
     Qle_bool (srgb_linear_segment i - tol) t
     && Qle_bool t (srgb_linear_segment i + tol)
   else
     Qlt_bool 0 (t - tol)
     && Qle_bool ((t - tol) ^ 5) (srgb_power_base i ^ 12)
     && Qle_bool (srgb_power_base i ^ 12) ((t + tol) ^ 5))%Q.

(** The entries the table computes on the wrong segment. *)
Definition misplaced (i : Z) : bool := (2 <=? i) && (i <=? 9).

(** Every index below [n] passes [check]. *)
Definition all_below (n : nat) (check : Z -> bool) : bool :=
  forallb check (map Z.of_nat (seq 0 n)).

(** ** Vocabulary of the further statements about Col4 *)

(** A signed value clamped to a byte. *)
Definition clamp_byte (x : Z) : Z := Z.max 0 (Z.min 255 x).

(** Every lane satisfies [P]. *)
Definition all_lanes {A : Type} (P : A -> Prop) (v : quad A) : Prop :=
  P (lane0 v) /\ P (lane1 v) /\ P (lane2 v) /\ P (lane3 v).

(** The sum of the four lanes. *)
Definition lane_sum (v : Col4.t) : Z := lane0 v + lane1 v + lane2 v + lane3 v.

(** A lane index. *)
Definition is_lane (o : Z) : Prop := 0 <= o <= 3.

(** The 32-bit lane [SetRGBApow2] computes from the exponent [e]: the bits
    of the float 2^e, built by adding [e << 23] to the bits of 1.0f, then
    truncated to an integer. *)
Definition pow2_lane (e : Z) : Z :=
  SSEf.cvtt (F32.of_bits
    (SSE.wrap32 (SSE.wrap32 (Z.shiftl e 23) + F32.bits_of (F32.lit 1.0)))).

(** The exponent [SetRGBApow2<inv>] and [SetXYZWpow2<inv>] use for an
    argument [x]. *)
Definition pow2_exponent (inv x : Z) : Z := if inv =? 0 then x else inv - x.

(** All four lanes are 32-bit values. *)
Definition lanes32 (v : Col4.t) : Prop :=
  all_lanes (fun x => 0 <= x < 2 ^ 32) v.


(** ** Vocabulary of the further statements about the fitter *)

(** What a call on [set] leaves alone: the palette, the flags, the swap and
    the shared bits, and the entry and the endpoints of every other set. *)
Definition other_sets_untouched (set : Z) (fit fit' : SinglePaletteFit)
  : Prop :=
  m_palette fit' = m_palette fit /\ m_flags fit' = m_flags fit
  /\ m_swap fit' = m_swap fit /\ GetSharedBits fit' = GetSharedBits fit
  /\ forall s, s <> set ->
       m_entry fit' s = m_entry fit s /\ m_start fit' s = m_start fit s
       /\ m_end fit' s = m_end fit s.

(** A score that is a number between 0 and [FLT_MAX]. *)
Definition score_in_range (r : Scr4) : Prop :=
  F32.fle (F32.lit 0.0) (lane0 r) = true
  /\ F32.fle (lane0 r) F32.FLT_MAX = true.

(** The score of a call in the build [cfg]: never negative, and a number
    between 0 and [FLT_MAX] unless the build answers 1 on an unordered pair
    and the score is a NaN. *)
Definition score_of_build (cfg : BuildConfig) (r : Scr4) : Prop :=
  not_negative (lane0 r) = true
  /\ (score_in_range r
      \/ (COMILT_UNORDERED cfg = true /\ Scr4_nan r = true)).

(** The colour widths the [switch (cb)] of each index width has a case for,
    and the alpha widths for which the alpha table pointer is not null. *)
Definition colour_case (ib cb : Z) : bool :=
  if ib =? 2 then (cb =? 5) || (cb =? 6) || (cb =? 7) || (cb =? 8)
  else if ib =? 3 then (cb =? 5) || (cb =? 7)
  else if ib =? 4 then cb =? 8
  else false.
Definition alpha_case (ib ab : Z) : bool :=
  if ib =? 2 then (ab =? 6) || (ab =? 8)
  else if ib =? 3 then ab =? 6
  else if ib =? 4 then ab =? 8
  else false.
Definition index_case (ib : Z) : bool := (ib =? 2) || (ib =? 3) || (ib =? 4).

(** The float nearest to i/255, and the byte
    [PackBytes( FloatToInt<true>( v * 255.0f ) )] computes from a lane. *)
Definition unit_of_byte (i : Z) : F32.float :=
  F32.fdiv (F32.of_int i) (F32.lit 255.0).
Definition byte_of_unit (x : F32.float) : Z :=
  clamp_byte (SSE.signed32
    (SSEf.cvtt (F32.fadd (F32.fmul x (F32.lit 255.0)) (F32.lit 0.5)))).

(** How a call of the dispatcher ends. *)
Inductive ending : Type := Returns | Aborts | Faults.
Definition ending_of {A : Type} (o : outcome A) : ending :=
  match o with Returned _ => Returns | Aborted => Aborts | Faulted => Faults end.

(** The table of endings by index width, colour width, alpha width and the
    alpha bit of the channel mask. *)
Definition format_ending (ib cb ab cmask : Z) : ending :=
  if negb (index_case ib) then Returns
  else if negb (colour_case ib cb) then Aborts
  else if alpha_case ib ab then Returns
  else if ib =? 4 then Aborts
  else if selected cmask 3 then Faults
  else Returns.

Definition unit_of_byte_scaled (i : Z) : F32.float :=
  F32.fmul (F32.of_int i) (F32.fdiv (F32.lit 1.0) (F32.lit 255.0)).

(** ** Vocabulary of the further statements about Vec4 *)

(** The float 2^e, for a normal exponent. *)
Definition pow2_float (e : Z) : F32.float := S754_finite false 8388608 (e - 23).

(** The lane [SetXYZWpow2] builds from the exponent [e], held in a 32-bit
    lane: [e << 23] added to the bits of 1.0f. *)
Definition pow2_bits (e : Z) : F32.float :=
  F32.of_bits
    (SSE.wrap32 (SSE.wrap32 (Z.shiftl (SSE.wrap32 e) 23)
                 + F32.bits_of (F32.lit 1.0))).

Definition is_pow2_float (e : Z) (x : F32.float) : bool :=
  match x with
  | S754_finite false m ex => (Zpos m =? 8388608) && (ex =? e - 23)
  | _ => false
  end.

(** What [Clamp] makes of a lane. *)
Definition clamped (x r : F32.float) : Prop :=
  (F32.is_nan x = true -> F32.is_nan r = true)
  /\ (F32.is_nan x = false ->
      F32.fle (F32.lit 0.0) r = true /\ F32.fle r (F32.lit 1.0) = true)
  /\ (F32.fle (F32.lit 0.0) x = true -> F32.fle x (F32.lit 1.0) = true ->
      r = x)
  /\ (F32.flt x (F32.lit 0.0) = true -> r = F32.lit 0.0)
  /\ (F32.flt (F32.lit 1.0) x = true -> r = F32.lit 1.0).

(** ** Vocabulary of the further statements about maths.cpp *)







(** Every entry of the matrix is a NaN. *)
Definition all_nan (m : Sym3x3) : Prop :=
  forall i : Z, F32.is_nan (m i) = true.

(** The sum of the first [count] weights from index [i], as the first loop
    of [ComputeWeightedCovariance] adds them to [total]. *)
Fixpoint total_weight (weights : list F32.float) (count i : nat)
  (total : F32.float) : F32.float :=
  match count with
  | O => total
  | S count' =>
      match nth_error weights i with
      | Some w => total_weight weights count' (S i) (F32.fadd total w)
      | None => total
      end
  end.

(** Two point arrays that agree in X, Y and Z. *)
Definition same_xyz (p q : Vec4.t) : Prop :=
  Vec4.X p = Vec4.X q /\ Vec4.Y p = Vec4.Y q /\ Vec4.Z p = Vec4.Z q.




(** ** Vocabulary of the further statements about the gamma tables *)

(** Entry [i] of the table [ComputeGammaLUT(false)] is within [tol] of
    [i/255]. *)
Definition linear_within (tol : Q) (i : Z) : bool :=
  let t := F32.to_Q (lut_at (ComputeGammaLUT false) i) in
  (Qle_bool (inject_Z i / 255 - tol) t
   && Qle_bool t (inject_Z i / 255 + tol))%Q.

(** Entry [i] is strictly below entry [i + 1]. *)
Definition rises_at (eLUT : list F32.float) (i : Z) : bool :=
  F32.flt (lut_at eLUT i) (lut_at eLUT (i + 1)).

(* ================================================================== *)
(** * Part II: properties                                              *)
(* ================================================================== *)

(** ** The order of binary32 comparisons *)

Section FloatOrder.

Local Ltac cmp_cases :=
  repeat match goal with
  | H : context [Pos.compare_cont Eq ?a ?b] |- _ =>
      change (Pos.compare_cont Eq a b) with (Pos.compare a b) in H
  | |- context [Pos.compare_cont Eq ?a ?b] =>
      change (Pos.compare_cont Eq a b) with (Pos.compare a b)
  end;
  repeat match goal with
  | H : context [Z.compare ?a ?b] |- _ =>
      destruct (Z.compare_spec a b); simpl in H; try discriminate H
  | H : context [Pos.compare ?a ?b] |- _ =>
      destruct (Pos.compare_spec a b); simpl in H; try discriminate H
  | |- context [Z.compare ?a ?b] =>
      destruct (Z.compare_spec a b); simpl
  | |- context [Pos.compare ?a ?b] =>
      destruct (Pos.compare_spec a b); simpl
  end;
  subst; try reflexivity; try discriminate; try lia.

Lemma SFcompare_opp (x y : spec_float) :
  SFcompare y x = option_map CompOpp (SFcompare x y).
Proof.
  destruct x as [[|]|[|]| |[|] mx ex], y as [[|]|[|]| |[|] my ey];
    simpl; try reflexivity; cmp_cases.
Qed.

Lemma SFcompare_refl (x : spec_float) :
  SFcompare x x = None \/ SFcompare x x = Some Eq.
Proof.
  destruct x as [[|]|[|]| |[|] mx ex]; simpl; auto; right;
    rewrite Z.compare_refl;
    change (Pos.compare_cont Eq mx mx) with (Pos.compare mx mx);
    rewrite Pos.compare_refl; reflexivity.
Qed.

Lemma SFcompare_lt_trans (x y z : spec_float) :
  SFcompare x y = Some Lt -> SFcompare y z = Some Lt ->
  SFcompare x z = Some Lt.
Proof.
  destruct x as [[|]|[|]| |[|] mx ex], y as [[|]|[|]| |[|] my ey],
           z as [[|]|[|]| |[|] mz ez];
    simpl; intros H1 H2; try discriminate; try reflexivity;
    injection H1 as H1; injection H2 as H2; f_equal; cmp_cases.
Qed.

Lemma SFcompare_lt_eq_trans (x y z : spec_float) :
  SFcompare x y = Some Lt -> SFcompare y z = Some Eq ->
  SFcompare x z = Some Lt.
Proof.
  destruct x as [[|]|[|]| |[|] mx ex], y as [[|]|[|]| |[|] my ey],
           z as [[|]|[|]| |[|] mz ez];
    simpl; intros H1 H2; try discriminate; try reflexivity;
    injection H1 as H1; injection H2 as H2; f_equal; cmp_cases.
Qed.

Lemma SFcompare_eq_lt_trans (x y z : spec_float) :
  SFcompare x y = Some Eq -> SFcompare y z = Some Lt ->
  SFcompare x z = Some Lt.
Proof.
  destruct x as [[|]|[|]| |[|] mx ex], y as [[|]|[|]| |[|] my ey],
           z as [[|]|[|]| |[|] mz ez];
    simpl; intros H1 H2; try discriminate; try reflexivity;
    injection H1 as H1; injection H2 as H2; f_equal; cmp_cases.
Qed.

Lemma SFcompare_total (x y : spec_float) :
  F32.is_nan x = false -> F32.is_nan y = false ->
  exists c, SFcompare x y = Some c.
Proof.
  destruct x as [[|]|[|]| |[|] mx ex], y as [[|]|[|]| |[|] my ey];
    simpl; intros; try discriminate; eexists; reflexivity.
Qed.

Lemma flt_irrefl (x : F32.float) : F32.flt x x = false.
Proof.
  unfold F32.flt, SFltb.
  destruct (SFcompare_refl x) as [-> | ->]; reflexivity.
Qed.

Lemma flt_trans (x y z : F32.float) :
  F32.flt x y = true -> F32.flt y z = true -> F32.flt x z = true.
Proof.
  unfold F32.flt, SFltb. intros H1 H2.
  destruct (SFcompare x y) as [[]|] eqn:E1; try discriminate.
  destruct (SFcompare y z) as [[]|] eqn:E2; try discriminate.
  now rewrite (SFcompare_lt_trans _ _ _ E1 E2).
Qed.

Lemma flt_asym (x y : F32.float) :
  F32.flt x y = true -> F32.flt y x = false.
Proof.
  unfold F32.flt, SFltb. rewrite (SFcompare_opp x y).
  destruct (SFcompare x y) as [[]|]; simpl; congruence.
Qed.

Lemma flt_not_nan (x y : F32.float) :
  F32.flt x y = true -> F32.is_nan x = false /\ F32.is_nan y = false.
Proof.
  unfold F32.flt, SFltb.
  destruct x as [[|]|[|]| |[|] mx ex], y as [[|]|[|]| |[|] my ey];
    simpl; intros; try discriminate; auto.
Qed.

(** Two numbers that are not NaN are comparable. *)
Lemma flt_total (x y : F32.float) :
  F32.is_nan x = false -> F32.is_nan y = false ->
  F32.flt x y = false -> F32.fle y x = true.
Proof.
  unfold F32.flt, F32.fle, SFltb, SFleb. intros Hx Hy.
  rewrite (SFcompare_opp x y).
  destruct (SFcompare_total x y Hx Hy) as [c ->].
  destruct c; simpl; congruence.
Qed.

Lemma flt_le_trans (x y z : F32.float) :
  F32.flt x y = true -> F32.fle y z = true -> F32.flt x z = true.
Proof.
  unfold F32.flt, F32.fle, SFltb, SFleb. intros H1 H2.
  destruct (SFcompare x y) as [[]|] eqn:E1; try discriminate.
  destruct (SFcompare y z) as [[]|] eqn:E2; try discriminate.
  - now rewrite (SFcompare_lt_eq_trans _ _ _ E1 E2).
  - now rewrite (SFcompare_lt_trans _ _ _ E1 E2).
Qed.

Lemma fle_lt_trans (x y z : F32.float) :
  F32.fle x y = true -> F32.flt y z = true -> F32.flt x z = true.
Proof.
  unfold F32.flt, F32.fle, SFltb, SFleb. intros H1 H2.
  destruct (SFcompare y z) as [[]|] eqn:E2; try discriminate.
  destruct (SFcompare x y) as [[]|] eqn:E1; try discriminate.
  - now rewrite (SFcompare_eq_lt_trans _ _ _ E1 E2).
  - now rewrite (SFcompare_lt_trans _ _ _ E1 E2).
Qed.

Lemma flt_fle_false (x y : F32.float) :
  F32.flt x y = true -> F32.fle y x = false.
Proof.
  unfold F32.flt, F32.fle, SFltb, SFleb. rewrite (SFcompare_opp x y).
  destruct (SFcompare x y) as [[]|]; simpl; congruence.
Qed.

Lemma fle_nan_l (x y : F32.float) :
  F32.is_nan x = true -> F32.fle x y = false.
Proof. destruct x; simpl; try discriminate; reflexivity. Qed.

End FloatOrder.

(** ** Sums of squares are not negative *)

Lemma binary_round_aux_sign (sx : bool) (mx ex : Z) (lx : location) :
  match binary_round_aux F32.prec F32.emax sx mx ex lx with
  | S754_zero s | S754_infinity s | S754_finite s _ _ => s = sx
  | S754_nan => True
  end.
Proof.
  unfold binary_round_aux.
  destruct (shr_fexp F32.prec F32.emax mx ex lx) as [mrs' e'].
  destruct (shr_fexp F32.prec F32.emax _ e' loc_Exact) as [mrs'' e''].
  destruct (shr_m mrs''); [reflexivity | | exact I].
  destruct (e'' <=? F32.emax - F32.prec); reflexivity.
Qed.

Lemma binary_round_aux_not_negative (mx ex : Z) (lx : location) :
  not_negative (binary_round_aux F32.prec F32.emax false mx ex lx) = true.
Proof.
  pose proof (binary_round_aux_sign false mx ex lx) as H.
  destruct (binary_round_aux F32.prec F32.emax false mx ex lx);
    simpl; try reflexivity; now subst.
Qed.

Lemma fmul_self_not_negative (x : F32.float) :
  not_negative (F32.fmul x x) = true.
Proof.
  destruct x as [[|]|[|]| |[|] m e]; simpl; try reflexivity;
    apply binary_round_aux_not_negative.
Qed.

Lemma fadd_not_negative (a b : F32.float) :
  not_negative a = true -> not_negative b = true ->
  not_negative (F32.fadd a b) = true.
Proof.
  destruct a as [[|]|[|]| |[|] ma ea], b as [[|]|[|]| |[|] mb eb];
    simpl; intros; try reflexivity; try discriminate.
  unfold binary_normalize. cbn [cond_Zopp Z.add].
  unfold binary_round.
  destruct (shl_align _ _ _) as [mz ez].
  apply binary_round_aux_not_negative.
Qed.

Lemma HorizontalAdd_not_negative (cfg : BuildConfig) (v : Vec4.t) :
  not_negative (lane0 v) = true -> not_negative (lane1 v) = true ->
  not_negative (lane2 v) = true -> not_negative (lane3 v) = true ->
  not_negative (lane0 (Vec4.HorizontalAdd cfg v)) = true.
Proof.
  intros H0 H1 H2 H3. destruct v as [x y z w]. simpl in *.
  unfold Vec4.HorizontalAdd.
  destruct (Vec4.use_hadd cfg); simpl; repeat apply fadd_not_negative; assumption.
Qed.

Lemma LengthSquared_not_negative (cfg : BuildConfig) (v : Vec4.t) :
  not_negative (lane0 (LengthSquared cfg v)) = true.
Proof.
  unfold LengthSquared, Vec4.Dot.
  apply HorizontalAdd_not_negative; simpl; apply fmul_self_not_negative.
Qed.

Lemma not_negative_floor (x y : F32.float) :
  not_negative x = true -> not_negative y = true ->
  F32.is_nan y = false -> F32.fgt y (F32.lit 0.0) = false ->
  F32.flt x y = false.
Proof.
  destruct x as [[|]|[|]| |[|] mx ex], y as [[|]|[|]| |[|] my ey];
    simpl; intros; try reflexivity; try discriminate.
Qed.

(** ** Col4: the 16-bit multiply and the lane comparison *)

Lemma mullo16_small (x y : Z) :
  0 <= x < 2 ^ 16 -> 0 <= y < 2 ^ 16 ->
  SSE.mullo16 x y = (x * y) mod 2 ^ 16.
Proof.
  intros Hx Hy. unfold SSE.mullo16, SSE.words, SSE.wrap16, SSE.lo16, SSE.hi16.
  rewrite (Z.mod_small x), (Z.mod_small y) by assumption.
  rewrite (Z.div_small x), (Z.div_small y) by assumption.
  change ((0 mod 2 ^ 16 * (0 mod 2 ^ 16)) mod 2 ^ 16) with 0. lia.
Qed.

Lemma mullo_epi16_lanes16 (a b : Col4.t) :
  lanes16 a -> lanes16 b ->
  SSE._mm_mullo_epi16 a b = lane_products16 a b.
Proof.
  intros (A0 & A1 & A2 & A3) (B0 & B1 & B2 & B3).
  unfold SSE._mm_mullo_epi16, lane_products16, map2.
  now rewrite !mullo16_small by assumption.
Qed.

(** Every lane of a horizontal sum holds the sum of the four lanes. *)
Lemma Col4_HorizontalAdd_lanes (cfg : BuildConfig) (a : Col4.t) :
  Col4.HorizontalAdd cfg a =
  splat ((lane0 a + lane1 a + lane2 a + lane3 a) mod 2 ^ 32).
Proof.
  destruct a as [a0 a1 a2 a3].
  unfold Col4.HorizontalAdd, Col4._mm_hadd_epi32, SSE._mm_add_epi32,
    SSE._mm_shuffle_epi32, map2, splat, SSE.wrap32.
  destruct (SQUISH_USE_XSSE cfg =? 3); cbn [lane0 lane1 lane2 lane3].
  - f_equal; rewrite <- Zplus_mod; f_equal; lia.
  - change (Z.land SQUISH_SSE_SWAP64 3) with 2.
    change (Z.land (Z.shiftr SQUISH_SSE_SWAP64 2) 3) with 3.
    change (Z.land (Z.shiftr SQUISH_SSE_SWAP64 4) 3) with 0.
    change (Z.land (Z.shiftr SQUISH_SSE_SWAP64 6) 3) with 1.
    change (Z.land SQUISH_SSE_SWAP32 3) with 3.
    change (Z.land (Z.shiftr SQUISH_SSE_SWAP32 2) 3) with 2.
    change (Z.land (Z.shiftr SQUISH_SSE_SWAP32 4) 3) with 1.
    change (Z.land (Z.shiftr SQUISH_SSE_SWAP32 6) 3) with 0.
    unfold lane. cbn [Z.eqb lane0 lane1 lane2 lane3 Pos.eqb].
    f_equal; rewrite <- Zplus_mod; f_equal; lia.
Qed.

Lemma msb4_ones : SSE.msb4 (2 ^ 32 - 1) = 15.
Proof. reflexivity. Qed.

Lemma msb4_zero : SSE.msb4 0 = 0.
Proof. reflexivity. Qed.

Lemma CompareAnyLessThan_spec (left right : Col4.t) :
  Col4.CompareAnyLessThan left right = true <->
  (lane0 left = lane0 right \/ lane1 left = lane1 right \/
   lane2 left = lane2 right \/ lane3 left = lane3 right).
Proof.
  destruct left as [l0 l1 l2 l3], right as [r0 r1 r2 r3].
  unfold Col4.CompareAnyLessThan, SSE._mm_cmpeq_epi32, SSE._mm_movemask_epi8,
    map2.
  cbn [lane0 lane1 lane2 lane3].
  destruct (Z.eqb_spec l0 r0), (Z.eqb_spec l1 r1),
           (Z.eqb_spec l2 r2), (Z.eqb_spec l3 r3);
    rewrite ?msb4_ones, ?msb4_zero; cbn; intuition congruence.
Qed.

(** C8.  For Col4 values whose four lanes all lie in [[0, 2^16)], the
    products computed by [operator*], [Dot], [MultiplyAdd] and
    [NegativeMultiplySubtract] are, lane by lane, the exact products reduced
    modulo 2^16 ([Dot] sums them, the other two add or subtract them from
    [c]); they are the exact products whenever every lane product is below
    2^16, and differ from them for some inputs whose lane product reaches
    2^16. *)
Theorem Col4_products_are_modulo_2_16 (cfg : BuildConfig) (a b c : Col4.t) :
  lanes16 a -> lanes16 b ->
  Col4.mul a b = lane_products16 a b
  /\ Col4.Dot cfg a b = Col4.HorizontalAdd cfg (lane_products16 a b)
  /\ Col4.Dot cfg a b =
     splat (lane0 (lane_products16 a b) + lane1 (lane_products16 a b)
            + lane2 (lane_products16 a b) + lane3 (lane_products16 a b))
  /\ Col4.MultiplyAdd a b c = SSE._mm_add_epi32 (lane_products16 a b) c
  /\ Col4.NegativeMultiplySubtract a b c =
     SSE._mm_sub_epi32 c (lane_products16 a b)
  /\ (lanes16 (lane_products a b) -> Col4.mul a b = lane_products a b)
  /\ (exists a' b' : Col4.t,
        lanes16 a' /\ lanes16 b' /\ 2 ^ 16 <= lane0 a' * lane0 b'
        /\ lane0 (Col4.mul a' b') <> lane0 (lane_products a' b')).
Proof.
  intros Ha Hb.
  pose proof (mullo_epi16_lanes16 a b Ha Hb) as Hm.
  unfold Col4.mul, Col4.Dot, Col4.MultiplyAdd, Col4.NegativeMultiplySubtract.
  rewrite Hm.
  repeat split.
  - rewrite Col4_HorizontalAdd_lanes. f_equal.
    apply Z.mod_small.
    unfold lane_products16, map2; cbn [lane0 lane1 lane2 lane3].
    pose proof (Z.mod_pos_bound (lane0 a * lane0 b) (2 ^ 16)).
    pose proof (Z.mod_pos_bound (lane1 a * lane1 b) (2 ^ 16)).
    pose proof (Z.mod_pos_bound (lane2 a * lane2 b) (2 ^ 16)).
    pose proof (Z.mod_pos_bound (lane3 a * lane3 b) (2 ^ 16)).
    lia.
  - intros (P0 & P1 & P2 & P3).
    unfold lane_products16, lane_products, map2 in *.
    cbn [lane0 lane1 lane2 lane3] in *.
    now rewrite !Z.mod_small by assumption.
  - exists Sample.col_256, Sample.col_256.
    repeat split; cbn; try lia; discriminate.
Qed.

Lemma Col4_products_are_modulo_2_16_witness :
  lanes16 Sample.col_a /\ lanes16 Sample.col_b /\
  Col4.mul Sample.col_a Sample.col_b =
  lane_products16 Sample.col_a Sample.col_b.
Proof.
  assert (Ha : lanes16 Sample.col_a) by (unfold lanes16; cbv; intuition discriminate).
  assert (Hb : lanes16 Sample.col_b) by (unfold lanes16; cbv; intuition discriminate).
  split; [exact Ha | split; [exact Hb |]].
  exact (proj1 (Col4_products_are_modulo_2_16
                  Sample.cfg Sample.col_a Sample.col_b Sample.col_c Ha Hb)).
Defined.

(** C10.  [CompareAnyLessThan] on Col4 answers true exactly when the two
    values agree in at least one of the four 32-bit lanes: it tests lane
    equality and no order.  With every lane of [left] below the lane of
    [right] it answers false; with no lane below, but equal lanes, true. *)
Theorem Col4_CompareAnyLessThan_tests_equality :
  (forall left right : Col4.t,
     Col4.CompareAnyLessThan left right = true <->
     (lane0 left = lane0 right \/ lane1 left = lane1 right \/
      lane2 left = lane2 right \/ lane3 left = lane3 right))
  /\ Col4.CompareAnyLessThan (Col4.of_int 0) (Col4.of_int 1) = false
  /\ Col4.CompareAnyLessThan (Col4.of_int 1) (Col4.of_int 1) = true.
Proof.
  split; [exact CompareAnyLessThan_spec | split; reflexivity].
Qed.

(** ** The channel loop and the index loop *)

Ltac fold_selected :=
  repeat match goal with
  | |- context [negb (Z.land ?m (Z.shiftl 1 ?c) =? 0)] =>
      change (negb (Z.land m (Z.shiftl 1 c) =? 0)) with (selected m c)
  end.

Lemma slot_sources_present (eLUT : list F32.float) (lookups : quad LookupPtr)
  (entry : quad Z) (cmask index : Z) :
  tables_present lookups cmask = true ->
  slot_sources eLUT lookups entry cmask index =
  Returned (sources_of lookups entry cmask index,
            cerror_of eLUT (sources_of lookups entry cmask index)).
Proof.
  destruct lookups as [l0 l1 l2 l3].
  unfold tables_present, slot_sources, sources_of, source_of, cerror_of, map1,
    channel_loop, channel_body.
  fold_selected. cbn [lane0 lane1 lane2 lane3].
  destruct (selected cmask 0), (selected cmask 1), (selected cmask 2),
           (selected cmask 3), l0, l1, l2, l3;
    simpl; intros; try discriminate; reflexivity.
Qed.

Lemma slot_sources_absent (eLUT : list F32.float) (lookups : quad LookupPtr)
  (entry : quad Z) (cmask index : Z) :
  tables_present lookups cmask = false ->
  slot_sources eLUT lookups entry cmask index = Faulted.
Proof.
  destruct lookups as [l0 l1 l2 l3].
  unfold tables_present, slot_sources, channel_loop, channel_body.
  fold_selected. cbn [lane0 lane1 lane2 lane3].
  destruct (selected cmask 0), (selected cmask 1), (selected cmask 2),
           (selected cmask 3), l0, l1, l2, l3;
    simpl; intros; try discriminate; reflexivity.
Qed.

Lemma same_frame_refl (set : Z) (fit : SinglePaletteFit) :
  same_frame set fit fit.
Proof. unfold same_frame; intuition. Qed.

Lemma same_frame_trans (set : Z) (f g h : SinglePaletteFit) :
  same_frame set f g -> same_frame set g h -> same_frame set f h.
Proof.
  unfold same_frame. intros (A1 & A2 & A3 & A4 & A5 & A6) (B1 & B2 & B3 & B4 & B5 & B6).
  repeat split; try congruence.
  - destruct (A6 s H), (B6 s H); congruence.
  - destruct (A6 s H), (B6 s H); congruence.
Qed.

Lemma same_frame_keep (q : vQuantizer) (set index AxFF : Z) (sources : Sources)
  (fit : SinglePaletteFit) :
  same_frame set fit (keep q set index AxFF sources fit).
Proof.
  unfold same_frame, keep, upd; simpl. repeat split; auto;
    apply Z.eqb_neq in H; now rewrite H.
Qed.

Lemma keep_recorded (q : vQuantizer) (set index AxFF : Z) (sources : Sources)
  (fit : SinglePaletteFit) :
  recorded q set AxFF sources (index mod 256)
           (keep q set index AxFF sources fit).
Proof.
  unfold recorded, keep, upd; cbn [m_index m_start m_end].
  rewrite Z.eqb_refl, Z.mul_1_l. auto.
Qed.

Lemma upd_same {A : Type} (f : Z -> A) (i : Z) (x : A) : upd f i x i = x.
Proof. unfold upd. now rewrite Z.eqb_refl. Qed.

(** *** The comparison [error < besterror] *)

Lemma operator_lt_numbers (cfg : BuildConfig) (x y : Scr4) :
  Scr4_nan x = false -> Scr4_nan y = false ->
  Scr4_operator_lt cfg x y = Scr4_lt x y.
Proof.
  unfold Scr4_operator_lt, Vec4.CompareFirstLessThan, SSEf._mm_comilt_ss,
    SSEf.unordered, Scr4_lt, Scr4_nan.
  intros -> ->. cbn [orb]. now rewrite andb_false_r, orb_false_r.
Qed.

Lemma operator_lt_ordered_build (cfg : BuildConfig) (x y : Scr4) :
  COMILT_UNORDERED cfg = false -> Scr4_operator_lt cfg x y = Scr4_lt x y.
Proof.
  unfold Scr4_operator_lt, Vec4.CompareFirstLessThan, SSEf._mm_comilt_ss,
    Scr4_lt.
  intros ->. cbn [andb]. apply orb_false_r.
Qed.

Lemma operator_lt_cases (cfg : BuildConfig) (x y : Scr4) :
  Scr4_operator_lt cfg x y = true ->
  Scr4_lt x y = true
  \/ (COMILT_UNORDERED cfg = true /\ (Scr4_nan x = true \/ Scr4_nan y = true)).
Proof.
  unfold Scr4_operator_lt, Vec4.CompareFirstLessThan, SSEf._mm_comilt_ss,
    SSEf.unordered, Scr4_lt, Scr4_nan.
  intros H. apply orb_prop in H. destruct H as [H | H]; [now left|].
  apply andb_prop in H. destruct H as (Hu & H). apply orb_prop in H.
  right. split; assumption.
Qed.

Lemma operator_lt_of_lt (cfg : BuildConfig) (x y : Scr4) :
  Scr4_lt x y = true -> Scr4_operator_lt cfg x y = true.
Proof.
  unfold Scr4_operator_lt, Vec4.CompareFirstLessThan, SSEf._mm_comilt_ss,
    Scr4_lt.
  intros ->. reflexivity.
Qed.

Lemma operator_lt_of_nan (cfg : BuildConfig) (x y : Scr4) :
  COMILT_UNORDERED cfg = true -> Scr4_nan x = true ->
  Scr4_operator_lt cfg x y = true.
Proof.
  unfold Scr4_operator_lt, Vec4.CompareFirstLessThan, SSEf._mm_comilt_ss,
    SSEf.unordered, Scr4_nan.
  intros -> ->. cbn [andb orb]. apply orb_true_r.
Qed.

Lemma Scr4_lt_not_nan (x y : Scr4) :
  Scr4_lt x y = true -> Scr4_nan x = false /\ Scr4_nan y = false.
Proof. unfold Scr4_lt, Scr4_nan. apply flt_not_nan. Qed.

Lemma Scr4_gt_not_nan (x y : Scr4) :
  Scr4_gt x y = true -> Scr4_nan x = false.
Proof.
  unfold Scr4_gt, Vec4.CompareFirstGreaterThan, SSEf._mm_comigt_ss, F32.fgt,
    Scr4_nan.
  intros H. exact (proj2 (flt_not_nan _ _ H)).
Qed.

Lemma Scr4_gt_nan (x y : Scr4) : Scr4_nan x = true -> Scr4_gt x y = false.
Proof.
  intros H. destruct (Scr4_gt x y) eqn:E; [|reflexivity].
  apply Scr4_gt_not_nan in E. congruence.
Qed.

Lemma FLT_MAX_number : Scr4_nan (Scr4_of_float F32.FLT_MAX) = false.
Proof. reflexivity. Qed.

Section IndexLoop.

Variables (cfg : BuildConfig) (eLUT : list F32.float) (metric : Vec4.t)
  (q : vQuantizer) (lookups : quad LookupPtr) (cmask set AxFF : Z)
  (entry : quad Z).

Hypothesis Htables : tables_present lookups cmask = true.

Let E : Z -> Scr4 := slot_error cfg eLUT metric lookups entry cmask.
Let S : Z -> Sources := sources_of lookups entry cmask.

Lemma slot_error_floor (i m : Z) :
  Scr4_nan (E m) = false ->
  Scr4_gt (E m) (Scr4_of_float (F32.lit 0.0)) = false ->
  Scr4_lt (E i) (E m) = false.
Proof.
  intros Hnum Hz. unfold Scr4_lt.
  apply not_negative_floor.
  - apply LengthSquared_not_negative.
  - apply LengthSquared_not_negative.
  - exact Hnum.
  - exact Hz.
Qed.

(** In every build: the loop returns, keeps the frame, and either records
    nothing or ends on a recorded slot that the comparison let through. *)
Lemma index_loop_general (fuel : nat) :
  forall (i0 : Z) (b : Scr4) (fit : SinglePaletteFit),
  m_entry fit set = entry -> Scr4_nan b = false ->
  exists (b' : Scr4) (fit' : SinglePaletteFit),
    index_loop cfg eLUT metric q lookups cmask set AxFF fuel i0 b fit
    = Returned (b', fit')
    /\ same_frame set fit fit'
    /\ ((b' = b /\ fit' = fit
         /\ forall i, i0 <= i < i0 + Z.of_nat fuel ->
              Scr4_operator_lt cfg (E i) b = false)
        \/ exists m, i0 <= m < i0 + Z.of_nat fuel
             /\ b' = E m /\ let_through cfg (E m) b
             /\ recorded q set AxFF (S m) (m mod 256) fit').
Proof.
  induction fuel as [|fuel IH]; intros i0 b fit Hentry Hb.
  - exists b, fit. split; [reflexivity|]. split; [apply same_frame_refl|].
    left. repeat split; auto. intros i Hi. simpl in Hi. lia.
  - cbn [index_loop]. rewrite Hentry, (slot_sources_present _ _ _ _ _ Htables).
    change (LengthSquared cfg
              (Vec4.mul metric
                 (cerror_of eLUT (sources_of lookups entry cmask i0))))
      with (E i0).
    change (sources_of lookups entry cmask i0) with (S i0).
    destruct (Scr4_operator_lt cfg (E i0) b) eqn:Hlt.
    + assert (Hthrough : let_through cfg (E i0) b).
      { destruct (operator_lt_cases _ _ _ Hlt) as [H | (Hu & [H | H])].
        - now left.
        - right. now split.
        - congruence. }
      destruct (Scr4_gt (E i0) (Scr4_of_float (F32.lit 0.0))) eqn:Hz;
        cbn [negb].
      * pose proof (Scr4_gt_not_nan _ _ Hz) as Hnum.
        destruct (IH (i0 + 1) (E i0)
                     (keep q set i0 AxFF (S i0) fit) Hentry Hnum) as
          (b' & fit' & Hrun & Hframe & Hcase).
        exists b', fit'. split; [exact Hrun|].
        split; [eapply same_frame_trans; [apply same_frame_keep|exact Hframe]|].
        right.
        destruct Hcase as [(-> & -> & _) | (m & Hm & -> & Hthr & Hrec)].
        -- exists i0. split; [lia|]. split; [reflexivity|].
           split; [exact Hthrough|apply keep_recorded].
        -- exists m. split; [lia|]. split; [reflexivity|].
           split; [|exact Hrec].
           destruct Hthr as [Hlt' | Hnan]; [|now right].
           left. destruct Hthrough as [H | (_ & H)]; [|congruence].
           unfold Scr4_lt in *. eapply flt_trans; eassumption.
      * exists (E i0), (keep q set i0 AxFF (S i0) fit).
        split; [reflexivity|]. split; [apply same_frame_keep|].
        right. exists i0. split; [lia|]. split; [reflexivity|].
        split; [exact Hthrough|apply keep_recorded].
    + destruct (IH (i0 + 1) b fit Hentry Hb) as
        (b' & fit' & Hrun & Hframe & Hcase).
      exists b', fit'. split; [exact Hrun|]. split; [exact Hframe|].
      destruct Hcase as [(-> & -> & Hnone) | (m & Hm & -> & Hthr & Hrec)].
      * left. repeat split; auto. intros i Hi.
        destruct (Z.eq_dec i i0) as [->|Hne]; [exact Hlt|apply Hnone; lia].
      * right. exists m. split; [lia|]. split; [reflexivity|].
        split; [exact Hthr|exact Hrec].
Qed.

(** Where the comparisons are between numbers, or in a build answering 0 on
    an unordered pair: the loop finds the least error and its first slot. *)
Lemma index_loop_spec (fuel : nat) :
  forall (i0 : Z) (b : Scr4) (fit : SinglePaletteFit),
  m_entry fit set = entry -> Scr4_nan b = false ->
  (COMILT_UNORDERED cfg = false
   \/ forall i, i0 <= i < i0 + Z.of_nat fuel -> Scr4_nan (E i) = false) ->
  exists (b' : Scr4) (fit' : SinglePaletteFit),
    index_loop cfg eLUT metric q lookups cmask set AxFF fuel i0 b fit
    = Returned (b', fit')
    /\ same_frame set fit fit'
    /\ ((b' = b /\ fit' = fit
         /\ forall i, i0 <= i < i0 + Z.of_nat fuel -> Scr4_lt (E i) b = false)
        \/ exists m, i0 <= m < i0 + Z.of_nat fuel
             /\ b' = E m /\ Scr4_lt (E m) b = true
             /\ recorded q set AxFF (S m) (m mod 256) fit'
             /\ (forall i, i0 <= i < i0 + Z.of_nat fuel ->
                   Scr4_lt (E i) (E m) = false)
             /\ (forall j, i0 <= j < m -> Scr4_le (E j) (E m) = false)).
Proof.
  induction fuel as [|fuel IH]; intros i0 b fit Hentry Hb Hnum.
  - exists b, fit. split; [reflexivity|]. split; [apply same_frame_refl|].
    left. repeat split; auto. intros i Hi. simpl in Hi. lia.
  - cbn [index_loop]. rewrite Hentry, (slot_sources_present _ _ _ _ _ Htables).
    change (LengthSquared cfg
              (Vec4.mul metric
                 (cerror_of eLUT (sources_of lookups entry cmask i0))))
      with (E i0).
    change (sources_of lookups entry cmask i0) with (S i0).
    assert (Hop : Scr4_operator_lt cfg (E i0) b = Scr4_lt (E i0) b).
    { destruct Hnum as [Hu | Hall].
      - now apply operator_lt_ordered_build.
      - apply operator_lt_numbers; [apply Hall; lia | exact Hb]. }
    assert (Hnum' :
      COMILT_UNORDERED cfg = false
      \/ forall i, i0 + 1 <= i < i0 + 1 + Z.of_nat fuel ->
           Scr4_nan (E i) = false).
    { destruct Hnum as [Hu | Hall]; [now left|].
      right. intros i Hi. apply Hall. lia. }
    rewrite Hop.
    destruct (Scr4_lt (E i0) b) eqn:Hlt.
    + pose proof (proj1 (Scr4_lt_not_nan _ _ Hlt)) as Hnum0.
      destruct (Scr4_gt (E i0) (Scr4_of_float (F32.lit 0.0))) eqn:Hz;
        cbn [negb].
      * destruct (IH (i0 + 1) (E i0)
                     (keep q set i0 AxFF (S i0) fit) Hentry Hnum0 Hnum') as
          (b' & fit' & Hrun & Hframe & Hcase).
        exists b', fit'. split; [exact Hrun|].
        split; [eapply same_frame_trans; [apply same_frame_keep|exact Hframe]|].
        right. destruct Hcase as [(-> & -> & Hnone) | (m & Hm & -> & Hlt' & Hrec & Hmin & Hfirst)].
        -- exists i0. split; [lia|]. split; [reflexivity|]. split; [exact Hlt|].
           split; [apply keep_recorded|]. split.
           ++ intros i Hi. destruct (Z.eq_dec i i0) as [->|Hne].
              ** apply flt_irrefl.
              ** apply Hnone. lia.
           ++ intros j Hj. lia.
        -- exists m. split; [lia|]. split; [reflexivity|].
           split; [eapply flt_trans; eassumption|].
           split; [exact Hrec|]. split.
           ++ intros i Hi. destruct (Z.eq_dec i i0) as [->|Hne].
              ** now apply flt_asym.
              ** apply Hmin. lia.
           ++ intros j Hj. destruct (Z.eq_dec j i0) as [->|Hne].
              ** now apply flt_fle_false.
              ** apply Hfirst. lia.
      * exists (E i0), (keep q set i0 AxFF (S i0) fit).
        split; [reflexivity|]. split; [apply same_frame_keep|].
        right. exists i0. split; [lia|]. split; [reflexivity|].
        split; [exact Hlt|]. split; [apply keep_recorded|]. split.
        -- intros i Hi. now apply slot_error_floor.
        -- intros j Hj. lia.
    + destruct (IH (i0 + 1) b fit Hentry Hb Hnum') as
        (b' & fit' & Hrun & Hframe & Hcase).
      exists b', fit'. split; [exact Hrun|]. split; [exact Hframe|].
      destruct Hcase as [(-> & -> & Hnone) | (m & Hm & -> & Hlt' & Hrec & Hmin & Hfirst)].
      * left. repeat split; auto. intros i Hi.
        destruct (Z.eq_dec i i0) as [->|Hne]; [exact Hlt|apply Hnone; lia].
      * right. exists m. split; [lia|]. split; [reflexivity|].
        split; [exact Hlt'|]. split; [exact Hrec|]. split.
        -- intros i Hi. destruct (Z.eq_dec i i0) as [->|Hne].
           ++ destruct (Scr4_lt (E i0) (E m)) eqn:Hc; [|reflexivity].
              unfold Scr4_lt in *.
              rewrite (flt_trans _ _ _ Hc Hlt') in Hlt. discriminate.
           ++ apply Hmin. lia.
        -- intros j Hj. destruct (Z.eq_dec j i0) as [->|Hne].
           ++ destruct (Scr4_le (E i0) (E m)) eqn:Hc; [|reflexivity].
              unfold Scr4_lt, Scr4_le in *.
              rewrite (fle_lt_trans _ _ _ Hc Hlt') in Hlt. discriminate.
           ++ apply Hfirst. lia.
Qed.

(** In a build answering 1 on an unordered pair: a slot whose error is a
    NaN, reached after slots with positive errors only, is recorded and
    ends the loop through the early out. *)
Lemma index_loop_nan_stop (fuel : nat) :
  COMILT_UNORDERED cfg = true ->
  forall (i0 m : Z) (b : Scr4) (fit : SinglePaletteFit),
  m_entry fit set = entry ->
  i0 <= m < i0 + Z.of_nat fuel ->
  Scr4_nan (E m) = true ->
  (forall j, i0 <= j < m ->
     Scr4_gt (E j) (Scr4_of_float (F32.lit 0.0)) = true) ->
  exists fit' : SinglePaletteFit,
    index_loop cfg eLUT metric q lookups cmask set AxFF fuel i0 b fit
    = Returned (E m, fit')
    /\ same_frame set fit fit'
    /\ recorded q set AxFF (S m) (m mod 256) fit'.
Proof.
  intros Hu.
  induction fuel as [|fuel IH]; intros i0 m b fit Hentry Hm Hnan Hpos.
  - simpl in Hm. lia.
  - cbn [index_loop]. rewrite Hentry, (slot_sources_present _ _ _ _ _ Htables).
    change (LengthSquared cfg
              (Vec4.mul metric
                 (cerror_of eLUT (sources_of lookups entry cmask i0))))
      with (E i0).
    change (sources_of lookups entry cmask i0) with (S i0).
    destruct (Z.eq_dec i0 m) as [->|Hne].
    + rewrite (operator_lt_of_nan cfg _ b Hu Hnan).
      rewrite (Scr4_gt_nan _ _ Hnan). cbn [negb].
      exists (keep q set m AxFF (S m) fit).
      split; [reflexivity|]. split; [apply same_frame_keep|].
      apply keep_recorded.
    + assert (Hz : Scr4_gt (E i0) (Scr4_of_float (F32.lit 0.0)) = true)
        by (apply Hpos; lia).
      assert (Hnext : forall j, i0 + 1 <= j < m ->
                Scr4_gt (E j) (Scr4_of_float (F32.lit 0.0)) = true)
        by (intros j Hj; apply Hpos; lia).
      destruct (Scr4_operator_lt cfg (E i0) b).
      * rewrite Hz. cbn [negb].
        destruct (IH (i0 + 1) m (E i0) (keep q set i0 AxFF (S i0) fit)
                     Hentry ltac:(lia) Hnan Hnext)
          as (fit' & Hrun & Hframe & Hrec).
        exists fit'. split; [exact Hrun|].
        split; [eapply same_frame_trans; [apply same_frame_keep|exact Hframe]|].
        exact Hrec.
      * destruct (IH (i0 + 1) m b fit Hentry ltac:(lia) Hnan Hnext)
          as (fit' & Hrun & Hframe & Hrec).
        exists fit'. split; [exact Hrun|]. split; [exact Hframe|exact Hrec].
Qed.

End IndexLoop.
(** ** Faults, two runs side by side, unselected tables *)

Lemma index_loop_fault (cfg : BuildConfig) (eLUT : list F32.float)
  (metric : Vec4.t) (q : vQuantizer) (lookups : quad LookupPtr)
  (cmask set AxFF : Z) (fuel : nat) (i0 : Z) (b : Scr4)
  (fit : SinglePaletteFit) :
  tables_present lookups cmask = false ->
  index_loop cfg eLUT metric q lookups cmask set AxFF (S fuel) i0 b fit
  = Faulted.
Proof.
  intros H. cbn [index_loop]. now rewrite (slot_sources_absent _ _ _ _ _ H).
Qed.

Lemma let_through_trans (cfg : BuildConfig) (r e b : Scr4) :
  let_through cfg r e -> Scr4_operator_lt cfg e b = true ->
  Scr4_nan e = false -> Scr4_nan b = false -> let_through cfg r b.
Proof.
  intros [Hlt | Hnan] Hop He Hb; [|now right].
  left. rewrite operator_lt_numbers in Hop by assumption.
  unfold Scr4_lt in *. eapply flt_trans; eassumption.
Qed.

Lemma let_through_start (cfg : BuildConfig) (e b : Scr4) :
  Scr4_operator_lt cfg e b = true -> Scr4_nan b = false ->
  let_through cfg e b.
Proof.
  intros Hop Hb.
  destruct (operator_lt_cases _ _ _ Hop) as [H | (Hu & [H | H])].
  - now left.
  - right. now split.
  - congruence.
Qed.

Lemma index_loop_agree (cfg : BuildConfig) (eLUT : list F32.float)
  (metric : Vec4.t) (q : vQuantizer) (lookups : quad LookupPtr)
  (cmask set AxFF : Z) (fuel : nat) :
  forall (i0 : Z) (b : Scr4) (fitA fitB : SinglePaletteFit),
  m_entry fitA set = m_entry fitB set -> Scr4_nan b = false ->
  agree_after cfg set b fitA fitB
    (index_loop cfg eLUT metric q lookups cmask set AxFF fuel i0 b fitA)
    (index_loop cfg eLUT metric q lookups cmask set AxFF fuel i0 b fitB).
Proof.
  induction fuel as [|fuel IH]; intros i0 b fitA fitB Hentry Hb.
  - cbn. repeat split; try apply same_frame_refl. now left.
  - cbn [index_loop]. rewrite Hentry.
    destruct (slot_sources eLUT lookups (m_entry fitB set) cmask i0)
      as [[sources cerror]| |]; cbn; auto.
    set (error := LengthSquared cfg (Vec4.mul metric cerror)).
    destruct (Scr4_operator_lt cfg error b) eqn:Hlt;
      [|apply IH; assumption].
    pose proof (let_through_start _ _ _ Hlt Hb) as Hthrough.
    destruct (Scr4_gt error _) eqn:Hz; cbn [negb]; cbv iota.
    + pose proof (Scr4_gt_not_nan _ _ Hz) as Hnum.
      specialize (IH (i0 + 1) error (keep q set i0 AxFF sources fitA)
                     (keep q set i0 AxFF sources fitB) Hentry Hnum).
      unfold agree_after in *.
      destruct (index_loop cfg eLUT metric q lookups cmask set AxFF fuel
                  (i0 + 1) error (keep q set i0 AxFF sources fitA))
        as [[rA fA]| |];
      destruct (index_loop cfg eLUT metric q lookups cmask set AxFF fuel
                  (i0 + 1) error (keep q set i0 AxFF sources fitB))
        as [[rB fB]| |]; try exact IH.
      cbv beta iota in IH |- *.
      destruct IH as (-> & FA & FB & Hcase).
      split; [reflexivity|].
      split; [eapply same_frame_trans; [apply same_frame_keep|exact FA]|].
      split; [eapply same_frame_trans; [apply same_frame_keep|exact FB]|].
      right. destruct Hcase as [(-> & -> & ->) | (Hthr & Hi & Hs & He)].
      * split; [exact Hthrough|]. cbn. rewrite !upd_same. auto.
      * split; [exact (let_through_trans _ _ _ _ Hthr Hlt Hnum Hb)|]. auto.
    + cbn. split; [reflexivity|].
      split; [apply same_frame_keep|]. split; [apply same_frame_keep|].
      right. split; [exact Hthrough|]. rewrite !upd_same. auto.
Qed.

Lemma slot_sources_unselected (eLUT : list F32.float)
  (lookups : quad LookupPtr) (entry : quad Z) (cmask index c : Z)
  (p : LookupPtr) :
  In c [0; 1; 2; 3] -> selected cmask c = false ->
  slot_sources eLUT (set_lane c p lookups) entry cmask index
  = slot_sources eLUT lookups entry cmask index.
Proof.
  intros Hc Hsel. destruct lookups as [l0 l1 l2 l3].
  unfold slot_sources, channel_loop, channel_body. fold_selected.
  destruct Hc as [<-|[<-|[<-|[<-|[]]]]]; rewrite Hsel; reflexivity.
Qed.

Lemma index_loop_unselected (cfg : BuildConfig) (eLUT : list F32.float)
  (metric : Vec4.t) (q : vQuantizer) (lookups : quad LookupPtr)
  (cmask set AxFF c : Z) (p : LookupPtr) (fuel : nat) :
  In c [0; 1; 2; 3] -> selected cmask c = false ->
  forall (i0 : Z) (b : Scr4) (fit : SinglePaletteFit),
  index_loop cfg eLUT metric q (set_lane c p lookups) cmask set AxFF
             fuel i0 b fit
  = index_loop cfg eLUT metric q lookups cmask set AxFF fuel i0 b fit.
Proof.
  intros Hc Hsel. induction fuel as [|fuel IH]; intros i0 b fit;
    [reflexivity|].
  cbn [index_loop]. rewrite (slot_sources_unselected _ _ _ _ _ _ _ Hc Hsel).
  destruct (slot_sources eLUT lookups (m_entry fit set) cmask i0)
    as [[sources cerror]| |]; auto.
  destruct (Scr4_operator_lt cfg _ b); [|apply IH].
  destruct (negb _); [reflexivity|apply IH].
Qed.

(** ** Calls of the overloads *)

Lemma with_entry_entry (fit : SinglePaletteFit) (set : Z) :
  m_entry (with_entry fit set) set
  = entry_bytes (GetPoints (m_palette fit) set).
Proof. unfold with_entry; cbn [m_entry]. apply upd_same. Qed.

Lemma overload_bound (k : nat) : In k [2; 4; 8]%nat -> 0 < Z.of_nat k <= 256.
Proof. intros [<-|[<-|[<-|[]]]]; lia. Qed.

Lemma FLT_MAX_not_below_itself :
  Scr4_lt (Scr4_of_float F32.FLT_MAX) (Scr4_of_float F32.FLT_MAX) = false.
Proof. reflexivity. Qed.

Lemma let_through_operator (cfg : BuildConfig) (r b : Scr4) :
  let_through cfg r b -> Scr4_operator_lt cfg r b = true.
Proof.
  intros [H | (Hu & H)];
    [now apply operator_lt_of_lt | now apply operator_lt_of_nan].
Qed.

Lemma let_through_not_start (cfg : BuildConfig) (r : Scr4) :
  let_through cfg r (Scr4_of_float F32.FLT_MAX) ->
  r <> Scr4_of_float F32.FLT_MAX.
Proof.
  intros [H | (_ & H)] ->; [|discriminate H].
  rewrite FLT_MAX_not_below_itself in H. discriminate H.
Qed.

(** What the overloads do when the comparison lets no slot error through. *)
Lemma ComputeEndPoints_nothing_recorded (k : nat) (cfg : BuildConfig)
  (fit : SinglePaletteFit) (set : Z) (metric : Vec4.t) (q : vQuantizer)
  (lookups : quad LookupPtr) (cmask : Z) :
  tables_present lookups cmask = true ->
  (forall i, 0 <= i < Z.of_nat k ->
     Scr4_operator_lt cfg
       (slot_error cfg (ComputeGammaLUT false) metric lookups
          (entry_bytes (GetPoints (m_palette fit) set)) cmask i)
       (Scr4_of_float F32.FLT_MAX) = false) ->
  ComputeEndPoints_lookups k cfg fit set metric q lookups cmask
  = Returned (Scr4_of_float F32.FLT_MAX, with_entry fit set).
Proof.
  intros Htab Hnone.
  destruct (index_loop_general cfg (ComputeGammaLUT false) metric q lookups
              cmask set (Col4.A (gridinv q) - 1) _ Htab k 0
              (Scr4_of_float F32.FLT_MAX) (with_entry fit set)
              (with_entry_entry fit set) FLT_MAX_number)
    as (b' & fit' & Hrun & _ & [(-> & -> & _) | (m & Hm & _ & Hthr & _)]).
  - exact Hrun.
  - apply let_through_operator in Hthr.
    rewrite Hnone in Hthr by lia. discriminate.
Qed.

Lemma ComputeEndPoints_lookups_outcome (k : nat) (cfg : BuildConfig)
  (fit : SinglePaletteFit) (set : Z) (metric : Vec4.t) (q : vQuantizer)
  (lookups : quad LookupPtr) (cmask : Z) :
  (tables_present lookups cmask = true ->
   exists r fit',
     ComputeEndPoints_lookups k cfg fit set metric q lookups cmask
     = Returned (r, fit'))
  /\ ComputeEndPoints_lookups k cfg fit set metric q lookups cmask <> Aborted.
Proof.
  destruct (tables_present lookups cmask) eqn:Htab.
  - destruct (index_loop_general cfg (ComputeGammaLUT false) metric q lookups
                cmask set (Col4.A (gridinv q) - 1) _ Htab k 0
                (Scr4_of_float F32.FLT_MAX) (with_entry fit set)
                (with_entry_entry fit set) FLT_MAX_number)
      as (b' & fit' & Hrun & _).
    change (ComputeEndPoints_lookups k cfg fit set metric q lookups cmask)
      with (index_loop cfg (ComputeGammaLUT false) metric q lookups cmask set
              (Col4.A (gridinv q) - 1) k 0 (Scr4_of_float F32.FLT_MAX)
              (with_entry fit set)).
    rewrite Hrun. split; [eauto | discriminate].
  - split; [discriminate|].
    change (ComputeEndPoints_lookups k cfg fit set metric q lookups cmask)
      with (index_loop cfg (ComputeGammaLUT false) metric q lookups cmask set
              (Col4.A (gridinv q) - 1) k 0 (Scr4_of_float F32.FLT_MAX)
              (with_entry fit set)).
    destruct k; [discriminate|].
    rewrite index_loop_fault by exact Htab. discriminate.
Qed.

Lemma tables_present_rgb (cl : LookupTable) (al : LookupPtr) (cmask : Z) :
  tables_present (Quad (Some cl) (Some cl) (Some cl) al) cmask
  = implb (selected cmask 3) (has_table al).
Proof.
  unfold tables_present; cbn [lane0 lane1 lane2 lane3 has_table].
  now rewrite !implb_true_r.
Qed.

(** A call that returns has kept the frame; its score is [FLT_MAX] with
    nothing written, or the error of the slot it recorded, which the
    comparison let through. *)
Lemma ComputeEndPoints_lookups_returned (k : nat) (cfg : BuildConfig)
  (fit : SinglePaletteFit) (set : Z) (metric : Vec4.t) (q : vQuantizer)
  (lookups : quad LookupPtr) (cmask : Z) (r : Scr4) (fit' : SinglePaletteFit) :
  ComputeEndPoints_lookups k cfg fit set metric q lookups cmask
  = Returned (r, fit') ->
  same_frame set (with_entry fit set) fit'
  /\ ((r = Scr4_of_float F32.FLT_MAX /\ fit' = with_entry fit set)
      \/ exists m, 0 <= m < Z.of_nat k
           /\ r = slot_error cfg (ComputeGammaLUT false) metric lookups
                    (entry_bytes (GetPoints (m_palette fit) set)) cmask m
           /\ let_through cfg r (Scr4_of_float F32.FLT_MAX)
           /\ recorded q set (Col4.A (gridinv q) - 1)
                (sources_of lookups
                   (entry_bytes (GetPoints (m_palette fit) set)) cmask m)
                (m mod 256) fit').
Proof.
  intros Hrun.
  change (ComputeEndPoints_lookups k cfg fit set metric q lookups cmask)
    with (index_loop cfg (ComputeGammaLUT false) metric q lookups cmask set
            (Col4.A (gridinv q) - 1) k 0 (Scr4_of_float F32.FLT_MAX)
            (with_entry fit set)) in Hrun.
  destruct (tables_present lookups cmask) eqn:Htab.
  - destruct (index_loop_general cfg (ComputeGammaLUT false) metric q lookups
                cmask set (Col4.A (gridinv q) - 1) _ Htab k 0
                (Scr4_of_float F32.FLT_MAX) (with_entry fit set)
                (with_entry_entry fit set) FLT_MAX_number)
      as (b' & fit'' & Hrun' & Hframe &
          [(-> & -> & _) | (m & Hm & -> & Hthr & Hrec)]);
      rewrite Hrun' in Hrun; injection Hrun as <- <-.
    + split; [exact Hframe|]. left. split; reflexivity.
    + split; [exact Hframe|]. right. exists m.
      split; [lia|]. split; [reflexivity|]. split; [exact Hthr|exact Hrec].
  - destruct k.
    + cbn in Hrun. injection Hrun as <- <-.
      split; [apply same_frame_refl|]. left. split; reflexivity.
    + rewrite index_loop_fault in Hrun by exact Htab. discriminate.
Qed.

(** A returned score other than [FLT_MAX] is the error of the recorded
    slot. *)
Lemma ComputeEndPoints_lookups_recorded (k : nat) (cfg : BuildConfig)
  (fit : SinglePaletteFit) (set : Z) (metric : Vec4.t) (q : vQuantizer)
  (lookups : quad LookupPtr) (cmask : Z) (r : Scr4) (fit' : SinglePaletteFit) :
  ComputeEndPoints_lookups k cfg fit set metric q lookups cmask
  = Returned (r, fit') ->
  r <> Scr4_of_float F32.FLT_MAX ->
  exists m, 0 <= m < Z.of_nat k
    /\ r = slot_error cfg (ComputeGammaLUT false) metric lookups
             (entry_bytes (GetPoints (m_palette fit) set)) cmask m
    /\ recorded q set (Col4.A (gridinv q) - 1)
         (sources_of lookups (entry_bytes (GetPoints (m_palette fit) set))
                     cmask m)
         (m mod 256) fit'.
Proof.
  intros Hrun Hne.
  destruct (ComputeEndPoints_lookups_returned _ _ _ _ _ _ _ _ _ _ Hrun)
    as (_ & [(-> & _) | (m & Hm & Hr & _ & Hrec)]).
  - contradiction.
  - exists m. split; [exact Hm|]. split; [exact Hr|exact Hrec].
Qed.

Lemma below_not_start (r : Scr4) :
  Scr4_lt r (Scr4_of_float F32.FLT_MAX) = true ->
  r <> Scr4_of_float F32.FLT_MAX.
Proof.
  intros H ->. rewrite FLT_MAX_not_below_itself in H. discriminate H.
Qed.

(** The flags word is not read: two objects that differ in it alone end
    alike. *)
Lemma ComputeEndPoints_flags_irrelevant (k : nat) (cfg : BuildConfig)
  (fit : SinglePaletteFit) (flags set : Z) (metric : Vec4.t) (q : vQuantizer)
  (lookups : quad LookupPtr) (cmask : Z) :
  same_result set
    (ComputeEndPoints_lookups k cfg (with_flags fit flags) set metric q
                              lookups cmask)
    (ComputeEndPoints_lookups k cfg fit set metric q lookups cmask).
Proof.
  pose proof (index_loop_agree cfg (ComputeGammaLUT false) metric q lookups
                cmask set (Col4.A (gridinv q) - 1) k 0
                (Scr4_of_float F32.FLT_MAX)
                (with_entry (with_flags fit flags) set) (with_entry fit set))
    as H.
  change (index_loop cfg (ComputeGammaLUT false) metric q lookups cmask set
            (Col4.A (gridinv q) - 1) k 0 (Scr4_of_float F32.FLT_MAX)
            (with_entry (with_flags fit flags) set))
    with (ComputeEndPoints_lookups k cfg (with_flags fit flags) set metric q
            lookups cmask) in H.
  change (index_loop cfg (ComputeGammaLUT false) metric q lookups cmask set
            (Col4.A (gridinv q) - 1) k 0 (Scr4_of_float F32.FLT_MAX)
            (with_entry fit set))
    with (ComputeEndPoints_lookups k cfg fit set metric q lookups cmask) in H.
  specialize (H ltac:(now rewrite !with_entry_entry) FLT_MAX_number).
  unfold agree_after, same_result in *.
  destruct (ComputeEndPoints_lookups k cfg (with_flags fit flags) set
              metric q lookups cmask) as [[rA fA]| |];
  destruct (ComputeEndPoints_lookups k cfg fit set metric q lookups cmask)
    as [[rB fB]| |]; try exact H.
  destruct H as (-> & _ & _ & [(_ & -> & ->) | (_ & Hi & Hs & He)]).
  - repeat split; reflexivity.
  - repeat split; assumption.
Qed.

Lemma source_of_unselected (lookups : quad LookupPtr) (entry : quad Z)
  (cmask index c : Z) :
  In c [0; 1; 2; 3] -> selected cmask c = false ->
  lane c (sources_of lookups entry cmask index) = None.
Proof.
  intros Hc Hsel. unfold sources_of.
  destruct Hc as [<-|[<-|[<-|[<-|[]]]]];
    cbn [lane Z.eqb Pos.eqb lane0 lane1 lane2 lane3]; unfold source_of;
    now rewrite Hsel.
Qed.

Lemma default_bytes_of_missing_source (sources : Sources) (AxFF c : Z) :
  In c [0; 1; 2; 3] -> lane c sources = None ->
  lane c (start_bytes sources AxFF) = default_byte AxFF c
  /\ lane c (end_bytes sources AxFF) = default_byte AxFF c.
Proof.
  intros Hc. destruct sources as [s0 s1 s2 s3].
  destruct Hc as [<-|[<-|[<-|[<-|[]]]]];
    cbn [lane Z.eqb Pos.eqb lane0 lane1 lane2 lane3 start_bytes end_bytes];
    intros ->; split; reflexivity.
Qed.

Lemma weighted_zero_squares_to_zero (m : F32.float) :
  finite_number m = true ->
  F32.fmul (F32.fmul m (F32.lit 0.0)) (F32.fmul m (F32.lit 0.0)) = F32.lit 0.0.
Proof.
  destruct m as [[|]|[|]| |[|] mm em]; intros H; try discriminate H;
    reflexivity.
Qed.

Lemma weighted_zero_squares_to_nan (m : F32.float) :
  finite_number m = false ->
  F32.fmul (F32.fmul m (F32.lit 0.0)) (F32.fmul m (F32.lit 0.0)) = S754_nan.
Proof.
  destruct m as [[|]|[|]| |[|] mm em]; intros H; try discriminate H;
    reflexivity.
Qed.

Lemma lane_mul_by_zero (metric ce : Vec4.t) (c : Z) :
  In c [0; 1; 2; 3] -> lane c ce = F32.lit 0.0 ->
  lane c (Vec4.mul metric ce) = F32.fmul (lane c metric) (F32.lit 0.0).
Proof.
  intros Hc Hz. rewrite <- Hz.
  destruct metric as [x y z w], ce as [c0 c1 c2 c3].
  destruct Hc as [<-|[<-|[<-|[<-|[]]]]]; reflexivity.
Qed.

Lemma lane_mul_zero (metric ce : Vec4.t) (c : Z) :
  In c [0; 1; 2; 3] -> lane c ce = F32.lit 0.0 ->
  finite_number (lane c metric) = true ->
  F32.fmul (lane c (Vec4.mul metric ce)) (lane c (Vec4.mul metric ce))
  = F32.lit 0.0.
Proof.
  intros Hc Hz Hfin.
  assert (Hw : lane c (Vec4.mul metric ce)
               = F32.fmul (lane c metric) (F32.lit 0.0)).
  { rewrite <- Hz. destruct metric as [x y z w], ce as [c0 c1 c2 c3].
    destruct Hc as [<-|[<-|[<-|[<-|[]]]]]; reflexivity. }
  rewrite Hw. now apply weighted_zero_squares_to_zero.
Qed.

(** ** The single-colour fitter: best slot and repeatability *)

(** C2.  For each of the three overloads ([k] = 2, 4, 8 codebook slots),
    every set index, metric, quantizer and channel mask, and lookup tables
    present for the selected channels.  Where the comparisons are between
    numbers (no slot error is a NaN) or the build answers 0 on an unordered
    pair: if some slot error is below [FLT_MAX], [ComputeEndPoints] returns
    the minimum over the slots [[0, k)] of the slot error (the squared
    length of the metric-weighted vector of the LUT-converted error bytes),
    [m_index] is the smallest slot attaining it, and [m_start[set]],
    [m_end[set]] are [q.LookUpLattice] of that slot's start and end bytes;
    and if no slot error is below [FLT_MAX] it returns [FLT_MAX] and leaves
    [m_index], [m_start] and [m_end] unwritten.  In a build that answers 1
    on an unordered pair, a slot whose error is a NaN, coming after slots
    with positive errors only, is recorded, and the call returns that NaN
    at once. *)
Theorem ComputeEndPoints_fits_best_slot (k : nat) (cfg : BuildConfig)
  (fit : SinglePaletteFit) (set : Z) (metric : Vec4.t) (q : vQuantizer)
  (lookups : quad LookupPtr) (cmask : Z) :
  In k [2; 4; 8]%nat ->
  tables_present lookups cmask = true ->
  let E := slot_error cfg (ComputeGammaLUT false) metric lookups
             (entry_bytes (GetPoints (m_palette fit) set)) cmask in
  (ordered_comparisons k cfg E ->
   ((exists i, 0 <= i < Z.of_nat k
       /\ Scr4_lt (E i) (Scr4_of_float F32.FLT_MAX) = true) ->
    always_fits_best_slot k cfg fit set metric q lookups cmask)
   /\ ((forall i, 0 <= i < Z.of_nat k ->
          Scr4_lt (E i) (Scr4_of_float F32.FLT_MAX) = false) ->
       records_nothing k cfg fit set metric q lookups cmask))
  /\ (COMILT_UNORDERED cfg = true ->
      forall m, 0 <= m < Z.of_nat k ->
        Scr4_nan (E m) = true ->
        (forall j, 0 <= j < m ->
           Scr4_gt (E j) (Scr4_of_float (F32.lit 0.0)) = true) ->
        returns_nan_slot k cfg fit set metric q lookups cmask m).
Proof.
  intros Hk Htab E. apply overload_bound in Hk. split.
  - intros Hord.
    destruct (index_loop_spec cfg (ComputeGammaLUT false) metric q lookups
                cmask set (Col4.A (gridinv q) - 1) _ Htab k 0
                (Scr4_of_float F32.FLT_MAX) (with_entry fit set)
                (with_entry_entry fit set) FLT_MAX_number Hord)
      as (b' & fit' & Hrun & _ &
          [(-> & -> & Hnone) | (m & Hm & -> & Hlt & Hrec & Hmin & Hfirst)]).
    + split.
      * intros (i & Hi & Hbelow). fold E in Hnone.
        rewrite Hnone in Hbelow by lia. discriminate.
      * intros _. exact Hrun.
    + split.
      * intros _.
        exists (slot_error cfg (ComputeGammaLUT false) metric lookups
                  (entry_bytes (GetPoints (m_palette fit) set)) cmask m), fit'.
        split; [exact Hrun|]. exists m.
        split; [|split; [reflexivity|]].
        -- split; [lia|].
           split; [intros; apply Hmin; lia|intros; apply Hfirst; lia].
        -- rewrite Z.mod_small in Hrec by lia. exact Hrec.
      * intros Hnone. fold E in Hlt. rewrite Hnone in Hlt by lia.
        discriminate.
  - intros Hu m Hm Hnan Hpos.
    destruct (index_loop_nan_stop cfg (ComputeGammaLUT false) metric q lookups
                cmask set (Col4.A (gridinv q) - 1) _ Htab k Hu 0 m
                (Scr4_of_float F32.FLT_MAX) (with_entry fit set)
                (with_entry_entry fit set) ltac:(lia) Hnan Hpos)
      as (fit' & Hrun & _ & Hrec).
    exists fit'. split; [exact Hrun|]. split; [exact Hnan|].
    rewrite Z.mod_small in Hrec by lia. exact Hrec.
Qed.

Lemma ComputeEndPoints_fits_best_slot_witness :
  In 2%nat [2; 4; 8]%nat
  /\ tables_present (Sample.lookups_rgb Sample.table_index1) 7 = true
  /\ always_fits_best_slot 2 Sample.cfg (Sample.fit 0 7) 0 Sample.metric_one
       Sample.quantizer (Sample.lookups_rgb Sample.table_index1) 7
  /\ records_nothing 2 Sample.cfg (Sample.fit 0 7) 0 Sample.metric_inf_alpha
       Sample.quantizer (Sample.lookups_rgb Sample.table_index1) 7
  /\ returns_nan_slot 2 Sample.gxx (Sample.fit 0 7) 0 Sample.metric_inf_alpha
       Sample.quantizer (Sample.lookups_rgb Sample.table_index1) 7 0.
Proof.
  assert (H1 : In 2%nat [2; 4; 8]%nat) by (simpl; auto).
  assert (H2 : tables_present (Sample.lookups_rgb Sample.table_index1) 7 = true)
    by reflexivity.
  split; [exact H1|]. split; [exact H2|]. split; [|split].
  - refine (proj1 (proj1 (ComputeEndPoints_fits_best_slot 2 Sample.cfg
                            (Sample.fit 0 7) 0 Sample.metric_one
                            Sample.quantizer
                            (Sample.lookups_rgb Sample.table_index1) 7 H1 H2)
                     _) _).
    + left. reflexivity.
    + exists 1. split; [lia|]. vm_compute. reflexivity.
  - refine (proj2 (proj1 (ComputeEndPoints_fits_best_slot 2 Sample.cfg
                            (Sample.fit 0 7) 0 Sample.metric_inf_alpha
                            Sample.quantizer
                            (Sample.lookups_rgb Sample.table_index1) 7 H1 H2)
                     _) _).
    + left. reflexivity.
    + intros i Hi. assert (Hcase : i = 0 \/ i = 1) by lia.
      destruct Hcase as [-> | ->]; vm_compute; reflexivity.
  - refine (proj2 (ComputeEndPoints_fits_best_slot 2 Sample.gxx
                     (Sample.fit 0 7) 0 Sample.metric_inf_alpha
                     Sample.quantizer
                     (Sample.lookups_rgb Sample.table_index1) 7 H1 H2)
              _ 0 _ _ _).
    + reflexivity.
    + lia.
    + vm_compute. reflexivity.
    + intros j Hj. lia.
Defined.

(** With the metric 1e20 and error bytes 255 every slot error overflows to
    +infinity: the tables are present, yet the call returns [FLT_MAX], which
    is no slot's error, and records nothing. *)
Lemma always_fits_best_slot_fails_on_overflow :
  tables_present (Sample.lookups_rgb (Sample.table 1 2 255)) 7 = true
  /\ ComputeEndPoints_lookups 2 Sample.cfg (Sample.fit 0 7) 0
       Sample.metric_huge Sample.quantizer
       (Sample.lookups_rgb (Sample.table 1 2 255)) 7
     = Returned (Scr4_of_float F32.FLT_MAX, with_entry (Sample.fit 0 7) 0)
  /\ ~ always_fits_best_slot 2 Sample.cfg (Sample.fit 0 7) 0
         Sample.metric_huge Sample.quantizer
         (Sample.lookups_rgb (Sample.table 1 2 255)) 7.
Proof.
  assert (Hrun :
    ComputeEndPoints_lookups 2 Sample.cfg (Sample.fit 0 7) 0
      Sample.metric_huge Sample.quantizer
      (Sample.lookups_rgb (Sample.table 1 2 255)) 7
    = Returned (Scr4_of_float F32.FLT_MAX, with_entry (Sample.fit 0 7) 0)).
  { apply (ComputeEndPoints_nothing_recorded 2); [reflexivity|].
    intros i Hi. assert (Hcase : i = 0 \/ i = 1) by lia.
    destruct Hcase as [-> | ->]; vm_compute; reflexivity. }
  split; [reflexivity|]. split; [exact Hrun|].
  intros (r & fit' & Hrun' & m & ((Hm0 & Hm1) & _) & Hr & _).
  rewrite Hrun in Hrun'. injection Hrun' as <- _.
  assert (Hcase : m = 0 \/ m = 1) by lia.
  destruct Hcase as [-> | ->]; vm_compute in Hr; discriminate Hr.
Qed.

(** The call on which the order of the additions in [HorizontalAdd] shows:
    the SSE2 build records slot 1, the SSE3 build slot 0. *)
Lemma builds_differ_in_order (u v : bool) :
  ~ same_in_builds 2 (MkBuildConfig 2 0 None u)
      (MkBuildConfig 3 0 None v) (Sample.fit 0 7) 0 Sample.metric_order
      Sample.quantizer Sample.lookups_order 7.
Proof.
  unfold same_in_builds. intros H.
  destruct u, v; vm_compute in H;
    destruct H as (_ & _ & _ & H); discriminate H.
Qed.

(** The call on which the reading of an unordered pair shows: every slot
    error is a NaN, one build returns [FLT_MAX], the other the NaN. *)
Lemma builds_differ_on_nan :
  ~ same_in_builds 2 (MkBuildConfig 2 0 None false)
      (MkBuildConfig 2 0 None true) (Sample.fit 0 7) 0
      Sample.metric_inf_alpha Sample.quantizer
      (Sample.lookups_rgb Sample.table_index1) 7.
Proof.
  unfold same_in_builds. intros H. vm_compute in H.
  destruct H as (H & _). discriminate H.
Qed.

(** C9.  Two invocations in one build (the same switches and the same
    compiler) on objects whose palette has equal point values at [set],
    with the same metric, quantizer, lookup tables and channel mask, end
    alike: both fault on a missing table, or both return the same score;
    when a slot was recorded (the score is below [FLT_MAX], or is a NaN in a
    build that answers 1 on an unordered pair) they leave equal
    [m_start[set]], [m_end[set]] and [m_index]; when the score is [FLT_MAX]
    no slot was recorded and each object keeps the three members it had.
    Across builds the result is not one function of these inputs: there is
    a call on which the SSE2 build and the SSE3 build record different
    slots, and one on which the two readings of an unordered pair return
    different scores. *)
Theorem ComputeEndPoints_runs_agree (k : nat) (cfg : BuildConfig)
  (fitA fitB : SinglePaletteFit) (set : Z) (metric : Vec4.t) (q : vQuantizer)
  (lookups : quad LookupPtr) (cmask : Z) :
  GetPoints (m_palette fitA) set = GetPoints (m_palette fitB) set ->
  agree_after cfg set (Scr4_of_float F32.FLT_MAX)
    (with_entry fitA set) (with_entry fitB set)
    (ComputeEndPoints_lookups k cfg fitA set metric q lookups cmask)
    (ComputeEndPoints_lookups k cfg fitB set metric q lookups cmask)
  /\ (forall u v : bool,
        builds_differ (MkBuildConfig 2 0 None u) (MkBuildConfig 3 0 None v))
  /\ builds_differ (MkBuildConfig 2 0 None false)
                   (MkBuildConfig 2 0 None true).
Proof.
  intros Hvalues. split; [|split].
  - apply (index_loop_agree cfg (ComputeGammaLUT false) metric q lookups cmask
             set (Col4.A (gridinv q) - 1) k 0 (Scr4_of_float F32.FLT_MAX)
             (with_entry fitA set) (with_entry fitB set)).
    + now rewrite !with_entry_entry, Hvalues.
    + exact FLT_MAX_number.
  - intros u v.
    exists (Sample.fit 0 7), 0, Sample.metric_order, Sample.quantizer,
      Sample.lookups_order, 7.
    apply builds_differ_in_order.
  - exists (Sample.fit 0 7), 0, Sample.metric_inf_alpha, Sample.quantizer,
      (Sample.lookups_rgb Sample.table_index1), 7.
    exact builds_differ_on_nan.
Qed.

Lemma ComputeEndPoints_runs_agree_witness :
  GetPoints (m_palette (Sample.fit 0 7)) 0
  = GetPoints (m_palette (Sample.fit 0 9)) 0
  /\ agree_after Sample.cfg 0 (Scr4_of_float F32.FLT_MAX)
       (with_entry (Sample.fit 0 7) 0) (with_entry (Sample.fit 0 9) 0)
       (ComputeEndPoints_lookups 2 Sample.cfg (Sample.fit 0 7) 0
          Sample.metric_one Sample.quantizer
          (Sample.lookups_rgb Sample.table_index1) 7)
       (ComputeEndPoints_lookups 2 Sample.cfg (Sample.fit 0 9) 0
          Sample.metric_one Sample.quantizer
          (Sample.lookups_rgb Sample.table_index1) 7).
Proof.
  split; [reflexivity|].
  refine (proj1 (ComputeEndPoints_runs_agree 2 Sample.cfg (Sample.fit 0 7)
                   (Sample.fit 0 9) 0 Sample.metric_one Sample.quantizer
                   (Sample.lookups_rgb Sample.table_index1) 7 _)).
  reflexivity.
Defined.

(** Two objects with the same palette, one holding [m_index] 7 and the
    other 9 from earlier work: on the overflowing input both calls return
    [FLT_MAX] and leave [m_index] as it was, 7 and 9.  And one object in
    two builds: the SSE2 build leaves [m_index] 1, the SSE3 build 0. *)
Lemma pure_in_its_inputs_fails_on_overflow :
  GetPoints (m_palette (Sample.fit 0 7)) 0
  = GetPoints (m_palette (Sample.fit 0 9)) 0
  /\ ~ pure_in_its_inputs 2 Sample.cfg (Sample.fit 0 7) (Sample.fit 0 9) 0
         Sample.metric_huge Sample.quantizer
         (Sample.lookups_rgb (Sample.table 1 2 255)) 7
  /\ ~ same_in_builds 2 (MkBuildConfig 2 0 None false)
         (MkBuildConfig 3 0 None false) (Sample.fit 0 7) 0
         Sample.metric_order Sample.quantizer Sample.lookups_order 7.
Proof.
  split; [reflexivity|]. split; [|apply builds_differ_in_order].
  intros H. specialize (H eq_refl).
  rewrite !(ComputeEndPoints_nothing_recorded 2) in H.
  - destruct H as (_ & _ & _ & H). discriminate H.
  - reflexivity.
  - intros i Hi. assert (Hcase : i = 0 \/ i = 1) by lia.
    destruct Hcase as [-> | ->]; vm_compute; reflexivity.
  - reflexivity.
  - intros i Hi. assert (Hcase : i = 0 \/ i = 1) by lia.
    destruct Hcase as [-> | ->]; vm_compute; reflexivity.
Qed.

(** ** The single-colour fitter: formats, the gamma table, masked channels *)

(** C4.  Under well-formed format parameters (ib = 2 with cb in {5,6,7,8}
    and ab in {0,6,8}; ib = 3 with cb in {5,7} and ab in {0,6}; ib = 4 with
    cb = 8 and ab = 8) the dispatcher never reaches an [abort()] branch; and
    it returns a score whenever a format without alpha bits (ab = 0, for
    which the alpha table pointer is null) comes with a channel mask that
    leaves the alpha channel out. *)
Theorem ComputeEndPoints_well_formed_format (cfg : BuildConfig)
  (inl : LookupInl) (fit : SinglePaletteFit) (set : Z) (metric : Vec4.t)
  (q : vQuantizer) (cb ab sb ib cmask : Z) :
  well_formed_format ib cb ab ->
  ComputeEndPoints cfg inl fit set metric q cb ab sb ib cmask <> Aborted
  /\ ((ab = 0 -> selected cmask 3 = false) ->
      returns_a_score cfg inl fit set metric q cb ab sb ib cmask).
Proof.
  intros Hwf.
  assert (Hmain :
    ComputeEndPoints cfg inl fit set metric q cb ab sb ib cmask <> Aborted
    /\ ((ab = 0 -> selected cmask 3 = false) ->
        exists r fit',
          ComputeEndPoints cfg inl fit set metric q cb ab sb ib cmask
          = Returned (r, fit'))).
  { unfold ComputeEndPoints.
    destruct Hwf as [(-> & Hcb & Hab) | [(-> & Hcb & Hab) | (-> & -> & ->)]].
    - destruct Hcb as [-> | [-> | [-> | ->]]];
        cbn [Z.eqb Pos.eqb colour_table_2];
        (split;
         [apply ComputeEndPoints_lookups_outcome
         |intros Hmask; apply ComputeEndPoints_lookups_outcome;
          rewrite tables_present_rgb;
          destruct Hab as [-> | [-> | ->]]; cbn;
          [rewrite Hmask by reflexivity; reflexivity
          |apply implb_true_r | apply implb_true_r]]).
    - destruct Hcb as [-> | ->];
        cbn [Z.eqb Pos.eqb colour_table_3];
        (split;
         [apply ComputeEndPoints_lookups_outcome
         |intros Hmask; apply ComputeEndPoints_lookups_outcome;
          rewrite tables_present_rgb;
          destruct Hab as [-> | ->]; cbn;
          [rewrite Hmask by reflexivity; reflexivity
          |apply implb_true_r]]).
    - cbn [Z.eqb Pos.eqb colour_table_4 alpha_table_4].
      split;
        [apply ComputeEndPoints_lookups_outcome
        |intros _; apply ComputeEndPoints_lookups_outcome;
         rewrite tables_present_rgb; apply implb_true_r]. }
  destruct Hmain as (Hna & Hret).
  split; [exact Hna|]. intros Hmask. split; [exact Hna | exact (Hret Hmask)].
Qed.

Lemma ComputeEndPoints_well_formed_format_witness :
  well_formed_format 2 5 0
  /\ selected 7 3 = false
  /\ returns_a_score Sample.cfg Sample.inl (Sample.fit 0 7) 0
       Sample.metric_one Sample.quantizer 5 0 0 2 7.
Proof.
  assert (H1 : well_formed_format 2 5 0).
  { left. split; [reflexivity|]. split; [left; reflexivity|left; reflexivity]. }
  assert (H2 : selected 7 3 = false) by reflexivity.
  split; [exact H1|]. split; [exact H2|].
  exact (proj2 (ComputeEndPoints_well_formed_format Sample.cfg Sample.inl
                  (Sample.fit 0 7) 0 Sample.metric_one Sample.quantizer
                  5 0 0 2 7 H1) (fun _ => H2)).
Defined.

(** (cb, ab, ib) = (5, 0, 2) is in the support table; with the alpha bit of
    the mask set the call reads through the null alpha table. *)
Lemma returns_a_score_fails_on_null_alpha_table :
  well_formed_format 2 5 0
  /\ ComputeEndPoints Sample.cfg Sample.inl (Sample.fit 0 7) 0
       Sample.metric_one Sample.quantizer 5 0 0 2 15 = Faulted
  /\ ~ returns_a_score Sample.cfg Sample.inl (Sample.fit 0 7) 0
         Sample.metric_one Sample.quantizer 5 0 0 2 15.
Proof.
  split; [|split].
  - left. split; [reflexivity|]. split; [left; reflexivity|left; reflexivity].
  - vm_compute. reflexivity.
  - intros (_ & r & fit' & H). vm_compute in H. discriminate H.
Qed.

(** C1.  Every invocation of an overload converts the 8-bit errors through
    the table returned by [ComputeGammaLUT(false)], the linear one: the
    call is the one with that table; the flags word of the object, and with
    it [SRGB_METRIC], has no influence on the score or on the recorded
    endpoints and index; and the score of a recorded slot is the slot error
    computed with [baseLUT_Linear]. *)
Theorem ComputeEndPoints_reads_linear_lut (k : nat) (cfg : BuildConfig)
  (fit : SinglePaletteFit) (set : Z) (metric : Vec4.t) (q : vQuantizer)
  (lookups : quad LookupPtr) (cmask : Z) :
  ComputeEndPoints_lookups k cfg fit set metric q lookups cmask
  = ComputeEndPoints_with_lut (ComputeGammaLUT false) k cfg fit set metric q
                              lookups cmask
  /\ (forall flags : Z,
        same_result set
          (ComputeEndPoints_lookups k cfg (with_flags fit flags) set metric q
                                    lookups cmask)
          (ComputeEndPoints_lookups k cfg fit set metric q lookups cmask))
  /\ (forall (r : Scr4) (fit' : SinglePaletteFit),
        In k [2; 4; 8]%nat ->
        ComputeEndPoints_lookups k cfg fit set metric q lookups cmask
        = Returned (r, fit') ->
        Scr4_lt r (Scr4_of_float F32.FLT_MAX) = true ->
        r = slot_error cfg baseLUT_Linear metric lookups
              (entry_bytes (GetPoints (m_palette fit) set)) cmask
              (m_index fit')).
Proof.
  split; [reflexivity|]. split.
  - intros flags. apply ComputeEndPoints_flags_irrelevant.
  - intros r fit' Hk Hrun Hbelow. apply overload_bound in Hk.
    destruct (ComputeEndPoints_lookups_recorded _ _ _ _ _ _ _ _ _ _
                Hrun (below_not_start _ Hbelow)) as (m & Hm & -> & (Hidx & _)).
    rewrite Hidx, Z.mod_small by lia. reflexivity.
Qed.

Lemma ComputeEndPoints_reads_linear_lut_witness :
  In 2%nat [2; 4; 8]%nat
  /\ same_result 0
       (ComputeEndPoints_lookups 2 Sample.cfg
          (with_flags (Sample.fit 0 7) (-1)) 0 Sample.metric_one
          Sample.quantizer (Sample.lookups_rgb (Sample.table 1 2 2)) 1)
       (ComputeEndPoints_lookups 2 Sample.cfg (Sample.fit 0 7) 0
          Sample.metric_one Sample.quantizer
          (Sample.lookups_rgb (Sample.table 1 2 2)) 1)
  /\ exists (r : Scr4) (fit' : SinglePaletteFit),
       ComputeEndPoints_lookups 2 Sample.cfg (Sample.fit 0 7) 0
         Sample.metric_one Sample.quantizer
         (Sample.lookups_rgb (Sample.table 1 2 2)) 1
       = Returned (r, fit')
       /\ Scr4_lt r (Scr4_of_float F32.FLT_MAX) = true
       /\ r = slot_error Sample.cfg baseLUT_Linear Sample.metric_one
                (Sample.lookups_rgb (Sample.table 1 2 2))
                (entry_bytes (GetPoints (m_palette (Sample.fit 0 7)) 0)) 1
                (m_index fit').
Proof.
  assert (Hk : In 2%nat [2; 4; 8]%nat) by (simpl; auto).
  destruct (ComputeEndPoints_reads_linear_lut 2 Sample.cfg (Sample.fit 0 7) 0
              Sample.metric_one Sample.quantizer
              (Sample.lookups_rgb (Sample.table 1 2 2)) 1)
    as (_ & Hflags & Hscore).
  split; [exact Hk|]. split; [exact (Hflags (-1))|].
  destruct (ComputeEndPoints_lookups 2 Sample.cfg (Sample.fit 0 7) 0
              Sample.metric_one Sample.quantizer
              (Sample.lookups_rgb (Sample.table 1 2 2)) 1)
    as [[r fit']| |] eqn:Hrun.
  - assert (Hbelow : Scr4_lt r (Scr4_of_float F32.FLT_MAX) = true).
    { vm_compute in Hrun. injection Hrun as <- _. reflexivity. }
    exists r, fit'. split; [reflexivity|]. split; [exact Hbelow|].
    exact (Hscore r fit' Hk eq_refl Hbelow).
  - vm_compute in Hrun. discriminate Hrun.
  - vm_compute in Hrun. discriminate Hrun.
Defined.

(** An object built with every flag bit set, so with [SRGB_METRIC], whatever
    bits that is: the call is not the one that reads [ComputeGammaLUT(true)],
    the two differ in the score. *)
Lemma srgb_flag_does_not_select_srgb_lut :
  m_flags (Sample.fit (-1) 7) = -1
  /\ ComputeEndPoints_lookups 2 Sample.cfg (Sample.fit (-1) 7) 0
       Sample.metric_one Sample.quantizer
       (Sample.lookups_rgb (Sample.table 1 2 2)) 1
     <> ComputeEndPoints_with_lut (ComputeGammaLUT true) 2 Sample.cfg
          (Sample.fit (-1) 7) 0 Sample.metric_one Sample.quantizer
          (Sample.lookups_rgb (Sample.table 1 2 2)) 1
  /\ ~ (exists SRGB_METRIC : Z,
          SRGB_METRIC <> 0
          /\ srgb_flag_selects_srgb_lut SRGB_METRIC 2 Sample.cfg
               (Sample.fit (-1) 7) 0 Sample.metric_one Sample.quantizer
               (Sample.lookups_rgb (Sample.table 1 2 2)) 1).
Proof.
  assert (Hne :
    ComputeEndPoints_lookups 2 Sample.cfg (Sample.fit (-1) 7) 0
      Sample.metric_one Sample.quantizer
      (Sample.lookups_rgb (Sample.table 1 2 2)) 1
    <> ComputeEndPoints_with_lut (ComputeGammaLUT true) 2 Sample.cfg
         (Sample.fit (-1) 7) 0 Sample.metric_one Sample.quantizer
         (Sample.lookups_rgb (Sample.table 1 2 2)) 1).
  { intros H. vm_compute in H. discriminate H. }
  split; [reflexivity|]. split; [exact Hne|].
  intros (mask & Hmask & H). apply Hne, H.
  cbn [m_flags Sample.fit]. now rewrite Z.land_m1_l.
Qed.

(** C7.  In every overload, a channel [c] whose bit in [cmask] is clear
    stays out of the tables and of the endpoints: in each pass of the
    channel loop its source stays null and its lane of the channel-error
    vector stays 0; its lookup table is never read (any pointer in its
    place, null included, gives the same call); and whenever a slot is
    recorded (the score returned is not [FLT_MAX]) the byte passed to
    [LookUpLattice] for that channel is the default, 0x00 for channels 0, 1,
    2 and [q.gridinv.A() - 1] for channel 3.  Its term of the slot error is
    the square of weight times 0: exactly zero when the weight in lane [c]
    of the metric is finite, a NaN when that weight is an infinity or a
    NaN. *)
Theorem unselected_channel_is_inert (k : nat) (cfg : BuildConfig)
  (fit : SinglePaletteFit) (set : Z) (metric : Vec4.t) (q : vQuantizer)
  (lookups : quad LookupPtr) (cmask c : Z) :
  In c [0; 1; 2; 3] -> selected cmask c = false ->
  inert_channel k cfg fit set metric q lookups cmask c.
Proof.
  intros Hc Hsel. unfold inert_channel. cbv zeta. split; [|split].
  - intros index sources cerror Hrun.
    destruct (tables_present lookups cmask) eqn:Htab.
    + rewrite (slot_sources_present _ _ _ _ _ Htab) in Hrun.
      injection Hrun as <- <-.
      pose proof (source_of_unselected lookups
                    (entry_bytes (GetPoints (m_palette fit) set))
                    cmask index c Hc Hsel) as Hnone.
      destruct (default_bytes_of_missing_source _ (Col4.A (gridinv q) - 1)
                  c Hc Hnone) as (Hs & He).
      assert (Hzero :
        lane c (cerror_of (ComputeGammaLUT false)
                  (sources_of lookups
                     (entry_bytes (GetPoints (m_palette fit) set))
                     cmask index)) = F32.lit 0.0).
      { revert Hnone. unfold cerror_of, map1.
        destruct (sources_of lookups _ cmask index) as [s0 s1 s2 s3].
        destruct Hc as [<-|[<-|[<-|[<-|[]]]]];
          cbn [lane Z.eqb Pos.eqb lane0 lane1 lane2 lane3]; now intros ->. }
      split; [exact Hnone|]. split; [exact Hzero|].
      split; [exact Hs|]. split; [exact He|].
      unfold channel_term.
      pose proof (lane_mul_by_zero metric _ c Hc Hzero) as Hw.
      change (ComputeGammaLUT false) with baseLUT_Linear in Hw. rewrite Hw.
      split; intros Hfin.
      * now apply weighted_zero_squares_to_zero.
      * now apply weighted_zero_squares_to_nan.
    + rewrite (slot_sources_absent _ _ _ _ _ Htab) in Hrun. discriminate.
  - intros p. apply index_loop_unselected; assumption.
  - intros r fit' Hrun Hrec.
    destruct (ComputeEndPoints_lookups_recorded _ _ _ _ _ _ _ _ _ _
                Hrun Hrec) as (m & Hm & _ & (_ & Hs & He)).
    eexists. split; [exact Hs|]. split; [exact He|].
    apply default_bytes_of_missing_source; [exact Hc|].
    apply source_of_unselected; assumption.
Qed.

Lemma unselected_channel_is_inert_witness :
  In 3 [0; 1; 2; 3] /\ selected 7 3 = false
  /\ inert_channel 2 Sample.cfg (Sample.fit 0 7) 0 Sample.metric_one
       Sample.quantizer (Sample.lookups_rgb Sample.table_index1) 7 3.
Proof.
  assert (Hc : In 3 [0; 1; 2; 3]) by (simpl; auto).
  assert (Hsel : selected 7 3 = false) by reflexivity.
  split; [exact Hc|]. split; [exact Hsel|].
  exact (unselected_channel_is_inert 2 Sample.cfg (Sample.fit 0 7) 0
           Sample.metric_one Sample.quantizer
           (Sample.lookups_rgb Sample.table_index1) 7 3 Hc Hsel).
Defined.

(** The alpha channel is not selected by the mask 7, yet with the weight
    +infinity in its lane of the metric its term is not zero: it is a NaN,
    every slot error is a NaN, and the call returns [FLT_MAX] with nothing
    recorded (or, in a build that answers 1 on an unordered pair, the NaN
    with slot 0 recorded), where the same call with the weight 1 returns
    the error 0 of slot 1. *)
Lemma unselected_channel_contributes_nan :
  selected 7 3 = false
  /\ ~ contributes_zero (Sample.fit 0 7) 0 Sample.metric_inf_alpha
         (Sample.lookups_rgb Sample.table_index1) 7 3
  /\ (forall i, 0 <= i < 2 ->
        Scr4_nan (slot_error Sample.cfg (ComputeGammaLUT false)
                    Sample.metric_inf_alpha
                    (Sample.lookups_rgb Sample.table_index1)
                    (entry_bytes (GetPoints (m_palette (Sample.fit 0 7)) 0))
                    7 i) = true)
  /\ ComputeEndPoints_lookups 2 Sample.cfg (Sample.fit 0 7) 0
       Sample.metric_inf_alpha Sample.quantizer
       (Sample.lookups_rgb Sample.table_index1) 7
     = Returned (Scr4_of_float F32.FLT_MAX, with_entry (Sample.fit 0 7) 0)
  /\ (exists fit',
        ComputeEndPoints_lookups 2 Sample.gxx (Sample.fit 0 7) 0
          Sample.metric_inf_alpha Sample.quantizer
          (Sample.lookups_rgb Sample.table_index1) 7
        = Returned (Scr4_of_float S754_nan, fit') /\ m_index fit' = 0)
  /\ (exists fit',
        ComputeEndPoints_lookups 2 Sample.cfg (Sample.fit 0 7) 0
          Sample.metric_one Sample.quantizer
          (Sample.lookups_rgb Sample.table_index1) 7
        = Returned (Scr4_of_float (F32.lit 0.0), fit') /\ m_index fit' = 1).
Proof.
  split; [reflexivity|]. split; [|split; [|split; [|split]]].
  - intros H.
    destruct (slot_sources (ComputeGammaLUT false)
                (Sample.lookups_rgb Sample.table_index1)
                (entry_bytes (GetPoints (m_palette (Sample.fit 0 7)) 0)) 7 0)
      as [[sources cerror]| |] eqn:Hrun.
    + specialize (H 0 sources cerror Hrun).
      vm_compute in Hrun. injection Hrun as <- <-.
      vm_compute in H. discriminate H.
    + vm_compute in Hrun. discriminate Hrun.
    + vm_compute in Hrun. discriminate Hrun.
  - intros i Hi. assert (Hcase : i = 0 \/ i = 1) by lia.
    destruct Hcase as [-> | ->]; vm_compute; reflexivity.
  - vm_compute. reflexivity.
  - eexists. split; vm_compute; reflexivity.
  - eexists. split; vm_compute; reflexivity.
Qed.
(** ** The eigen-solver: which arm runs, and which root it uses *)

Lemma multiplicity_one (Q : F32.float) :
  multiplicity Q = OneRoot <-> F32.flt F32.FLT_EPSILON Q = true.
Proof.
  unfold multiplicity.
  destruct (F32.flt F32.FLT_EPSILON Q); [tauto|].
  destruct (F32.flt Q (F32.fneg F32.FLT_EPSILON)); split; discriminate.
Qed.

Lemma below_minus_epsilon (Q : F32.float) :
  F32.flt Q (F32.fneg F32.FLT_EPSILON) = true ->
  F32.flt F32.FLT_EPSILON Q = false.
Proof.
  intros H. destruct (F32.flt F32.FLT_EPSILON Q) eqn:E; [|reflexivity].
  pose proof (flt_trans _ _ _ E H) as Habs. vm_compute in Habs.
  discriminate Habs.
Qed.

Lemma multiplicity_three (Q : F32.float) :
  multiplicity Q = ThreeRoots <-> F32.flt Q (F32.fneg F32.FLT_EPSILON) = true.
Proof.
  unfold multiplicity. split.
  - destruct (F32.flt F32.FLT_EPSILON Q); [discriminate|].
    destruct (F32.flt Q (F32.fneg F32.FLT_EPSILON)); [reflexivity|discriminate].
  - intros H. rewrite (below_minus_epsilon Q H), H. reflexivity.
Qed.

Lemma multiplicity_two (Q : F32.float) :
  multiplicity Q = TwoRoots <->
  F32.flt F32.FLT_EPSILON Q = false
  /\ F32.flt Q (F32.fneg F32.FLT_EPSILON) = false.
Proof.
  unfold multiplicity.
  destruct (F32.flt F32.FLT_EPSILON Q);
    destruct (F32.flt Q (F32.fneg F32.FLT_EPSILON));
    split; try discriminate; try tauto; intros (H1 & H2); discriminate.
Qed.

Lemma within_magnitude (s : bool) (m me : positive) (e ee : Z) :
  (SFltb (S754_finite false me ee) (S754_finite s m e) = false
   /\ SFltb (S754_finite s m e) (S754_finite true me ee) = false)
  <-> SFleb (S754_finite false m e) (S754_finite false me ee) = true.
Proof.
  unfold SFltb, SFleb; cbn [SFcompare].
  change (Pos.compare_cont Eq m me) with (Pos.compare m me).
  change (Pos.compare_cont Eq me m) with (Pos.compare me m).
  rewrite (Z.compare_antisym e ee), (Pos.compare_antisym m me).
  destruct s; destruct (e ?= ee); cbn; try (intuition congruence);
    destruct (m ?= me)%positive; cbn; intuition congruence.
Qed.

(** For a discriminant that is a number, the third arm is |Q| <= epsilon. *)
Lemma multiplicity_two_magnitude (Q : F32.float) :
  F32.is_nan Q = false ->
  (multiplicity Q = TwoRoots <->
   F32.fle (F32.fabs Q) F32.FLT_EPSILON = true).
Proof.
  intros Hnan. rewrite multiplicity_two.
  change F32.FLT_EPSILON with (S754_finite false 8388608 (-46)).
  destruct Q as [s|s| |s m e]; try discriminate Hnan.
  - destruct s; cbn; intuition congruence.
  - destruct s; cbn; intuition congruence.
  - apply within_magnitude.
Qed.

(** A NaN discriminant fails both comparisons and takes the third arm. *)
Lemma multiplicity_nan (Q : F32.float) :
  F32.is_nan Q = true -> multiplicity Q = TwoRoots.
Proof.
  destruct Q as [s|s| |s m e]; intros H; try discriminate H. reflexivity.
Qed.

Lemma pick_larger_maximal (l1 l2 l3 : F32.float) :
  maximal_magnitude (pick_larger l1 l2 l3) l1 l2 l3.
Proof.
  unfold maximal_magnitude, pick_larger, F32.fgt.
  destruct (SFltb (F32.fabs l1) (F32.fabs l2)) eqn:H12.
  - destruct (SFltb (F32.fabs l2) (F32.fabs l3)) eqn:H23.
    + split; [auto|].
      split; [|split; [now apply flt_asym | apply flt_irrefl]].
      apply flt_asym. eapply flt_trans; eassumption.
    + split; [auto|].
      split; [now apply flt_asym|]. split; [apply flt_irrefl|exact H23].
  - destruct (SFltb (F32.fabs l1) (F32.fabs l3)) eqn:H13.
    + split; [auto|].
      split; [now apply flt_asym|]. split; [|apply flt_irrefl].
      destruct (SFltb (F32.fabs l3) (F32.fabs l2)) eqn:H32; [|reflexivity].
      pose proof (flt_trans _ _ _ H13 H32) as Habs.
      unfold F32.flt in Habs. rewrite H12 in Habs. discriminate.
    + split; [auto|].
      split; [apply flt_irrefl|]. split; assumption.
Qed.

Lemma fabs_is_nan (x : F32.float) : F32.is_nan (F32.fabs x) = F32.is_nan x.
Proof. now destruct x. Qed.

(** Among numbers, "none is larger" is "at least as large as each". *)
Lemma maximal_magnitude_numbers (l l1 l2 l3 : F32.float) :
  maximal_magnitude l l1 l2 l3 ->
  F32.is_nan l1 = false -> F32.is_nan l2 = false -> F32.is_nan l3 = false ->
  F32.fle (F32.fabs l1) (F32.fabs l) = true
  /\ F32.fle (F32.fabs l2) (F32.fabs l) = true
  /\ F32.fle (F32.fabs l3) (F32.fabs l) = true.
Proof.
  intros (Hin & H1 & H2 & H3) N1 N2 N3.
  assert (N : F32.is_nan l = false)
    by (destruct Hin as [-> | [-> | ->]]; assumption).
  unfold F32.fgt in H1, H2, H3.
  repeat split; apply flt_total; rewrite ?fabs_is_nan; assumption.
Qed.

(** The locals of [ComputePrincipleComponent], as the source computes
    them. *)
Lemma solver_locals (smatrix : Sym3x3) :
  let c0 := cubic_c0 smatrix in
  let c1 := cubic_c1 smatrix in
  let c2 := cubic_c2 smatrix in
  let a := solver_a smatrix in
  let b := solver_b smatrix in
  let Q := discriminant smatrix in
  (a = c1 - f_third * c2 * c2
   /\ b = f_m2_27 * c2 * c2 * c2 + f_third * c1 * c2 - c0
   /\ Q = F32.lit 0.25 * b * b + f_1_27 * a * a * a)%f32.
Proof.
  unfold discriminant, solver_a, solver_b, root_check, quadratic_a, quadratic_b.
  cbv zeta.
  generalize (cubic_c0 smatrix) (cubic_c1 smatrix) (cubic_c2 smatrix).
  intros c0 c1 c2. split; [reflexivity|split; reflexivity].
Qed.

(** The three arms of [ComputePrincipleComponent]. *)
Lemma ComputePrincipleComponent_one_root (hw : Machine) (smatrix : Sym3x3) :
  multiplicity (discriminant smatrix) = OneRoot ->
  ComputePrincipleComponent hw smatrix = ones.
Proof.
  unfold ComputePrincipleComponent, discriminant. cbv zeta.
  generalize (cubic_c0 smatrix) (cubic_c1 smatrix) (cubic_c2 smatrix).
  intros c0 c1 c2.
  generalize (root_check (quadratic_a c1 c2) (quadratic_b c0 c1 c2)).
  intros Q H. rewrite H. reflexivity.
Qed.

Lemma ComputePrincipleComponent_three_roots (hw : Machine)
  (smatrix : Sym3x3) (l1 l2 l3 : F32.float) :
  multiplicity (discriminant smatrix) = ThreeRoots ->
  roots3 hw smatrix = (l1, l2, l3) ->
  ComputePrincipleComponent hw smatrix
  = GetMultiplicity1Evector smatrix (pick_larger l1 l2 l3).
Proof.
  unfold ComputePrincipleComponent, roots3, solver_b, discriminant.
  cbv zeta.
  generalize (cubic_c0 smatrix) (cubic_c1 smatrix) (cubic_c2 smatrix).
  intros c0 c1 c2.
  generalize (quadratic_b c0 c1 c2)
             (root_check (quadratic_a c1 c2) (quadratic_b c0 c1 c2)).
  intros b Q H Hroots. rewrite H, Hroots. reflexivity.
Qed.

Lemma ComputePrincipleComponent_two_roots (hw : Machine)
  (smatrix : Sym3x3) (l1 l2 : F32.float) :
  multiplicity (discriminant smatrix) = TwoRoots ->
  roots2 hw smatrix = (l1, l2) ->
  ComputePrincipleComponent hw smatrix
  = if repeated_wins l1 l2 then GetMultiplicity2Evector smatrix l1
    else GetMultiplicity1Evector smatrix l2.
Proof.
  unfold ComputePrincipleComponent, roots2, solver_b, discriminant.
  cbv zeta.
  generalize (cubic_c0 smatrix) (cubic_c1 smatrix) (cubic_c2 smatrix).
  intros c0 c1 c2.
  generalize (quadratic_b c0 c1 c2)
             (root_check (quadratic_a c1 c2) (quadratic_b c0 c1 c2)).
  intros b Q H Hroots. rewrite H, Hroots. reflexivity.
Qed.

(** A multiplicity-2 eigenvector has a component [0.0f]. *)
Lemma GetMultiplicity2Evector_not_ones (smatrix : Sym3x3)
  (evalue : F32.float) :
  GetMultiplicity2Evector smatrix evalue <> ones.
Proof.
  unfold GetMultiplicity2Evector, ones, Vec3_splat.
  destruct (_ || _); [intros H; injection H as _ _ H; discriminate H|].
  destruct (_ =? 2); [intros H; injection H as _ H _; discriminate H|].
  destruct (_ || _); intros H; injection H as H _ _; discriminate H.
Qed.

(** ** The eigen-solver: the claims *)

(** C5.  For every symmetric matrix, with a = c1 - c2^2/3,
    b = -2 c2^3/27 + c1 c2/3 - c0 and Q = b^2/4 + a^3/27 computed in single
    precision from the characteristic-cubic coefficients,
    [ComputePrincipleComponent] runs its [return Vec3( 1.0f )] exactly when
    [FLT_EPSILON < Q]: then the result is the axis (1,1,1); otherwise the
    result is an eigenvector built by [GetMultiplicity1Evector] or by
    [GetMultiplicity2Evector], and one built by the latter is never
    (1,1,1). *)
Theorem ComputePrincipleComponent_ones_branch (hw : Machine)
  (smatrix : Sym3x3) :
  let c0 := cubic_c0 smatrix in
  let c1 := cubic_c1 smatrix in
  let c2 := cubic_c2 smatrix in
  let a := solver_a smatrix in
  let b := solver_b smatrix in
  let Q := discriminant smatrix in
  (a = c1 - f_third * c2 * c2
   /\ b = f_m2_27 * c2 * c2 * c2 + f_third * c1 * c2 - c0
   /\ Q = F32.lit 0.25 * b * b + f_1_27 * a * a * a)%f32
  /\ (multiplicity Q = OneRoot <-> F32.flt F32.FLT_EPSILON Q = true)
  /\ (F32.flt F32.FLT_EPSILON Q = true ->
      ComputePrincipleComponent hw smatrix = ones)
  /\ (F32.flt F32.FLT_EPSILON Q = false ->
      exists evalue : F32.float,
        ComputePrincipleComponent hw smatrix
        = GetMultiplicity1Evector smatrix evalue
        \/ (ComputePrincipleComponent hw smatrix
            = GetMultiplicity2Evector smatrix evalue
            /\ ComputePrincipleComponent hw smatrix <> ones)).
Proof.
  cbv zeta. split; [exact (solver_locals smatrix)|].
  split; [apply multiplicity_one|]. split.
  - intros H. apply ComputePrincipleComponent_one_root.
    now apply multiplicity_one.
  - intros H.
    destruct (multiplicity (discriminant smatrix)) eqn:Hm.
    + apply multiplicity_one in Hm. congruence.
    + destruct (roots3 hw smatrix) as [[l1 l2] l3] eqn:Hroots.
      exists (pick_larger l1 l2 l3). left.
      now apply ComputePrincipleComponent_three_roots.
    + destruct (roots2 hw smatrix) as [l1 l2] eqn:Hroots.
      rewrite (ComputePrincipleComponent_two_roots hw smatrix l1 l2 Hm Hroots).
      destruct (repeated_wins l1 l2).
      * exists l1. right. split; [reflexivity|].
        apply GetMultiplicity2Evector_not_ones.
      * exists l2. left. reflexivity.
Qed.

Lemma ComputePrincipleComponent_ones_branch_witness :
  (F32.flt F32.FLT_EPSILON (discriminant Sample.hundred) = true
   /\ ComputePrincipleComponent Sample.machine Sample.hundred = ones)
  /\ (F32.flt F32.FLT_EPSILON (discriminant Sample.identity) = false
      /\ exists evalue : F32.float,
           ComputePrincipleComponent Sample.machine Sample.identity
           = GetMultiplicity1Evector Sample.identity evalue
           \/ (ComputePrincipleComponent Sample.machine Sample.identity
               = GetMultiplicity2Evector Sample.identity evalue
               /\ ComputePrincipleComponent Sample.machine Sample.identity
                  <> ones)).
Proof.
  assert (H1 : F32.flt F32.FLT_EPSILON (discriminant Sample.hundred) = true)
    by (vm_compute; reflexivity).
  assert (H2 : F32.flt F32.FLT_EPSILON (discriminant Sample.identity) = false)
    by (vm_compute; reflexivity).
  split; (split; [assumption|]).
  - exact (proj1 (proj2 (proj2 (ComputePrincipleComponent_ones_branch
                                  Sample.machine Sample.hundred))) H1).
  - exact (proj2 (proj2 (proj2 (ComputePrincipleComponent_ones_branch
                                  Sample.machine Sample.identity))) H2).
Defined.

(** The covariance matrix (1.5, 0.5, 0.5, 1.25, 0.75, 1.25) has the
    principal axis (1,1,1).  Its discriminant is about -0.0208, below
    [-FLT_EPSILON]; the three-roots arm computes the largest root as
    exactly 2.5, and the cofactors of the shifted matrix are exactly 1: the
    result is (1,1,1) although Q does not exceed epsilon. *)
Lemma ones_without_exceeding_epsilon :
  positive_definite Sample.covariance = true
  /\ F32.flt (discriminant Sample.covariance) (F32.fneg F32.FLT_EPSILON)
     = true
  /\ roots3 Sample.x86_glibc Sample.covariance
     = (F32.lit 2.5, F32.of_bits 0x3efffff4, F32.of_bits 0x3f800004)
  /\ GetMultiplicity1Evector Sample.covariance (F32.lit 2.5) = ones
  /\ ComputePrincipleComponent Sample.x86_glibc Sample.covariance = ones
  /\ ~ ones_exactly_above_epsilon Sample.x86_glibc Sample.covariance.
Proof.
  assert (Hres : ComputePrincipleComponent Sample.x86_glibc Sample.covariance
                 = ones) by (vm_compute; reflexivity).
  split; [vm_compute; reflexivity|]. split; [vm_compute; reflexivity|].
  split; [vm_compute; reflexivity|]. split; [vm_compute; reflexivity|].
  split; [exact Hres|].
  intros [Hto _]. specialize (Hto Hres). vm_compute in Hto. discriminate Hto.
Qed.

(** C6.  The eigenvalue used to build the returned eigenvector is maximal
    in absolute value among the computed roots, as far as these are
    numbers.  In the three-roots arm, which runs exactly when
    [Q < -FLT_EPSILON], the result is [GetMultiplicity1Evector] of a root
    [l] among [l1], [l2], [l3] that none of them exceeds in absolute value,
    so that [|l| >= |l1|, |l2|, |l3|] when none of the three is a NaN.  The
    double-root arm runs, for a number Q, exactly when [|Q| <= FLT_EPSILON],
    and it runs as well when Q is a NaN; in it the repeated root [l1] is
    used for a multiplicity-2 eigenvector exactly when [|l1| > |l2|], and
    otherwise the distinct root [l2] for a multiplicity-1 eigenvector. *)
Theorem ComputePrincipleComponent_uses_largest_root (hw : Machine)
  (smatrix : Sym3x3) :
  let Q := discriminant smatrix in
  (multiplicity Q = ThreeRoots
   <-> F32.flt Q (F32.fneg F32.FLT_EPSILON) = true)
  /\ (F32.is_nan Q = false ->
      (multiplicity Q = TwoRoots
       <-> F32.fle (F32.fabs Q) F32.FLT_EPSILON = true))
  /\ (F32.is_nan Q = true -> multiplicity Q = TwoRoots)
  /\ (forall l1 l2 l3 : F32.float,
        multiplicity Q = ThreeRoots ->
        roots3 hw smatrix = (l1, l2, l3) ->
        ComputePrincipleComponent hw smatrix
        = GetMultiplicity1Evector smatrix (pick_larger l1 l2 l3)
        /\ maximal_magnitude (pick_larger l1 l2 l3) l1 l2 l3
        /\ (F32.is_nan l1 = false -> F32.is_nan l2 = false ->
            F32.is_nan l3 = false ->
            at_least_all (pick_larger l1 l2 l3) l1 l2 l3))
  /\ (forall l1 l2 : F32.float,
        multiplicity Q = TwoRoots ->
        roots2 hw smatrix = (l1, l2) ->
        (F32.fgt (F32.fabs l1) (F32.fabs l2) = true ->
         ComputePrincipleComponent hw smatrix
         = GetMultiplicity2Evector smatrix l1)
        /\ (F32.fgt (F32.fabs l1) (F32.fabs l2) = false ->
            ComputePrincipleComponent hw smatrix
            = GetMultiplicity1Evector smatrix l2
            /\ F32.fgt (F32.fabs l1) (F32.fabs l2) = false)).
Proof.
  cbv zeta. split; [apply multiplicity_three|].
  split; [apply multiplicity_two_magnitude|].
  split; [apply multiplicity_nan|]. split.
  - intros l1 l2 l3 Hm Hroots.
    split; [now apply ComputePrincipleComponent_three_roots|].
    split; [apply pick_larger_maximal|].
    intros N1 N2 N3.
    exact (maximal_magnitude_numbers _ _ _ _
             (pick_larger_maximal l1 l2 l3) N1 N2 N3).
  - intros l1 l2 Hm Hroots.
    rewrite (ComputePrincipleComponent_two_roots hw smatrix l1 l2 Hm Hroots).
    unfold repeated_wins.
    split; intros H; rewrite H; [reflexivity|split; reflexivity].
Qed.

Lemma ComputePrincipleComponent_uses_largest_root_witness :
  (multiplicity (discriminant Sample.covariance) = ThreeRoots
   /\ roots3 Sample.x86_glibc Sample.covariance
      = (F32.lit 2.5, F32.of_bits 0x3efffff4, F32.of_bits 0x3f800004)
   /\ pick_larger (F32.lit 2.5) (F32.of_bits 0x3efffff4)
        (F32.of_bits 0x3f800004) = F32.lit 2.5
   /\ ComputePrincipleComponent Sample.x86_glibc Sample.covariance
      = GetMultiplicity1Evector Sample.covariance
          (pick_larger (F32.lit 2.5) (F32.of_bits 0x3efffff4)
             (F32.of_bits 0x3f800004))
   /\ at_least_all
        (pick_larger (F32.lit 2.5) (F32.of_bits 0x3efffff4)
           (F32.of_bits 0x3f800004))
        (F32.lit 2.5) (F32.of_bits 0x3efffff4) (F32.of_bits 0x3f800004))
  /\ (multiplicity (discriminant Sample.identity) = TwoRoots
      /\ roots2 Sample.machine Sample.identity = (F32.lit 1.0, F32.lit 1.0)
      /\ F32.fgt (F32.fabs (F32.lit 1.0)) (F32.fabs (F32.lit 1.0)) = false
      /\ ComputePrincipleComponent Sample.machine Sample.identity
         = GetMultiplicity1Evector Sample.identity (F32.lit 1.0)).
Proof.
  assert (M3 : multiplicity (discriminant Sample.covariance) = ThreeRoots)
    by (vm_compute; reflexivity).
  assert (R3 : roots3 Sample.x86_glibc Sample.covariance
               = (F32.lit 2.5, F32.of_bits 0x3efffff4,
                  F32.of_bits 0x3f800004))
    by (vm_compute; reflexivity).
  assert (M2 : multiplicity (discriminant Sample.identity) = TwoRoots)
    by (vm_compute; reflexivity).
  assert (R2 : roots2 Sample.machine Sample.identity
               = (F32.lit 1.0, F32.lit 1.0))
    by (vm_compute; reflexivity).
  assert (G : F32.fgt (F32.fabs (F32.lit 1.0)) (F32.fabs (F32.lit 1.0))
              = false) by (vm_compute; reflexivity).
  destruct (ComputePrincipleComponent_uses_largest_root Sample.x86_glibc
              Sample.covariance) as (_ & _ & _ & Hthree & _).
  destruct (Hthree _ _ _ M3 R3) as (Hres & _ & Hall).
  destruct (ComputePrincipleComponent_uses_largest_root Sample.machine
              Sample.identity) as (_ & _ & _ & _ & Htwo).
  destruct (Htwo _ _ M2 R2) as (_ & Hdistinct).
  split.
  - split; [exact M3|]. split; [exact R3|].
    split; [vm_compute; reflexivity|]. split; [exact Hres|].
    apply Hall; vm_compute; reflexivity.
  - split; [exact M2|]. split; [exact R2|]. split; [exact G|].
    exact (proj1 (Hdistinct G)).
Defined.

(** The diagonal matrix (1e7, 5e6, 0): Q overflows to -infinity, the
    three-roots arm runs, its three roots are NaNs, and no root used is at
    least as large as a NaN.  The diagonal matrix (1e13, 1e13, 1e13): Q is
    a NaN and the double-root arm runs although [|Q| <= epsilon] is
    false. *)
Lemma largest_root_fails_on_overflow :
  (multiplicity (discriminant Sample.stretched) = ThreeRoots
   /\ F32.flt (discriminant Sample.stretched) (F32.fneg F32.FLT_EPSILON)
      = true
   /\ roots3 Sample.machine Sample.stretched
      = (S754_nan, S754_nan, S754_nan)
   /\ ~ largest_of_three Sample.machine Sample.stretched)
  /\ (F32.is_nan (discriminant Sample.swollen) = true
      /\ multiplicity (discriminant Sample.swollen) = TwoRoots
      /\ ~ double_root_arm_within_epsilon Sample.swollen).
Proof.
  assert (M3 : multiplicity (discriminant Sample.stretched) = ThreeRoots)
    by (vm_compute; reflexivity).
  assert (R3 : roots3 Sample.machine Sample.stretched
               = (S754_nan, S754_nan, S754_nan))
    by (vm_compute; reflexivity).
  assert (M2 : multiplicity (discriminant Sample.swollen) = TwoRoots)
    by (vm_compute; reflexivity).
  split.
  - split; [exact M3|]. split; [vm_compute; reflexivity|].
    split; [exact R3|].
    intros H. destruct (H _ _ _ M3 R3) as (l & _ & (Habs & _)).
    destruct l as [[|]|[|]| |[|] m e]; vm_compute in Habs; discriminate Habs.
  - split; [vm_compute; reflexivity|]. split; [exact M2|].
    intros H. apply proj1 in H. specialize (H M2).
    vm_compute in H. discriminate H.
Qed.

(** ** The gamma tables *)

Lemma all_below_spec (n : nat) (check : Z -> bool) (i : Z) :
  all_below n check = true -> 0 <= i < Z.of_nat n -> check i = true.
Proof.
  unfold all_below. rewrite forallb_forall. intros H Hi. apply H.
  apply in_map_iff. exists (Z.to_nat i). split; [lia|].
  apply in_seq. lia.
Qed.

Lemma baseLUT_sRGB_entries_checked :
  all_below 256
    (fun i => Bool.eqb (iec61966_within 0.000001 i) (negb (misplaced i)))
  = true.
Proof. vm_compute. reflexivity. Qed.

Lemma baseLUT_sRGB_misplaced_checked :
  all_below 256
    (fun i =>
       implb (misplaced i)
         (Qlt_bool (F32.to_Q baseipartition) (inject_Z i / 255)
          && Qle_bool (inject_Z i / 255) srgb_break
          && Qlt_bool (srgb_linear_segment i + 0.000008)
                      (F32.to_Q (lut_at baseLUT_sRGB i))
          && Qle_bool ((F32.to_Q (lut_at baseLUT_sRGB i) - 0.000001) ^ 5)
                      (srgb_power_base i ^ 12)
          && Qle_bool (srgb_power_base i ^ 12)
                      ((F32.to_Q (lut_at baseLUT_sRGB i) + 0.000001) ^ 5)))
  = true.
Proof. vm_compute. reflexivity. Qed.

(** C3.  [ComputeGammaLUT(true)] is the 256-entry table [baseLUT_sRGB];
    entry 0 is 0.0 and entry 255 is 1.0.  Against the IEC 61966-2-1
    transfer of i/255 (linear segment (i/255)/12.92 at or below the break
    0.04045, power segment ((i/255 + 0.055)/1.055)^2.4 above it) every entry
    is within 1e-6 except entries 2 to 9: these inputs lie at or below the
    break 0.04045 but above [baseipartition] = 0.004045, and the table holds
    for them the value of the power segment, more than 8e-6 above the linear
    one (entry 2 is 0.00114819 where the standard gives 0.000607). *)
Theorem baseLUT_sRGB_against_iec61966 :
  ComputeGammaLUT true = baseLUT_sRGB
  /\ length baseLUT_sRGB = 256%nat
  /\ lut_at baseLUT_sRGB 0 = F32.lit 0.0
  /\ lut_at baseLUT_sRGB 255 = F32.lit 1.0
  /\ baseipartition = F32.lit 0.004045
  /\ lut_at baseLUT_sRGB 2 = F32.lit 0.00114819
  /\ (forall i : Z, 0 <= i <= 255 ->
        iec61966_within 0.000001 i = negb (misplaced i))
  /\ (forall i : Z, 2 <= i <= 9 ->
        Qlt_bool (F32.to_Q baseipartition) (inject_Z i / 255) = true
        /\ Qle_bool (inject_Z i / 255) srgb_break = true
        /\ Qlt_bool (srgb_linear_segment i + 0.000008)
                    (F32.to_Q (lut_at baseLUT_sRGB i)) = true
        /\ Qle_bool ((F32.to_Q (lut_at baseLUT_sRGB i) - 0.000001) ^ 5)
                    (srgb_power_base i ^ 12) = true
        /\ Qle_bool (srgb_power_base i ^ 12)
                    ((F32.to_Q (lut_at baseLUT_sRGB i) + 0.000001) ^ 5)
           = true).
Proof.
  split; [reflexivity|]. split; [reflexivity|].
  split; [vm_compute; reflexivity|]. split; [vm_compute; reflexivity|].
  split; [reflexivity|]. split; [vm_compute; reflexivity|]. split.
  - intros i Hi. apply Bool.eqb_prop.
    apply (all_below_spec 256 _ i baseLUT_sRGB_entries_checked). lia.
  - intros i Hi.
    pose proof (all_below_spec 256 _ i baseLUT_sRGB_misplaced_checked
                  ltac:(lia)) as H.
    cbv beta in H.
    assert (Hm : misplaced i = true)
      by (unfold misplaced; apply andb_true_intro; split; lia).
    rewrite Hm in H. cbn [implb] in H.
    repeat (apply andb_prop in H; destruct H as [H ?]).
    repeat split; assumption.
Qed.

(* ================================================================== *)
(** * Part III: further properties of the three files                 *)
(* ================================================================== *)

(** ** Col4: words, bytes and the 64-bit halves *)

Lemma is_lane_cases (o : Z) : is_lane o -> o = 0 \/ o = 1 \/ o = 2 \/ o = 3.
Proof. unfold is_lane. lia. Qed.

Lemma lo16_words (l h : Z) :
  0 <= l < 2 ^ 16 -> SSE.lo16 (SSE.words l h) = l.
Proof.
  intros Hl. unfold SSE.lo16, SSE.words.
  replace (l + 2 ^ 16 * h) with (l + h * 2 ^ 16) by lia.
  rewrite Z.mod_add by lia. apply Z.mod_small. lia.
Qed.

Lemma hi16_words (l h : Z) :
  0 <= l < 2 ^ 16 -> 0 <= h < 2 ^ 16 -> SSE.hi16 (SSE.words l h) = h.
Proof.
  intros Hl Hh. unfold SSE.hi16, SSE.words.
  replace (l + 2 ^ 16 * h) with (l + h * 2 ^ 16) by lia.
  rewrite Z.div_add by lia.
  rewrite (Z.div_small l) by lia. rewrite Z.add_0_l. apply Z.mod_small. lia.
Qed.

Lemma sat_i16_range (x : Z) : 0 <= SSE.sat_i16 x < 2 ^ 16.
Proof. unfold SSE.sat_i16, SSE.wrap16. apply Z.mod_pos_bound. lia. Qed.

Lemma sat_u8_range (x : Z) : 0 <= SSE.sat_u8 x < 2 ^ 8.
Proof.
  unfold SSE.sat_u8. destruct (x <? 0) eqn:E1; [lia|].
  destruct (255 <? x) eqn:E2; lia.
Qed.

(** Saturating to a short and then to a byte is clamping to a byte. *)
Lemma sat_u8_sat_i16 (x : Z) :
  SSE.sat_u8 (SSE.signed16 (SSE.sat_i16 x)) = clamp_byte x.
Proof.
  unfold SSE.sat_u8, SSE.signed16, SSE.sat_i16, SSE.wrap16, clamp_byte.
  destruct (x <? - 2 ^ 15) eqn:E1.
  - change ((- 2 ^ 15) mod 2 ^ 16) with 32768. cbn. lia.
  - destruct (2 ^ 15 - 1 <? x) eqn:E2.
    + change ((2 ^ 15 - 1) mod 2 ^ 16) with 32767. cbn. lia.
    + apply Z.ltb_ge in E1. apply Z.ltb_ge in E2.
      destruct (Z.neg_nonneg_cases x) as [Hn|Hp].
      * replace (x mod 2 ^ 16) with (x + 2 ^ 16).
        2:{ apply Z.mod_unique with (q := -1); lia. }
        destruct (x + 2 ^ 16 <? 2 ^ 15) eqn:E3; [lia|].
        replace (x + 2 ^ 16 - 2 ^ 16) with x by lia.
        destruct (x <? 0) eqn:E4; lia.
      * rewrite Z.mod_small by lia.
        destruct (x <? 2 ^ 15) eqn:E3; [|lia].
        destruct (x <? 0) eqn:E4; [lia|].
        destruct (255 <? x) eqn:E5; lia.
Qed.

Lemma byte_of_bytes (b0 b1 b2 b3 : Z) :
  0 <= b0 < 2 ^ 8 -> 0 <= b1 < 2 ^ 8 -> 0 <= b2 < 2 ^ 8 -> 0 <= b3 < 2 ^ 8 ->
  int_bytes (SSE.signed32 (SSE.bytes b0 b1 b2 b3)) = Quad b0 b1 b2 b3.
Proof.
  intros H0 H1 H2 H3.
  assert (Hr : 0 <= SSE.bytes b0 b1 b2 b3 < 2 ^ 32)
    by (unfold SSE.bytes; lia).
  assert (Hw : SSE.wrap32 (SSE.signed32 (SSE.bytes b0 b1 b2 b3))
               = SSE.bytes b0 b1 b2 b3).
  { unfold SSE.wrap32, SSE.signed32.
    destruct (SSE.bytes b0 b1 b2 b3 <? 2 ^ 31).
    - apply Z.mod_small; lia.
    - symmetry. apply Z.mod_unique with (q := -1); lia. }
  unfold int_bytes. rewrite Hw. unfold SSE.byte_of, SSE.bytes.
  change (8 * 0) with 0. change (8 * 1) with 8. change (8 * 2) with 16.
  change (8 * 3) with 24.
  f_equal.
  - rewrite Z.pow_0_r, Z.div_1_r.
    replace (b0 + 2 ^ 8 * b1 + 2 ^ 16 * b2 + 2 ^ 24 * b3)
      with (b0 + (b1 + 2 ^ 8 * b2 + 2 ^ 16 * b3) * 256) by lia.
    rewrite Z.mod_add by lia. apply Z.mod_small; lia.
  - replace (b0 + 2 ^ 8 * b1 + 2 ^ 16 * b2 + 2 ^ 24 * b3)
      with (b0 + (b1 + (b2 + 2 ^ 8 * b3) * 256) * 2 ^ 8) by lia.
    rewrite Z.div_add by lia. rewrite (Z.div_small b0) by lia.
    rewrite Z.add_0_l, Z.mod_add by lia. apply Z.mod_small; lia.
  - replace (b0 + 2 ^ 8 * b1 + 2 ^ 16 * b2 + 2 ^ 24 * b3)
      with ((b0 + 2 ^ 8 * b1) + (b2 + b3 * 256) * 2 ^ 16) by lia.
    rewrite Z.div_add by lia. rewrite (Z.div_small (b0 + 2 ^ 8 * b1)) by lia.
    rewrite Z.add_0_l, Z.mod_add by lia. apply Z.mod_small; lia.
  - replace (b0 + 2 ^ 8 * b1 + 2 ^ 16 * b2 + 2 ^ 24 * b3)
      with ((b0 + 2 ^ 8 * b1 + 2 ^ 16 * b2) + b3 * 2 ^ 24) by lia.
    rewrite Z.div_add by lia.
    rewrite (Z.div_small (b0 + 2 ^ 8 * b1 + 2 ^ 16 * b2)) by lia.
    rewrite Z.add_0_l. apply Z.mod_small; lia.
Qed.

Lemma wrap16_small (x : Z) : 0 <= x < 2 ^ 16 -> SSE.wrap16 x = x.
Proof. intros. unfold SSE.wrap16. now apply Z.mod_small. Qed.

Lemma lo16_hi16_small (x : Z) :
  0 <= x < 2 ^ 16 -> SSE.lo16 x = x /\ SSE.hi16 x = 0.
Proof.
  intros H. unfold SSE.lo16, SSE.hi16. rewrite Z.mod_small by lia.
  now rewrite Z.div_small by lia.
Qed.

(** The words of a lane that holds a negative [short] sign-extended. *)
Lemma lo16_hi16_negative (x : Z) :
  2 ^ 32 - 2 ^ 15 <= x < 2 ^ 32 ->
  SSE.lo16 x = x - (2 ^ 32 - 2 ^ 16) /\ SSE.hi16 x = 2 ^ 16 - 1.
Proof.
  intros H. unfold SSE.lo16, SSE.hi16. split.
  - symmetry. apply Z.mod_unique with (q := 2 ^ 16 - 1); lia.
  - replace (x / 2 ^ 16) with (2 ^ 16 - 1).
    + reflexivity.
    + apply Z.div_unique with (r := x - (2 ^ 32 - 2 ^ 16)); lia.
Qed.

Lemma Clamp_lane (x : Z) :
  SSE.word_op Z.min 255 (SSE.word_op Z.max 0 x)
  = SSE.words
      (SSE.wrap16 (Z.min 255 (SSE.signed16
         (SSE.wrap16 (Z.max 0 (SSE.signed16 (SSE.lo16 x)))))))
      (SSE.wrap16 (Z.min 0 (SSE.signed16
         (SSE.wrap16 (Z.max 0 (SSE.signed16 (SSE.hi16 x))))))).
Proof.
  unfold SSE.word_op.
  assert (R1 : 0 <= SSE.wrap16 (Z.max (SSE.signed16 (SSE.lo16 0))
                                   (SSE.signed16 (SSE.lo16 x))) < 2 ^ 16)
    by (apply Z.mod_pos_bound; lia).
  assert (R2 : 0 <= SSE.wrap16 (Z.max (SSE.signed16 (SSE.hi16 0))
                                   (SSE.signed16 (SSE.hi16 x))) < 2 ^ 16)
    by (apply Z.mod_pos_bound; lia).
  rewrite lo16_words, hi16_words by assumption.
  reflexivity.
Qed.

Lemma wrap32_add (x y : Z) :
  SSE.wrap32 (SSE.wrap32 x + SSE.wrap32 y) = SSE.wrap32 (x + y).
Proof. unfold SSE.wrap32. now rewrite <- Zplus_mod. Qed.

Lemma wrap32_small (x : Z) : 0 <= x < 2 ^ 32 -> SSE.wrap32 x = x.
Proof. intros. unfold SSE.wrap32. now apply Z.mod_small. Qed.

Lemma insert_rgba_lanes (r g b a : Z) :
  Col4.insert_rgba r g b a
  = Quad (SSE.wrap16 r) (SSE.wrap16 g) (SSE.wrap16 b) (SSE.wrap16 a).
Proof.
  unfold Col4.insert_rgba, SSE._mm_insert_epi16, SSE._mm_setzero_si128, splat.
  cbn [set_lane lane Z.div Z.eqb Z.even lane0 lane1 lane2 lane3 Z.div_eucl
       Z.pos_div_eucl Z.leb Z.compare Pos.compare Pos.compare_cont Z.ltb
       Z.sub Z.add Z.opp Z.pos_sub Z.mul Pos.mul Pos.add Pos.succ fst snd
       Z.succ_double Z.pred_double Z.double Pos.pred_double Pos.eqb].
  unfold SSE.words. change (SSE.hi16 0) with 0.
  f_equal; lia.
Qed.

Lemma pow2_lane_checked :
  all_below 32 (fun e => pow2_lane e =? 2 ^ e) = true.
Proof. vm_compute. reflexivity. Qed.

Lemma pow2_lane_spec (e : Z) : 0 <= e <= 31 -> pow2_lane e = 2 ^ e.
Proof.
  intros He. apply Z.eqb_eq.
  apply (all_below_spec 32 _ e pow2_lane_checked). lia.
Qed.

(** *** The register as two 64-bit halves *)

Lemma lo64_range (a : Col4.t) : lanes32 a -> 0 <= SSE.lo64 a < 2 ^ 64.
Proof. intros (H0 & H1 & _). unfold SSE.lo64. lia. Qed.


Lemma pair32_low (x y : Z) : 0 <= x < 2 ^ 32 -> (x + 2 ^ 32 * y) mod 2 ^ 32 = x.
Proof.
  intros H. replace (x + 2 ^ 32 * y) with (x + y * 2 ^ 32) by lia.
  rewrite Z.mod_add by lia. now apply Z.mod_small.
Qed.

Lemma pair32_high (x y : Z) : 0 <= x < 2 ^ 32 -> (x + 2 ^ 32 * y) / 2 ^ 32 = y.
Proof.
  intros H. replace (x + 2 ^ 32 * y) with (x + y * 2 ^ 32) by lia.
  rewrite Z.div_add by lia. rewrite Z.div_small by lia. lia.
Qed.


Lemma of_halves_lanes32 (l h : Z) : lanes32 (SSE.of_halves l h).
Proof.
  unfold lanes32, all_lanes, SSE.of_halves. cbn [lane0 lane1 lane2 lane3].
  repeat split; apply Z.mod_pos_bound; lia.
Qed.

Lemma lo64_of_halves (l h : Z) :
  0 <= l < 2 ^ 64 -> SSE.lo64 (SSE.of_halves l h) = l.
Proof.
  intros H. unfold SSE.lo64, SSE.of_halves. cbn [lane0 lane1].
  rewrite (Z.mod_small (l / 2 ^ 32)).
  - pose proof (Z.div_mod l (2 ^ 32)). lia.
  - split; [apply Z.div_pos; lia|].
    apply Z.div_lt_upper_bound; lia.
Qed.

Lemma hi64_of_halves (l h : Z) :
  0 <= h < 2 ^ 64 -> SSE.hi64 (SSE.of_halves l h) = h.
Proof.
  intros H. unfold SSE.hi64, SSE.of_halves. cbn [lane2 lane3].
  rewrite (Z.mod_small (h / 2 ^ 32)).
  - pose proof (Z.div_mod h (2 ^ 32)). lia.
  - split; [apply Z.div_pos; lia|].
    apply Z.div_lt_upper_bound; lia.
Qed.

(** Bit [i] of a pair of 32-bit lanes. *)
Lemma testbit_pair32 (x y i : Z) :
  0 <= x < 2 ^ 32 -> 0 <= i ->
  Z.testbit (x + 2 ^ 32 * y) i
  = if i <? 32 then Z.testbit x i else Z.testbit y (i - 32).
Proof.
  intros Hx Hi. destruct (Z.ltb_spec i 32).
  - rewrite <- (Z.mod_pow2_bits_low (x + 2 ^ 32 * y) 32 i) by lia.
    now rewrite pair32_low.
  - rewrite <- (pair32_high x y Hx) at 2.
    rewrite Z.div_pow2_bits by lia. f_equal. lia.
Qed.

Lemma pair32_bitwise (f : bool -> bool -> bool) (op : Z -> Z -> Z)
  (x y x' y' : Z) :
  (forall a b i, 0 <= i -> Z.testbit (op a b) i
                           = f (Z.testbit a i) (Z.testbit b i)) ->
  (forall a b, 0 <= a < 2 ^ 32 -> 0 <= b < 2 ^ 32 -> 0 <= op a b < 2 ^ 32) ->
  0 <= x < 2 ^ 32 -> 0 <= x' < 2 ^ 32 -> 0 <= y < 2 ^ 32 -> 0 <= y' < 2 ^ 32 ->
  op x x' + 2 ^ 32 * op y y' = op (x + 2 ^ 32 * y) (x' + 2 ^ 32 * y').
Proof.
  intros Hbit Hrange Hx Hx' Hy Hy'.
  apply Z.bits_inj'. intros i Hi.
  rewrite Hbit, !testbit_pair32 by (try apply Hrange; assumption).
  destruct (Z.ltb_spec i 32); rewrite Hbit; try reflexivity; lia.
Qed.

Lemma land_range32 (a b : Z) :
  0 <= a < 2 ^ 32 -> 0 <= b < 2 ^ 32 -> 0 <= Z.land a b < 2 ^ 32.
Proof.
  intros Ha Hb.
  replace (Z.land a b) with (Z.land a b mod 2 ^ 32);
    [apply Z.mod_pos_bound; lia|].
  rewrite <- Z.land_ones, <- Z.land_assoc, Z.land_ones by lia.
  now rewrite (Z.mod_small b) by lia.
Qed.

Lemma lor_range32 (a b : Z) :
  0 <= a < 2 ^ 32 -> 0 <= b < 2 ^ 32 -> 0 <= Z.lor a b < 2 ^ 32.
Proof.
  intros Ha Hb.
  replace (Z.lor a b) with (Z.lor a b mod 2 ^ 32);
    [apply Z.mod_pos_bound; lia|].
  rewrite <- Z.land_ones, Z.land_lor_distr_l, !Z.land_ones by lia.
  now rewrite (Z.mod_small a), (Z.mod_small b) by lia.
Qed.

Lemma pair32_land (x y x' y' : Z) :
  0 <= x < 2 ^ 32 -> 0 <= x' < 2 ^ 32 -> 0 <= y < 2 ^ 32 -> 0 <= y' < 2 ^ 32 ->
  Z.land x x' + 2 ^ 32 * Z.land y y'
  = Z.land (x + 2 ^ 32 * y) (x' + 2 ^ 32 * y').
Proof.
  apply (pair32_bitwise andb Z.land);
    [intros; apply Z.land_spec|apply land_range32].
Qed.

Lemma pair32_lor (x y x' y' : Z) :
  0 <= x < 2 ^ 32 -> 0 <= x' < 2 ^ 32 -> 0 <= y < 2 ^ 32 -> 0 <= y' < 2 ^ 32 ->
  Z.lor x x' + 2 ^ 32 * Z.lor y y'
  = Z.lor (x + 2 ^ 32 * y) (x' + 2 ^ 32 * y').
Proof.
  apply (pair32_bitwise orb Z.lor);
    [intros; apply Z.lor_spec|apply lor_range32].
Qed.

Lemma halves_land (a b : Col4.t) :
  lanes32 a -> lanes32 b ->
  SSE._mm_and_si128 a b
  = SSE.of_halves (Z.land (SSE.lo64 a) (SSE.lo64 b))
                  (Z.land (SSE.hi64 a) (SSE.hi64 b)).
Proof.
  intros Ha Hb.
  destruct a as [a0 a1 a2 a3], b as [b0 b1 b2 b3].
  destruct Ha as (A0 & A1 & A2 & A3), Hb as (B0 & B1 & B2 & B3).
  cbn [lane0 lane1 lane2 lane3] in *.
  unfold SSE.lo64, SSE.hi64; cbn [lane0 lane1 lane2 lane3].
  rewrite <- !pair32_land by assumption.
  pose proof (land_range32 a0 b0 A0 B0). pose proof (land_range32 a1 b1 A1 B1).
  pose proof (land_range32 a2 b2 A2 B2). pose proof (land_range32 a3 b3 A3 B3).
  unfold SSE._mm_and_si128, map2, SSE.of_halves.
  cbn [lane0 lane1 lane2 lane3].
  rewrite !pair32_low, !pair32_high by assumption.
  f_equal; symmetry; apply Z.mod_small; assumption.
Qed.

Lemma halves_lor (a b : Col4.t) :
  lanes32 a -> lanes32 b ->
  SSE._mm_or_si128 a b
  = SSE.of_halves (Z.lor (SSE.lo64 a) (SSE.lo64 b))
                  (Z.lor (SSE.hi64 a) (SSE.hi64 b)).
Proof.
  intros Ha Hb.
  destruct a as [a0 a1 a2 a3], b as [b0 b1 b2 b3].
  destruct Ha as (A0 & A1 & A2 & A3), Hb as (B0 & B1 & B2 & B3).
  cbn [lane0 lane1 lane2 lane3] in *.
  unfold SSE.lo64, SSE.hi64; cbn [lane0 lane1 lane2 lane3].
  rewrite <- !pair32_lor by assumption.
  pose proof (lor_range32 a0 b0 A0 B0). pose proof (lor_range32 a1 b1 A1 B1).
  pose proof (lor_range32 a2 b2 A2 B2). pose proof (lor_range32 a3 b3 A3 B3).
  unfold SSE._mm_or_si128, map2, SSE.of_halves.
  cbn [lane0 lane1 lane2 lane3].
  rewrite !pair32_low, !pair32_high by assumption.
  f_equal; symmetry; apply Z.mod_small; assumption.
Qed.
Lemma mask_base_checked :
  all_below 64
    (fun k => Z.lxor (2 ^ 64 - 1) (((2 ^ 64 - 1) * 2 ^ Z.land k 63) mod 2 ^ 64)
              =? 2 ^ k - 1) = true.
Proof. vm_compute. reflexivity. Qed.

Lemma mask_base_spec (n p : Z) :
  0 <= p + n < 64 -> Col4.mask_base n p = 2 ^ (p + n) - 1.
Proof.
  intros H. unfold Col4.mask_base. apply Z.eqb_eq.
  apply (all_below_spec 64 _ (p + n) mask_base_checked). lia.
Qed.

Lemma ones_quotient_checked :
  all_below 64 (fun c => (2 ^ 64 - 1) / 2 ^ c =? 2 ^ (64 - c) - 1) = true.
Proof. vm_compute. reflexivity. Qed.

Lemma land_low_bits (x k : Z) : 0 <= k -> Z.land x (2 ^ k - 1) = x mod 2 ^ k.
Proof.
  intros Hk. rewrite <- Z.land_ones by assumption.
  now rewrite Z.ones_equiv, <- Z.sub_1_r.
Qed.

(** [a & mask] for the mask with the low [k] bits of the low half set. *)
Lemma and_low_mask (a : Col4.t) (k : Z) :
  lanes32 a -> 0 <= k <= 64 ->
  SSE._mm_and_si128 a (SSE.of_halves (2 ^ k - 1) 0)
  = SSE.of_halves (SSE.lo64 a mod 2 ^ k) 0.
Proof.
  intros Ha Hk.
  assert (Hp : 0 < 2 ^ k <= 2 ^ 64)
    by (split; [apply Z.pow_pos_nonneg; lia|apply Z.pow_le_mono_r; lia]).
  rewrite halves_land by (try assumption; apply of_halves_lanes32).
  rewrite lo64_of_halves, hi64_of_halves by lia.
  now rewrite Z.land_0_r, land_low_bits by lia.
Qed.

Lemma static_mask (k : Z) :
  SSE._mm_setr_epi32 (Z.shiftr (2 ^ k - 1) 0) (Z.shiftr (2 ^ k - 1) 32) 0 0
  = SSE.of_halves (2 ^ k - 1) 0.
Proof.
  unfold SSE._mm_setr_epi32, SSE.of_halves, SSE.wrap32.
  rewrite Z.shiftr_0_r, Z.shiftr_div_pow2 by lia. reflexivity.
Qed.

Lemma MaskBits_low (n p : Z) (a : Col4.t) :
  lanes32 a -> 0 < p + n < 64 ->
  Col4.MaskBits n p a = SSE.of_halves (SSE.lo64 a mod 2 ^ (p + n)) 0.
Proof.
  intros Ha Hk. unfold Col4.MaskBits.
  destruct (Z.leb_spec (p + n) 0); [lia|].
  destruct (Z.leb_spec 64 (p + n)); [lia|].
  cbv zeta. rewrite mask_base_spec by lia.
  rewrite static_mask. apply and_low_mask; [assumption|lia].
Qed.

(** The shift count the [int] form of [MaskBits] builds. *)
Lemma max_epi16_count (val : Z) :
  - 2 ^ 15 <= val < 2 ^ 15 ->
  SSE._mm_max_epi16 (SSE._mm_cvtsi32_si128 val) (SSE._mm_set1_epi32 0)
  = Quad (Z.max val 0) 0 0 0.
Proof.
  intros H.
  unfold SSE._mm_max_epi16, SSE._mm_cvtsi32_si128, SSE._mm_set1_epi32, splat,
    map2. cbn [lane0 lane1 lane2 lane3].
  change (SSE.wrap32 0) with 0.
  change (SSE.word_op Z.max 0 0) with 0. f_equal.
  unfold SSE.word_op. change (SSE.lo16 0) with 0. change (SSE.hi16 0) with 0.
  change (SSE.signed16 0) with 0.
  destruct (Z.neg_nonneg_cases val) as [Hn|Hp].
  - assert (Hw : SSE.wrap32 val = val + 2 ^ 32).
    { unfold SSE.wrap32. symmetry.
      apply Z.mod_unique with (q := -1); lia. }
    rewrite Hw.
    destruct (lo16_hi16_negative (val + 2 ^ 32) ltac:(lia)) as (-> & ->).
    unfold SSE.signed16.
    destruct (val + 2 ^ 32 - (2 ^ 32 - 2 ^ 16) <? 2 ^ 15) eqn:E; [lia|].
    change (2 ^ 16 - 1 <? 2 ^ 15) with false. cbv iota.
    rewrite !Z.max_r by lia. reflexivity.
  - rewrite wrap32_small by lia.
    destruct (lo16_hi16_small val ltac:(lia)) as (-> & ->).
    unfold SSE.signed16. destruct (val <? 2 ^ 15) eqn:E; [|lia].
    change (0 <? 2 ^ 15) with true. cbv iota.
    rewrite !Z.max_l by lia. change (SSE.wrap16 0) with 0.
    rewrite wrap16_small by lia. unfold SSE.words. lia.
Qed.

Lemma dynamic_mask (k : Z) :
  - 2 ^ 14 <= k <= 2 ^ 14 ->
  SSE._mm_srl_epi64 (SSE._mm_setr_epi32 4294967295 4294967295 0 0)
    (SSE._mm_max_epi16 (SSE._mm_cvtsi32_si128 (64 - k))
                       (SSE._mm_set1_epi32 0))
  = if k <=? 0 then splat 0
    else SSE.of_halves (2 ^ Z.min k 64 - 1) 0.
Proof.
  intros Hk. rewrite max_epi16_count by lia.
  unfold SSE._mm_srl_epi64, SSE.shift64.
  change (SSE.lo64 (Quad (Z.max (64 - k) 0) 0 0 0))
    with (Z.max (64 - k) 0 + 2 ^ 32 * 0).
  rewrite Z.mul_0_r, Z.add_0_r.
  change (SSE.lo64 (SSE._mm_setr_epi32 4294967295 4294967295 0 0))
    with (2 ^ 64 - 1).
  change (SSE.hi64 (SSE._mm_setr_epi32 4294967295 4294967295 0 0)) with 0.
  destruct (Z.leb_spec k 0).
  - rewrite Z.max_l by lia.
    destruct (Z.leb_spec 0 (64 - k)); [|lia].
    destruct (Z.ltb_spec (64 - k) 64); [lia|]. reflexivity.
  - destruct (Z.leb_spec 0 (Z.max (64 - k) 0)); [|lia].
    destruct (Z.ltb_spec (Z.max (64 - k) 0) 64); [|lia].
    cbn [andb]. rewrite Z.div_0_l
      by (apply Z.pow_nonzero; lia).
    f_equal.
    pose proof (all_below_spec 64 _ (Z.max (64 - k) 0) ones_quotient_checked
                  ltac:(lia)) as Hq.
    apply Z.eqb_eq in Hq. rewrite Hq. f_equal. f_equal. lia.
Qed.

Lemma MaskBits_int_low (n p : Z) (a : Col4.t) :
  lanes32 a -> - 2 ^ 14 <= p + n <= 2 ^ 14 ->
  Col4.MaskBits_int a n p
  = if p + n <=? 0 then splat 0
    else SSE.of_halves (SSE.lo64 a mod 2 ^ Z.min (p + n) 64) 0.
Proof.
  intros Ha Hk. unfold Col4.MaskBits_int. cbv zeta.
  rewrite dynamic_mask by assumption.
  destruct (Z.leb_spec (p + n) 0).
  - destruct a as [a0 a1 a2 a3].
    unfold SSE._mm_and_si128, map2, splat; cbn [lane0 lane1 lane2 lane3].
    now rewrite !Z.land_0_r.
  - apply and_low_mask; [assumption|lia].
Qed.

Lemma testbit_pair (p x y i : Z) :
  0 <= p -> 0 <= x < 2 ^ p -> 0 <= i ->
  Z.testbit (x + 2 ^ p * y) i
  = if i <? p then Z.testbit x i else Z.testbit y (i - p).
Proof.
  intros Hp Hx Hi.
  replace (x + 2 ^ p * y) with (x + y * 2 ^ p) by lia.
  destruct (Z.ltb_spec i p).
  - rewrite <- (Z.mod_pow2_bits_low (x + y * 2 ^ p) p i) by lia.
    rewrite Z.mod_add by lia. now rewrite Z.mod_small by lia.
  - replace (Z.testbit y (i - p))
      with (Z.testbit ((x + y * 2 ^ p) / 2 ^ p) (i - p)).
    + rewrite Z.div_pow2_bits by lia. f_equal. lia.
    + rewrite Z.div_add by lia. rewrite Z.div_small by lia. reflexivity.
Qed.

(** Disjoint bit ranges: [|] is [+]. *)
Lemma lor_disjoint (p x y : Z) :
  0 <= p -> 0 <= x < 2 ^ p -> Z.lor x (2 ^ p * y) = x + 2 ^ p * y.
Proof.
  intros Hp Hx. apply Z.bits_inj'. intros i Hi.
  assert (P : 0 < 2 ^ p) by (apply Z.pow_pos_nonneg; lia).
  rewrite testbit_pair, Z.lor_spec by assumption.
  replace (2 ^ p * y) with (0 + 2 ^ p * y) by lia.
  rewrite (testbit_pair p 0 y i) by lia.
  rewrite Z.bits_0.
  destruct (Z.ltb_spec i p).
  - apply orb_false_r.
  - destruct (Z.eq_dec x 0) as [->|Hne]; [now rewrite Z.bits_0|].
    rewrite (Z.bits_above_log2 x i); [reflexivity|lia|].
    apply Z.lt_le_trans with p; [apply Z.log2_lt_pow2; lia|lia].
Qed.

Lemma pow2_split (p n : Z) : 0 <= p -> 0 <= n -> 2 ^ (p + n) = 2 ^ p * 2 ^ n.
Proof. intros. now rewrite Z.pow_add_r. Qed.

Lemma CopyBits_value (cfg : BuildConfig) (x : SSE4a) (n p : Z)
  (left right : Col4.t) :
  negb (SQUISH_USE_XSSE cfg =? 4) = true ->
  lanes32 left -> lanes32 right ->
  0 < n -> 0 < p -> p + n < 64 ->
  Col4.CopyBits cfg x n p left right
  = SSE.of_halves
      (SSE.lo64 left mod 2 ^ p + 2 ^ p * (SSE.lo64 right mod 2 ^ n)) 0.
Proof.
  intros Hcfg Hl Hr Hn Hp Hpn.
  apply negb_true_iff in Hcfg.
  assert (P1 : 0 < 2 ^ p) by (apply Z.pow_pos_nonneg; lia).
  assert (P2 : 0 < 2 ^ n) by (apply Z.pow_pos_nonneg; lia).
  assert (P3 : 2 ^ (p + n) <= 2 ^ 64) by (apply Z.pow_le_mono_r; lia).
  pose proof (pow2_split p n ltac:(lia) ltac:(lia)) as Hsplit.
  unfold Col4.CopyBits. rewrite Hcfg.
  destruct (Z.eqb_spec n 0); [lia|]. destruct (Z.eqb_spec p 0); [lia|].
  destruct (Z.leb_spec 64 (p + n)); [lia|].
  unfold Col4.ShiftLeftHalf, SSE._mm_slli_epi64, SSE.shift64.
  destruct (Z.ltb_spec 0 p); [|lia].
  destruct (Z.leb_spec 0 p); [|lia]. destruct (Z.ltb_spec p 64); [|lia].
  cbn [andb].
  rewrite (MaskBits_low p 0) by (try assumption; lia).
  rewrite (MaskBits_low n p) by (try apply of_halves_lanes32; lia).
  rewrite lo64_of_halves by (apply Z.mod_pos_bound; lia).
  rewrite Z.add_0_l.
  unfold Col4.bor.
  rewrite halves_lor by apply of_halves_lanes32.
  pose proof (Z.mod_pos_bound (SSE.lo64 left) (2 ^ p) P1).
  pose proof (Z.mod_pos_bound (SSE.lo64 right) (2 ^ n) P2).
  assert (Hshift : (SSE.lo64 right * 2 ^ p) mod 2 ^ 64 mod 2 ^ (p + n)
                   = 2 ^ p * (SSE.lo64 right mod 2 ^ n)).
  { rewrite Z.mod_mod_divide.
    - rewrite Hsplit, (Z.mul_comm (SSE.lo64 right)).
      apply Z.mul_mod_distr_l; lia.
    - exists (2 ^ (64 - (p + n))). rewrite <- Z.pow_add_r by lia.
      f_equal. lia. }
  rewrite Hshift.
  rewrite !lo64_of_halves, !hi64_of_halves by nia.
  rewrite Z.lor_0_r. now rewrite lor_disjoint by lia.
Qed.





Lemma SetRGBApow2_lanes (inv r g b a : Z) :
  0 <= inv < 2 ^ 31 ->
  all_lanes (fun x => 0 <= x < 2 ^ 16 /\ 0 <= pow2_exponent inv x <= 31)
            (Quad r g b a) ->
  Col4.SetRGBApow2 inv r g b a
  = Quad (2 ^ pow2_exponent inv r) (2 ^ pow2_exponent inv g)
         (2 ^ pow2_exponent inv b) (2 ^ pow2_exponent inv a).
Proof.
  intros Hinv ((Hr & Er) & (Hg & Eg) & (Hb & Eb) & (Ha & Ea)).
  cbn [lane0 lane1 lane2 lane3] in *.
  unfold Col4.SetRGBApow2. rewrite insert_rgba_lanes.
  rewrite !wrap16_small by assumption.
  unfold SSEf._mm_cvttps_epi32, SSEf._mm_castsi128_ps, SSE._mm_add_epi32,
    SSEf._mm_castps_si128, SSEf._mm_set1_ps, SSE._mm_slli_epi32,
    SSE._mm_sub_epi32, SSE._mm_set1_epi32, splat, map1, map2.
  change ((0 <=? 23) && (23 <? 32)) with true. cbv iota.
  unfold pow2_exponent in *.
  destruct (inv =? 0) eqn:Einv; cbn [negb lane0 lane1 lane2 lane3].
  - f_equal; now apply pow2_lane_spec.
  - rewrite (wrap32_small inv) by lia.
    rewrite !(wrap32_small (inv - _)) by lia.
    f_equal; now apply pow2_lane_spec.
Qed.

(** The two saturating packs of [PackBytes] compose to one clamp. *)
Lemma PackBytes_bytes (a : Col4.t) :
  int_bytes (Col4.PackBytes a) = map1 (fun x => clamp_byte (SSE.signed32 x)) a.
Proof.
  destruct a as [a0 a1 a2 a3].
  unfold Col4.PackBytes, SSE._mm_cvtsi128_si32, SSE._mm_packus_epi16,
    SSE._mm_packs_epi32, map1.
  cbn [lane0 lane1 lane2 lane3].
  pose proof (sat_i16_range (SSE.signed32 a0)).
  pose proof (sat_i16_range (SSE.signed32 a1)).
  pose proof (sat_i16_range (SSE.signed32 a2)).
  pose proof (sat_i16_range (SSE.signed32 a3)).
  rewrite !lo16_words, !hi16_words by assumption.
  rewrite !sat_u8_sat_i16.
  apply byte_of_bytes; unfold clamp_byte; lia.
Qed.

(** ** Col4: comparisons, packing, clamping, lane moves *)

(** X1.  [CompareAllEqualTo] on Col4 answers true exactly when the two
    registers are equal in all four 32-bit lanes. *)
Theorem Col4_CompareAllEqualTo_tests_equality (left right : Col4.t) :
  Col4.CompareAllEqualTo left right = true <-> left = right.
Proof.
  destruct left as [l0 l1 l2 l3], right as [r0 r1 r2 r3].
  unfold Col4.CompareAllEqualTo, SSE._mm_cmpeq_epi32, SSE._mm_movemask_epi8,
    map2.
  cbn [lane0 lane1 lane2 lane3].
  destruct (Z.eqb_spec l0 r0), (Z.eqb_spec l1 r1),
           (Z.eqb_spec l2 r2), (Z.eqb_spec l3 r3);
    rewrite ?msb4_ones, ?msb4_zero; cbn; split; intros H;
    try discriminate; try congruence; injection H; intros; congruence.
Qed.

(** X2.  [PackBytes] writes the [int] whose four bytes, lowest first, are
    the four lanes read as signed 32-bit numbers and clamped to [0, 255]:
    the two saturating packs compose to one clamp. *)
Theorem Col4_PackBytes_clamps (a : Col4.t) :
  int_bytes (Col4.PackBytes a) = map1 (fun x => clamp_byte (SSE.signed32 x)) a.
Proof. apply PackBytes_bytes. Qed.

(** X3.  [Col4::Clamp] works on 16-bit words.  Lanes that hold a value of
    the signed 16-bit range (0 .. 32767, or -32768 .. -1 sign-extended) are
    clamped to [0, 255]; a lane holding 32768 .. 65535 is taken for a
    negative word and becomes 0, not 255. *)
Theorem Col4_Clamp_is_16_bit (v : Col4.t) :
  (all_lanes (fun x => 0 <= x < 2 ^ 15 \/ 2 ^ 32 - 2 ^ 15 <= x < 2 ^ 32) v ->
   Col4.Clamp v = map1 (fun x => clamp_byte (SSE.signed32 x)) v)
  /\ (all_lanes (fun x => 2 ^ 15 <= x < 2 ^ 16) v ->
      Col4.Clamp v = Col4.of_int 0).
Proof.
  assert (Hlow : forall x, 0 <= x < 2 ^ 15 \/ 2 ^ 32 - 2 ^ 15 <= x < 2 ^ 32 ->
            SSE.word_op Z.min 255 (SSE.word_op Z.max 0 x)
            = clamp_byte (SSE.signed32 x)).
  { intros x Hx. rewrite Clamp_lane. unfold clamp_byte, SSE.signed32.
    destruct Hx as [Hx|Hx].
    - destruct (lo16_hi16_small x ltac:(lia)) as (-> & ->).
      destruct (x <? 2 ^ 31) eqn:E; [|lia].
      unfold SSE.signed16 at 2 4.
      destruct (x <? 2 ^ 15) eqn:E1; [|lia].
      change (0 <? 2 ^ 15) with true. cbv iota.
      rewrite Z.max_r by lia. rewrite Z.max_id.
      rewrite (wrap16_small x) by lia. change (SSE.wrap16 0) with 0.
      unfold SSE.signed16. rewrite E1. change (0 <? 2 ^ 15) with true.
      cbv iota. change (Z.min 0 0) with 0. change (SSE.wrap16 0) with 0.
      rewrite wrap16_small by lia. unfold SSE.words. lia.
    - destruct (lo16_hi16_negative x Hx) as (-> & ->).
      destruct (x <? 2 ^ 31) eqn:E; [lia|].
      unfold SSE.signed16 at 2 4.
      destruct (x - (2 ^ 32 - 2 ^ 16) <? 2 ^ 15) eqn:E1; [lia|].
      change (2 ^ 16 - 1 <? 2 ^ 15) with false. cbv iota.
      rewrite !Z.max_l by lia. change (SSE.wrap16 0) with 0.
      change (SSE.signed16 0) with 0. change (Z.min 255 0) with 0.
      change (Z.min 0 0) with 0. change (SSE.wrap16 0) with 0.
      unfold SSE.words. lia. }
  assert (Hmid : forall x, 2 ^ 15 <= x < 2 ^ 16 ->
            SSE.word_op Z.min 255 (SSE.word_op Z.max 0 x) = 0).
  { intros x Hx. rewrite Clamp_lane.
    destruct (lo16_hi16_small x ltac:(lia)) as (-> & ->).
    unfold SSE.signed16 at 2 4.
    destruct (x <? 2 ^ 15) eqn:E1; [lia|].
    change (0 <? 2 ^ 15) with true. cbv iota.
    rewrite Z.max_l by lia. reflexivity. }
  destruct v as [v0 v1 v2 v3].
  unfold all_lanes, Col4.Clamp, Col4.Min, Col4.Max, SSE._mm_min_epi16,
    SSE._mm_max_epi16, Col4.of_int, SSE._mm_set1_epi32, splat, map2, map1.
  cbn [lane0 lane1 lane2 lane3].
  change (SSE.wrap32 255) with 255. change (SSE.wrap32 0) with 0.
  split.
  - intros (H0 & H1 & H2 & H3). now rewrite !Hlow.
  - intros (H0 & H1 & H2 & H3). now rewrite !Hmid.
Qed.

(** X4.  [HorizontalAdd] on Col4, with one argument and with two, puts the
    sum of all the lanes modulo 2^32 into every lane, in the builds with
    PHADDD ([SQUISH_USE_XSSE == 3]) and in the others alike. *)
Theorem Col4_HorizontalAdd_is_build_independent (cfg : BuildConfig)
  (a b : Col4.t) :
  Col4.HorizontalAdd cfg a = splat (SSE.wrap32 (lane_sum a))
  /\ Col4.HorizontalAdd2 cfg a b = splat (SSE.wrap32 (lane_sum a + lane_sum b)).
Proof.
  split; [apply Col4_HorizontalAdd_lanes|].
  destruct a as [a0 a1 a2 a3], b as [b0 b1 b2 b3].
  unfold Col4.HorizontalAdd2, lane_sum, splat.
  cbn [lane0 lane1 lane2 lane3].
  destruct (SQUISH_USE_XSSE cfg =? 3).
  - unfold Col4._mm_hadd_epi32. cbn [lane0 lane1 lane2 lane3].
    rewrite_strat (bottomup wrap32_add). f_equal; f_equal; lia.
  - unfold SSE._mm_add_epi32, SSE._mm_shuffle_epi32, map2.
    change (Z.land SQUISH_SSE_SWAP64 3) with 2.
    change (Z.land (Z.shiftr SQUISH_SSE_SWAP64 2) 3) with 3.
    change (Z.land (Z.shiftr SQUISH_SSE_SWAP64 4) 3) with 0.
    change (Z.land (Z.shiftr SQUISH_SSE_SWAP64 6) 3) with 1.
    change (Z.land SQUISH_SSE_SWAP32 3) with 3.
    change (Z.land (Z.shiftr SQUISH_SSE_SWAP32 2) 3) with 2.
    change (Z.land (Z.shiftr SQUISH_SSE_SWAP32 4) 3) with 1.
    change (Z.land (Z.shiftr SQUISH_SSE_SWAP32 6) 3) with 0.
    unfold lane. cbn [Z.eqb lane0 lane1 lane2 lane3 Pos.eqb].
    rewrite_strat (bottomup wrap32_add). f_equal; f_equal; lia.
Qed.

(** X5.  [Exchange<f, t>] swaps the lanes [f] and [t] and leaves the others;
    applied twice it is the identity.  [Shuffle<f, t>] copies lane [f] into
    lane [t] and leaves the others. *)
Theorem Col4_Exchange_swaps (f t : Z) (a : Col4.t) :
  is_lane f -> is_lane t ->
  lane f (Col4.Exchange f t a) = lane t a
  /\ lane t (Col4.Exchange f t a) = lane f a
  /\ (forall o, is_lane o -> o <> f -> o <> t ->
        lane o (Col4.Exchange f t a) = lane o a)
  /\ Col4.Exchange f t (Col4.Exchange f t a) = a
  /\ lane t (Col4.Shuffle f t a) = lane f a
  /\ (forall o, is_lane o -> o <> t -> lane o (Col4.Shuffle f t a) = lane o a).
Proof.
  intros Hf Ht. destruct a as [a0 a1 a2 a3].
  destruct (is_lane_cases f Hf) as [->|[->|[->| ->]]];
  destruct (is_lane_cases t Ht) as [->|[->|[->| ->]]];
    (split; [reflexivity|]); (split; [reflexivity|]);
    (split; [intros o Ho N1 N2;
             destruct (is_lane_cases o Ho) as [->|[->|[->| ->]]];
             try reflexivity; congruence|]);
    (split; [reflexivity|]); (split; [reflexivity|]);
    intros o Ho N1; destruct (is_lane_cases o Ho) as [->|[->|[->| ->]]];
    try reflexivity; congruence.
Qed.

Lemma Col4_Exchange_swaps_witness :
  is_lane 1 /\ is_lane 3
  /\ Col4.Exchange 1 3 Sample.col_a = Col4.make 3 9 7 5
  /\ Col4.Exchange 1 3 (Col4.Exchange 1 3 Sample.col_a) = Sample.col_a.
Proof.
  assert (H1 : is_lane 1) by (unfold is_lane; lia).
  assert (H3 : is_lane 3) by (unfold is_lane; lia).
  split; [exact H1|]. split; [exact H3|]. split; [reflexivity|].
  exact (proj1 (proj2 (proj2 (proj2
           (Col4_Exchange_swaps 1 3 Sample.col_a H1 H3))))).
Defined.

(** X6.  [LoadAligned( a, b, c )] followed by [StoreAligned( a, b, c )]
    gives [c] back: [b] holds the high half of [c] in its low half, and the
    store joins the low halves of [a] and [b]. *)
Theorem Col4_LoadAligned_StoreAligned (c : Col4.t) :
  Col4.StoreAligned (fst (Col4.LoadAligned c)) (snd (Col4.LoadAligned c)) = c
  /\ SSE.lo64 (snd (Col4.LoadAligned c)) = SSE.hi64 c
  /\ SSE.hi64 (snd (Col4.LoadAligned c)) = SSE.lo64 c.
Proof. destruct c as [c0 c1 c2 c3]. repeat split. Qed.

(** X7.  [TransferA( left, right )] takes the lanes R, G, B of [left] and
    the lane A of [right].  [KillA], despite its name, keeps R, G, B and
    sets the low byte of A: the lane becomes [A | 0xFF], which reads as 255
    for an 8-bit alpha. *)
Theorem Col4_TransferA_KillA (left right : Col4.t) :
  lanes32 left -> lanes32 right ->
  Col4.TransferA left right
  = Quad (lane0 left) (lane1 left) (lane2 left) (lane3 right)
  /\ Col4.KillA left
     = Quad (lane0 left) (lane1 left) (lane2 left) (Z.lor (lane3 left) 255)
  /\ (lane3 left < 2 ^ 8 -> Col4.A (Col4.KillA left) = 255).
Proof.
  intros (L0 & L1 & L2 & L3) (R0 & R1 & R2 & R3).
  destruct left as [l0 l1 l2 l3], right as [r0 r1 r2 r3].
  cbn [lane0 lane1 lane2 lane3] in *.
  assert (Hones : forall x, 0 <= x < 2 ^ 32 -> Z.land x 4294967295 = x).
  { intros x Hx. change 4294967295 with (Z.ones 32).
    rewrite Z.land_ones by lia. apply Z.mod_small. lia. }
  unfold Col4.TransferA, Col4.KillA, SSE._mm_and_si128, SSE._mm_or_si128,
    SSE._mm_set_epi32, SSE._mm_setr_epi32, map2.
  cbn [lane0 lane1 lane2 lane3].
  change (SSE.wrap32 4294967295) with 4294967295.
  change (SSE.wrap32 0) with 0. change (SSE.wrap32 255) with 255.
  rewrite !Hones, !Z.land_0_r, !Z.lor_0_r, !Z.lor_0_l by assumption.
  split; [reflexivity|]. split; [reflexivity|].
  intros Hbyte. unfold Col4.A, SSE._mm_extract_epi16.
  change (6 / 2) with 3. change (Z.even 6) with true.
  cbn [lane Z.eqb lane3]. unfold SSE.lo16.
  assert (Hl : Z.lor l3 255 = 255).
  { apply Z.bits_inj'. intros i Hi. rewrite Z.lor_spec.
    destruct (Z.ltb_spec i 8).
    - change 255 with (Z.ones 8). rewrite Z.ones_spec_low by lia.
      apply orb_true_r.
    - rewrite (Z.bits_above_log2 l3 i).
      + reflexivity.
      + lia.
      + destruct (Z.eq_dec l3 0) as [->|Hne]; [cbn; lia|].
        apply Z.log2_lt_pow2; [lia|].
        apply Z.lt_le_trans with (2 ^ 8); [lia|].
        apply Z.pow_le_mono_r; lia. }
  rewrite Hl. reflexivity.
Qed.

Lemma Col4_TransferA_KillA_witness :
  lanes32 Sample.col_a /\ lanes32 Sample.col_b
  /\ Col4.TransferA Sample.col_a Sample.col_b = Col4.make 3 5 7 8
  /\ Col4.KillA Sample.col_a = Col4.make 3 5 7 255.
Proof.
  assert (Ha : lanes32 Sample.col_a)
    by (unfold lanes32, all_lanes; cbn; lia).
  assert (Hb : lanes32 Sample.col_b)
    by (unfold lanes32, all_lanes; cbn; lia).
  split; [exact Ha|]. split; [exact Hb|].
  destruct (Col4_TransferA_KillA Sample.col_a Sample.col_b Ha Hb)
    as (H1 & H2 & _).
  split; [exact H1|exact H2].
Defined.

(** ** Col4: powers of two, shifts and bit fields *)

(** X8.  [SetRGBApow2<inv>( r, g, b, a )] sets the lanes to the powers of
    two 2^r, 2^g, 2^b, 2^a (2^(inv - r), ... when [inv] is not 0) for
    exponents 0 .. 31, through the bits of the float 2^e.  [ShiftLeftLo],
    which multiplies by these powers with the 16-bit multiply, shifts each
    16-bit lane left and keeps the low 16 bits of the result. *)
Theorem Col4_SetRGBApow2_powers (inv r g b a : Z) (v : Col4.t) :
  0 <= inv < 2 ^ 31 ->
  all_lanes (fun x => 0 <= x < 2 ^ 16 /\ 0 <= pow2_exponent inv x <= 31)
            (Quad r g b a) ->
  Col4.SetRGBApow2 inv r g b a
  = Quad (2 ^ pow2_exponent inv r) (2 ^ pow2_exponent inv g)
         (2 ^ pow2_exponent inv b) (2 ^ pow2_exponent inv a)
  /\ (all_lanes (fun x => 0 <= x <= 31) (Quad r g b a) ->
      all_lanes (fun x => 0 <= x < 2 ^ 16) v ->
      Col4.ShiftLeftLo r g b a v
      = Quad ((lane0 v * 2 ^ r) mod 2 ^ 16) ((lane1 v * 2 ^ g) mod 2 ^ 16)
             ((lane2 v * 2 ^ b) mod 2 ^ 16) ((lane3 v * 2 ^ a) mod 2 ^ 16)).
Proof.
  intros Hinv Hargs. split; [now apply SetRGBApow2_lanes|].
  intros (Hr & Hg & Hb & Ha) (H0 & H1 & H2 & H3).
  cbn [lane0 lane1 lane2 lane3] in *.
  unfold Col4.ShiftLeftLo.
  rewrite (SetRGBApow2_lanes 0 r g b a).
  2:{ lia. }
  2:{ unfold all_lanes, pow2_exponent; cbn [lane0 lane1 lane2 lane3 Z.eqb].
      lia. }
  unfold pow2_exponent; cbn [Z.eqb].
  destruct v as [v0 v1 v2 v3]. cbn [lane0 lane1 lane2 lane3] in *.
  assert (Hl : forall x e, 0 <= x < 2 ^ 16 -> 0 <= e ->
            SSE.mullo16 x (2 ^ e) = (x * 2 ^ e) mod 2 ^ 16).
  { intros x e Hx He. unfold SSE.mullo16.
    destruct (lo16_hi16_small x Hx) as (-> & ->).
    rewrite Z.mul_0_l. change (SSE.wrap16 0) with 0.
    unfold SSE.words, SSE.wrap16, SSE.lo16.
    rewrite Z.mul_mod_idemp_r by lia. lia. }
  unfold SSE._mm_mullo_epi16, map2; cbn [lane0 lane1 lane2 lane3].
  now rewrite !Hl by lia.
Qed.

Lemma Col4_SetRGBApow2_powers_witness :
  Col4.SetRGBApow2 0 0 5 16 31 = Col4.make 1 32 65536 2147483648
  /\ Col4.SetRGBApow2 8 0 5 8 1 = Col4.make 256 8 1 128
  /\ Col4.ShiftLeftLo 0 5 16 31 (Col4.make 3 4095 1 1)
     = Col4.make 3 65504 0 0.
Proof.
  assert (H0 : 0 <= 0 < 2 ^ 31) by lia.
  assert (H8 : 0 <= 8 < 2 ^ 31) by lia.
  assert (A0 : all_lanes (fun x => 0 <= x < 2 ^ 16
                                   /\ 0 <= pow2_exponent 0 x <= 31)
                         (Quad 0 5 16 31))
    by (unfold all_lanes, pow2_exponent; cbn; lia).
  assert (A8 : all_lanes (fun x => 0 <= x < 2 ^ 16
                                   /\ 0 <= pow2_exponent 8 x <= 31)
                         (Quad 0 5 8 1))
    by (unfold all_lanes, pow2_exponent; cbn; lia).
  assert (E : all_lanes (fun x => 0 <= x <= 31) (Quad 0 5 16 31))
    by (unfold all_lanes; cbn; lia).
  assert (V : all_lanes (fun x => 0 <= x < 2 ^ 16) (Col4.make 3 4095 1 1))
    by (unfold all_lanes; cbn; lia).
  split; [|split].
  - exact (proj1 (Col4_SetRGBApow2_powers 0 0 5 16 31 (Col4.make 3 4095 1 1)
                    H0 A0)).
  - exact (proj1 (Col4_SetRGBApow2_powers 8 0 5 8 1 (Col4.make 3 4095 1 1)
                    H8 A8)).
  - exact (proj2 (Col4_SetRGBApow2_powers 0 0 5 16 31 (Col4.make 3 4095 1 1)
                    H0 A0) E V).
Defined.



(** X10.  For [p + n] between -2^14 and 2^14: [MaskBits<n, p>] keeps the
    low [p + n] bits of the low 64-bit half and clears the rest of the
    register, and the form with [int] arguments does the same, for
    0 < p + n < 64; both give zero when [p + n <= 0]; and when
    [p + n >= 64] the template form returns its argument unchanged, high
    half included, while the [int] form still clears the high half.
    Outside that range the [int] form, which takes the maximum of its shift
    count and 0 on 16-bit words, goes its own way: with [p + n] = -40000 it
    keeps the whole low half, with [p + n] = 32833 it clears the
    register. *)
Theorem Col4_MaskBits_keeps_low_bits (n p : Z) (a : Col4.t) :
  lanes32 a ->
  (0 < p + n < 64 ->
   Col4.MaskBits n p a = SSE.of_halves (SSE.lo64 a mod 2 ^ (p + n)) 0
   /\ Col4.MaskBits_int a n p = Col4.MaskBits n p a)
  /\ (- 2 ^ 14 <= p + n <= 0 ->
      Col4.MaskBits n p a = splat 0 /\ Col4.MaskBits_int a n p = splat 0)
  /\ (64 <= p + n <= 2 ^ 14 ->
      Col4.MaskBits n p a = a
      /\ Col4.MaskBits_int a n p = SSE.of_halves (SSE.lo64 a) 0)
  /\ Col4.MaskBits_int (Col4.make 255 255 255 255) (-40000) 0
     = Col4.make 255 255 0 0
  /\ Col4.MaskBits_int (Col4.make 255 255 255 255) 32833 0 = splat 0.
Proof.
  intros Ha. split; [|split; [|split; [|split]]]; try intros Hk.
  - rewrite MaskBits_low, MaskBits_int_low by (try assumption; lia).
    destruct (Z.leb_spec (p + n) 0); [lia|].
    now rewrite Z.min_l by lia.
  - rewrite MaskBits_int_low by (try assumption; lia).
    unfold Col4.MaskBits.
    destruct (Z.leb_spec (p + n) 0); [|lia]. split; reflexivity.
  - rewrite MaskBits_int_low by (try assumption; lia).
    unfold Col4.MaskBits.
    destruct (Z.leb_spec (p + n) 0); [lia|].
    destruct (Z.leb_spec 64 (p + n)); [|lia].
    split; [reflexivity|].
    rewrite Z.min_r by lia.
    now rewrite Z.mod_small by (apply lo64_range; assumption).
  - vm_compute. reflexivity.
  - vm_compute. reflexivity.
Qed.

Lemma Col4_MaskBits_keeps_low_bits_witness :
  lanes32 (Col4.make 255 255 255 255)
  /\ Col4.MaskBits 4 36 (Col4.make 255 255 255 255)
     = Col4.make 255 255 0 0
  /\ Col4.MaskBits_int (Col4.make 255 255 255 255) 4 36
     = Col4.MaskBits 4 36 (Col4.make 255 255 255 255)
  /\ Col4.MaskBits 4 60 (Col4.make 255 255 255 255)
     = Col4.make 255 255 255 255
  /\ Col4.MaskBits_int (Col4.make 255 255 255 255) 4 60
     = Col4.make 255 255 0 0.
Proof.
  assert (Ha : lanes32 (Col4.make 255 255 255 255))
    by (unfold lanes32, all_lanes; cbn; lia).
  destruct (Col4_MaskBits_keeps_low_bits 4 36 (Col4.make 255 255 255 255) Ha)
    as (Hlow & _ & _).
  destruct (Col4_MaskBits_keeps_low_bits 4 60 (Col4.make 255 255 255 255) Ha)
    as (_ & _ & Hhigh & _).
  destruct (Hlow ltac:(lia)) as (L1 & L2).
  destruct (Hhigh ltac:(lia)) as (H1 & H2).
  split; [exact Ha|]. split; [exact L1|]. split; [exact L2|].
  split; [exact H1|exact H2].
Defined.

(** X11.  In the builds without SSE4a, for 0 < n, 0 < p and p + n < 64,
    [CopyBits<n, p>( left, right )] is the register whose low half holds
    the low [p] bits of [left] and above them the low [n] bits of [right],
    everything else cleared; [ExtrBits<n, p>] reads the [n] bits of [right]
    back from it, and [ExtrBits<p, 0>] the [p] bits of [left]. *)
Theorem Col4_ExtrBits_reads_CopyBits (cfg : BuildConfig) (x : SSE4a)
  (n p : Z) (left right : Col4.t) :
  negb (SQUISH_USE_XSSE cfg =? 4) = true ->
  lanes32 left -> lanes32 right ->
  0 < n -> 0 < p -> p + n < 64 ->
  Col4.CopyBits cfg x n p left right
  = SSE.of_halves
      (SSE.lo64 left mod 2 ^ p + 2 ^ p * (SSE.lo64 right mod 2 ^ n)) 0
  /\ Col4.ExtrBits cfg x n p (Col4.CopyBits cfg x n p left right)
     = SSE.of_halves (SSE.lo64 right mod 2 ^ n) 0
  /\ Col4.ExtrBits cfg x p 0 (Col4.CopyBits cfg x n p left right)
     = SSE.of_halves (SSE.lo64 left mod 2 ^ p) 0.
Proof.
  intros Hcfg Hl Hr Hn Hp Hpn.
  rewrite (CopyBits_value cfg x n p left right) by assumption.
  apply negb_true_iff in Hcfg.
  assert (P1 : 0 < 2 ^ p) by (apply Z.pow_pos_nonneg; lia).
  assert (P2 : 0 < 2 ^ n) by (apply Z.pow_pos_nonneg; lia).
  assert (P3 : 2 ^ (p + n) <= 2 ^ 64) by (apply Z.pow_le_mono_r; lia).
  pose proof (pow2_split p n ltac:(lia) ltac:(lia)) as Hsplit.
  pose proof (Z.mod_pos_bound (SSE.lo64 left) (2 ^ p) P1).
  pose proof (Z.mod_pos_bound (SSE.lo64 right) (2 ^ n) P2).
  set (c := SSE.lo64 left mod 2 ^ p + 2 ^ p * (SSE.lo64 right mod 2 ^ n)).
  assert (Hc : 0 <= c < 2 ^ 64) by (unfold c; nia).
  split; [reflexivity|]. split.
  - unfold Col4.ExtrBits. rewrite Hcfg.
    destruct (Z.eqb_spec n 0); [lia|]. destruct (Z.eqb_spec p 0); [lia|].
    destruct (Z.leb_spec 64 (n + p)); [lia|].
    unfold Col4.ShiftRightHalf, SSE._mm_srli_epi64, SSE.shift64.
    destruct (Z.ltb_spec 0 p); [|lia].
    destruct (Z.leb_spec 0 p); [|lia]. destruct (Z.ltb_spec p 64); [|lia].
    cbn [andb].
    rewrite (MaskBits_low n 0) by (try apply of_halves_lanes32; lia).
    rewrite (lo64_of_halves c) by lia.
    assert (Hq : c / 2 ^ p = SSE.lo64 right mod 2 ^ n).
    { unfold c. rewrite (Z.mul_comm (2 ^ p)), Z.div_add by lia.
      rewrite Z.div_small by lia. lia. }
    rewrite Hq, lo64_of_halves by lia.
    rewrite Z.add_0_l. now rewrite Z.mod_mod by lia.
  - unfold Col4.ExtrBits. rewrite ?Hcfg.
    destruct (Z.eqb_spec p 0); [lia|]. cbn [Z.eqb].
    rewrite (MaskBits_low p 0) by (try apply of_halves_lanes32; lia).
    rewrite lo64_of_halves by lia. rewrite Z.add_0_l.
    unfold c. rewrite (Z.mul_comm (2 ^ p)), Z.mod_add by lia.
    now rewrite Z.mod_mod by lia.
Qed.

Lemma Col4_ExtrBits_reads_CopyBits_witness :
  negb (SQUISH_USE_XSSE Sample.cfg =? 4) = true
  /\ lanes32 (Col4.make 45 0 0 0) /\ lanes32 (Col4.make 1023 7 0 0)
  /\ Col4.CopyBits Sample.cfg Sample.sse4a 5 3 (Col4.make 45 0 0 0)
       (Col4.make 1023 7 0 0) = Col4.make 253 0 0 0
  /\ Col4.ExtrBits Sample.cfg Sample.sse4a 5 3
       (Col4.CopyBits Sample.cfg Sample.sse4a 5 3 (Col4.make 45 0 0 0)
          (Col4.make 1023 7 0 0)) = Col4.make 31 0 0 0
  /\ Col4.ExtrBits Sample.cfg Sample.sse4a 3 0
       (Col4.CopyBits Sample.cfg Sample.sse4a 5 3 (Col4.make 45 0 0 0)
          (Col4.make 1023 7 0 0)) = Col4.make 5 0 0 0.
Proof.
  assert (Hc : negb (SQUISH_USE_XSSE Sample.cfg =? 4) = true) by reflexivity.
  assert (Hl : lanes32 (Col4.make 45 0 0 0))
    by (unfold lanes32, all_lanes; cbn; lia).
  assert (Hr : lanes32 (Col4.make 1023 7 0 0))
    by (unfold lanes32, all_lanes; cbn; lia).
  split; [exact Hc|]. split; [exact Hl|]. split; [exact Hr|].
  exact (Col4_ExtrBits_reads_CopyBits Sample.cfg Sample.sse4a 5 3
           (Col4.make 45 0 0 0) (Col4.make 1023 7 0 0) Hc Hl Hr
           ltac:(lia) ltac:(lia) ltac:(lia)).
Defined.

(** ** The fitter: what a call leaves alone, the range of the score, the
       outcomes of the dispatcher *)

Lemma flt_fle (x y : F32.float) : F32.flt x y = true -> F32.fle x y = true.
Proof.
  unfold F32.flt, F32.fle, SFltb, SFleb.
  destruct (SFcompare x y) as [[]|]; congruence.
Qed.

Lemma fle_zero_not_negative (x : F32.float) :
  not_negative x = true -> F32.is_nan x = false ->
  F32.fle (F32.lit 0.0) x = true.
Proof.
  destruct x as [[|]|[|]| |[|] m e]; simpl; intros; try discriminate;
    reflexivity.
Qed.

Lemma with_entry_other (fit : SinglePaletteFit) (set s : Z) :
  s <> set -> m_entry (with_entry fit set) s = m_entry fit s.
Proof.
  intros Hs. unfold with_entry, upd; cbn [m_entry].
  destruct (Z.eqb_spec s set); [contradiction|reflexivity].
Qed.

Lemma frame_other_sets (fit fit' : SinglePaletteFit) (set : Z) :
  same_frame set (with_entry fit set) fit' ->
  other_sets_untouched set fit fit'
  /\ m_entry fit' set = entry_bytes (GetPoints (m_palette fit) set).
Proof.
  intros (Hp & Hf & Hs & Hb & He & Hse). cbn in Hp, Hf, Hs, Hb.
  split.
  - repeat (split; [assumption|]).
    intros s Hne. rewrite He, with_entry_other by assumption.
    destruct (Hse s Hne) as (H1 & H2). cbn in H1, H2. auto.
  - rewrite He. apply with_entry_entry.
Qed.

Lemma score_of_build_of (k : nat) (cfg : BuildConfig)
  (fit : SinglePaletteFit) (set : Z) (metric : Vec4.t) (q : vQuantizer)
  (lookups : quad LookupPtr) (cmask : Z) (r : Scr4) (fit' : SinglePaletteFit) :
  ComputeEndPoints_lookups k cfg fit set metric q lookups cmask
  = Returned (r, fit') ->
  score_of_build cfg r.
Proof.
  intros Hrun.
  destruct (proj2 (ComputeEndPoints_lookups_returned _ _ _ _ _ _ _ _ _ _
                     Hrun))
    as [(-> & _) | (m & _ & Hr & Hthr & _)].
  - split; [reflexivity|]. left. split; vm_compute; reflexivity.
  - assert (Hpos : not_negative (lane0 r) = true)
      by (rewrite Hr; apply LengthSquared_not_negative).
    split; [exact Hpos|].
    destruct Hthr as [Hlt | Hnan]; [left|right; exact Hnan].
    unfold Scr4_lt in Hlt.
    destruct (flt_not_nan _ _ Hlt) as (Hnan & _).
    split; [now apply fle_zero_not_negative|exact (flt_fle _ _ Hlt)].
Qed.

(** What a returning call of the dispatcher comes from: the last [else],
    or one of the overloads. *)
Lemma ComputeEndPoints_returned (cfg : BuildConfig) (inl : LookupInl)
  (fit : SinglePaletteFit) (set : Z) (metric : Vec4.t) (q : vQuantizer)
  (cb ab sb ib cmask : Z) (r : Scr4) (fit' : SinglePaletteFit) :
  ComputeEndPoints cfg inl fit set metric q cb ab sb ib cmask
  = Returned (r, fit') ->
  (index_case ib = false /\ r = Scr4_of_int F32.INT_MAX /\ fit' = fit)
  \/ (index_case ib = true
      /\ exists (k : nat) (lookups : quad LookupPtr),
           ComputeEndPoints_lookups k cfg fit set metric q lookups cmask
           = Returned (r, fit')).
Proof.
  unfold ComputeEndPoints, ComputeEndPoints2, ComputeEndPoints4,
    ComputeEndPoints8, index_case.
  destruct (ib =? 2).
  { destruct (colour_table_2 _ _ _ _); [|discriminate].
    intros H. right. split; [reflexivity|]. eauto. }
  destruct (ib =? 3).
  { destruct (colour_table_3 _ _ _ _ _); [|discriminate].
    intros H. right. split; [reflexivity|]. eauto. }
  destruct (ib =? 4).
  { destruct (colour_table_4 _ _ _ _); [|discriminate].
    destruct (alpha_table_4 _ _ _ _); [|discriminate].
    intros H. right. split; [reflexivity|]. eauto. }
  intros H. injection H as <- <-. left. repeat split; reflexivity.
Qed.

Lemma other_sets_untouched_refl (set : Z) (fit : SinglePaletteFit) :
  other_sets_untouched set fit fit.
Proof. unfold other_sets_untouched. repeat split; reflexivity. Qed.

(** X12.  A call of an overload that returns has written [m_entry[set]],
    the four bytes computed from the palette entry of the set, and
    otherwise only [m_start[set]], [m_end[set]] and [m_index]: the palette,
    the flags, the swap, the shared bits, and the entry and the endpoints of
    every other set are as before.  The same holds for the dispatcher; when
    [ib] is none of 2, 3, 4 it returns the object as it was, [m_entry[set]]
    included. *)
Theorem ComputeEndPoints_leaves_other_sets (cfg : BuildConfig)
  (inl : LookupInl) (fit : SinglePaletteFit) (set : Z) (metric : Vec4.t)
  (q : vQuantizer) (cb ab sb ib cmask : Z) (k : nat)
  (lookups : quad LookupPtr) (r : Scr4) (fit' : SinglePaletteFit) :
  (ComputeEndPoints_lookups k cfg fit set metric q lookups cmask
   = Returned (r, fit') ->
   other_sets_untouched set fit fit'
   /\ m_entry fit' set = entry_bytes (GetPoints (m_palette fit) set))
  /\ (ComputeEndPoints cfg inl fit set metric q cb ab sb ib cmask
      = Returned (r, fit') ->
      other_sets_untouched set fit fit'
      /\ (index_case ib = true ->
          m_entry fit' set = entry_bytes (GetPoints (m_palette fit) set))
      /\ (index_case ib = false -> fit' = fit)).
Proof.
  assert (Hover : forall k lookups,
    ComputeEndPoints_lookups k cfg fit set metric q lookups cmask
    = Returned (r, fit') ->
    other_sets_untouched set fit fit'
    /\ m_entry fit' set = entry_bytes (GetPoints (m_palette fit) set)).
  { intros k0 l0 Hrun. apply frame_other_sets.
    exact (proj1 (ComputeEndPoints_lookups_returned _ _ _ _ _ _ _ _ _ _
                    Hrun)). }
  split; [apply Hover|].
  intros Hrun.
  destruct (ComputeEndPoints_returned _ _ _ _ _ _ _ _ _ _ _ _ _ Hrun)
    as [(Hib & _ & ->) | (Hib & k0 & l0 & Hrun0)].
  - split; [apply other_sets_untouched_refl|].
    split; [congruence|reflexivity].
  - destruct (Hover k0 l0 Hrun0) as (H1 & H2).
    split; [exact H1|]. split; [intros _; exact H2|congruence].
Qed.

Lemma ComputeEndPoints_leaves_other_sets_witness :
  exists (r : Scr4) (fit' : SinglePaletteFit),
    ComputeEndPoints Sample.cfg Sample.inl (Sample.fit 0 7) 0
      Sample.metric_one Sample.quantizer 5 0 0 2 7
    = Returned (r, fit')
    /\ other_sets_untouched 0 (Sample.fit 0 7) fit'
    /\ m_entry fit' 0 = Quad 128 128 128 255.
Proof.
  destruct (ComputeEndPoints Sample.cfg Sample.inl (Sample.fit 0 7) 0
              Sample.metric_one Sample.quantizer 5 0 0 2 7)
    as [[r fit']| |] eqn:Hrun.
  - exists r, fit'. split; [reflexivity|].
    destruct (proj2 (ComputeEndPoints_leaves_other_sets Sample.cfg
                       Sample.inl (Sample.fit 0 7) 0 Sample.metric_one
                       Sample.quantizer 5 0 0 2 7 2
                       (Sample.lookups_rgb (Sample.table 1 2 0)) r fit')
                Hrun) as (H1 & H2 & _).
    split; [exact H1|]. rewrite (H2 eq_refl). vm_compute. reflexivity.
  - vm_compute in Hrun. discriminate Hrun.
  - vm_compute in Hrun. discriminate Hrun.
Defined.

(** X13.  The score a call returns is never negative.  In a build that
    answers 0 on an unordered pair it is a number between 0 and [FLT_MAX],
    never a NaN: [FLT_MAX] when no slot was recorded, the squared error of
    a slot below [FLT_MAX] otherwise, and 2147483648.0 from the last [else]
    of the dispatcher.  In a build that answers 1 on an unordered pair the
    score can also be a NaN, the error of the slot recorded last, and there
    is a call that returns one. *)
Theorem ComputeEndPoints_score_in_range (cfg : BuildConfig)
  (inl : LookupInl) (fit : SinglePaletteFit) (set : Z) (metric : Vec4.t)
  (q : vQuantizer) (cb ab sb ib cmask : Z) (k : nat)
  (lookups : quad LookupPtr) (r : Scr4) (fit' : SinglePaletteFit) :
  (ComputeEndPoints_lookups k cfg fit set metric q lookups cmask
   = Returned (r, fit') -> score_of_build cfg r)
  /\ (ComputeEndPoints cfg inl fit set metric q cb ab sb ib cmask
      = Returned (r, fit') -> score_of_build cfg r)
  /\ (COMILT_UNORDERED cfg = false -> score_of_build cfg r ->
      score_in_range r)
  /\ (exists fit0 : SinglePaletteFit,
        ComputeEndPoints_lookups 2 (MkBuildConfig 2 0 None true)
          (Sample.fit 0 7) 0 Sample.metric_inf_alpha Sample.quantizer
          (Sample.lookups_rgb Sample.table_index1) 7
        = Returned (Scr4_of_float S754_nan, fit0)).
Proof.
  split; [apply score_of_build_of|]. split; [|split].
  - unfold ComputeEndPoints, ComputeEndPoints2, ComputeEndPoints4,
      ComputeEndPoints8.
    destruct (ib =? 2).
    { destruct (colour_table_2 _ _ _ _);
        [apply score_of_build_of|discriminate]. }
    destruct (ib =? 3).
    { destruct (colour_table_3 _ _ _ _ _);
        [apply score_of_build_of|discriminate]. }
    destruct (ib =? 4).
    { destruct (colour_table_4 _ _ _ _); [|discriminate].
      destruct (alpha_table_4 _ _ _ _);
        [apply score_of_build_of|discriminate]. }
    intros H. injection H as <- _.
    split; [reflexivity|]. left. split; vm_compute; reflexivity.
  - intros Hcfg (_ & [Hin | (Hu & _)]); [exact Hin|congruence].
  - eexists. vm_compute. reflexivity.
Qed.

Lemma ComputeEndPoints_lookups_ending (k : nat) (cfg : BuildConfig)
  (fit : SinglePaletteFit) (set : Z) (metric : Vec4.t) (q : vQuantizer)
  (lookups : quad LookupPtr) (cmask : Z) :
  ending_of (ComputeEndPoints_lookups (S k) cfg fit set metric q lookups cmask)
  = if tables_present lookups cmask then Returns else Faults.
Proof.
  destruct (tables_present lookups cmask) eqn:Htab.
  - destruct (proj1 (ComputeEndPoints_lookups_outcome (S k) cfg fit set metric
                       q lookups cmask) Htab) as (r & fit' & ->).
    reflexivity.
  - change (ComputeEndPoints_lookups (S k) cfg fit set metric q lookups cmask)
      with (index_loop cfg (ComputeGammaLUT false) metric q lookups cmask set
              (Col4.A (gridinv q) - 1) (S k) 0 (Scr4_of_float F32.FLT_MAX)
              (with_entry fit set)).
    rewrite index_loop_fault by exact Htab. reflexivity.
Qed.

(** X14.  Whether a call of the dispatcher returns, runs into [abort()] or
    reads through the null alpha table is decided by [ib], [cb], [ab] and
    the alpha bit of [cmask] alone, as the table [format_ending] gives it:
    it does not depend on the build, on the lookup tables, on the shared
    bits, on the palette or on the metric.  With [ib] none of 2, 3, 4 the
    call returns the score [Scr4( INT_MAX )], which is 2147483648.0, and
    the object as it was. *)
Theorem ComputeEndPoints_ending_by_format (cfg : BuildConfig)
  (inl : LookupInl) (fit : SinglePaletteFit) (set : Z) (metric : Vec4.t)
  (q : vQuantizer) (cb ab sb ib cmask : Z) :
  ending_of (ComputeEndPoints cfg inl fit set metric q cb ab sb ib cmask)
  = format_ending ib cb ab cmask
  /\ (index_case ib = false ->
      ComputeEndPoints cfg inl fit set metric q cb ab sb ib cmask
      = Returned (Scr4_of_float (F32.lit 2147483648.0), fit)).
Proof.
  unfold ComputeEndPoints, ComputeEndPoints2, ComputeEndPoints4,
    ComputeEndPoints8, format_ending, index_case, colour_case, alpha_case,
    colour_table_2, colour_table_3, colour_table_4, alpha_table_2,
    alpha_table_3, alpha_table_4.
  destruct (Z.eqb_spec ib 2) as [->|H2].
  { split; [|discriminate]. cbn [Z.eqb Pos.eqb orb negb].
    destruct (cb =? 5), (cb =? 6), (cb =? 7), (cb =? 8); cbn [orb negb];
      try reflexivity;
      rewrite ComputeEndPoints_lookups_ending, tables_present_rgb;
      destruct (ab =? 6), (ab =? 8), (selected cmask 3); reflexivity. }
  destruct (Z.eqb_spec ib 3) as [->|H3].
  { split; [|discriminate]. cbn [Z.eqb Pos.eqb orb negb].
    destruct (cb =? 5), (cb =? 7); cbn [orb negb];
      try reflexivity;
      rewrite ComputeEndPoints_lookups_ending, tables_present_rgb;
      destruct (ab =? 6), (selected cmask 3); reflexivity. }
  destruct (Z.eqb_spec ib 4) as [->|H4].
  { split; [|discriminate]. cbn [Z.eqb Pos.eqb orb negb].
    destruct (cb =? 8); cbn [orb negb]; try reflexivity.
    destruct (ab =? 8); cbn [orb negb]; try reflexivity.
    rewrite ComputeEndPoints_lookups_ending, tables_present_rgb.
    cbn [has_table]. now rewrite implb_true_r. }
  split; [reflexivity|]. intros _. reflexivity.
Qed.

Lemma byte_of_unit_range (x : F32.float) : 0 <= byte_of_unit x <= 255.
Proof. unfold byte_of_unit, clamp_byte. lia. Qed.

Lemma round_trip_checked :
  all_below 256 (fun i => (byte_of_unit (unit_of_byte i) =? i)
                          && (byte_of_unit (unit_of_byte_scaled i) =? i))
  = true.
Proof. vm_compute. reflexivity. Qed.

(** X15.  The bytes of [m_entry[set]] are computed lane by lane as
    [byte_of_unit], truncation of [v * 255 + 0.5] clamped to [0, 255].
    Every byte [i] comes back from the float nearest to [i / 255], and from
    [i] times the float nearest to [1 / 255].  The result is always a byte;
    it is 0, not 255, for a NaN, for an infinity and from 8421505.0 on,
    where the product leaves the range of [int]. *)
Theorem entry_bytes_round_trip :
  (forall v : Vec4.t, entry_bytes v = map1 byte_of_unit v)
  /\ (forall i : Z, 0 <= i < 256 ->
        byte_of_unit (unit_of_byte i) = i
        /\ byte_of_unit (unit_of_byte_scaled i) = i)
  /\ (forall x : F32.float, 0 <= byte_of_unit x <= 255)
  /\ byte_of_unit S754_nan = 0
  /\ byte_of_unit (S754_infinity false) = 0
  /\ byte_of_unit (F32.lit 8421505.0) = 0
  /\ byte_of_unit (F32.lit 8421504.0) = 255.
Proof.
  split.
  { intros [x y z w]. unfold entry_bytes. rewrite PackBytes_bytes.
    reflexivity. }
  split.
  { intros i Hi.
    pose proof (all_below_spec 256 _ i round_trip_checked ltac:(lia)) as H.
    cbv beta in H. apply andb_prop in H. destruct H as (H1 & H2).
    split; now apply Z.eqb_eq. }
  split; [apply byte_of_unit_range|].
  repeat split; vm_compute; reflexivity.
Qed.

(** ** Vec4 *)

Lemma fadd_comm (x y : F32.float) : F32.fadd x y = F32.fadd y x.
Proof.
  unfold F32.fadd.
  destruct x as [[|]|[|]| |sx mx ex], y as [[|]|[|]| |sy my ey];
    try reflexivity.
  unfold SFadd. rewrite Z.min_comm. f_equal. apply Z.add_comm.
Qed.

(** The shuffles the class uses, lane by lane. *)
Lemma shuffle_ps_lanes {A : Type} (x y z w : Z) (a b : quad F32.float) :
  0 <= x <= 3 -> 0 <= y <= 3 -> 0 <= z <= 3 -> 0 <= w <= 3 ->
  SSEf._mm_shuffle_ps a b (SQUISH_SSE_SHUF x y z w)
  = Quad (lane x a) (lane y a) (lane z b) (lane w b).
Proof.
  intros Hx Hy Hz Hw.
  assert (x = 0 \/ x = 1 \/ x = 2 \/ x = 3) as [-> | [-> | [-> | ->]]] by lia;
  assert (y = 0 \/ y = 1 \/ y = 2 \/ y = 3) as [-> | [-> | [-> | ->]]] by lia;
  assert (z = 0 \/ z = 1 \/ z = 2 \/ z = 3) as [-> | [-> | [-> | ->]]] by lia;
  assert (w = 0 \/ w = 1 \/ w = 2 \/ w = 3) as [-> | [-> | [-> | ->]]] by lia;
  reflexivity.
Qed.

Lemma HorizontalAdd_lanes (cfg : BuildConfig) (a : Vec4.t) :
  Vec4.HorizontalAdd cfg a
  = (if Vec4.use_hadd cfg
     then Vec4.of_float ((Vec4.X a + Vec4.Y a) + (Vec4.Z a + Vec4.W a))
     else Vec4.of_float ((Vec4.X a + Vec4.Z a) + (Vec4.Y a + Vec4.W a)))%f32.
Proof.
  destruct a as [x y z w]. unfold Vec4.HorizontalAdd.
  destruct (Vec4.use_hadd cfg); [reflexivity|].
  unfold SQUISH_SSE_SWAP64, SQUISH_SSE_SWAP32. cbv zeta.
  rewrite !(shuffle_ps_lanes (A:=F32.float)) by lia.
  unfold Vec4.of_float, SSEf._mm_set1_ps, splat, SSEf._mm_add_ps, map2.
  cbn [lane0 lane1 lane2 lane3 Vec4.X Vec4.Y Vec4.Z Vec4.W lane Z.eqb
       Pos.eqb].
  rewrite (fadd_comm w y), (fadd_comm z x).
  rewrite (fadd_comm (F32.fadd y w) (F32.fadd x z)). reflexivity.
Qed.

(** X16.  [HorizontalAdd] leaves one sum in all four lanes, and the order
    of the additions depends on the build: [(x + y) + (z + w)] with the
    horizontal-add instruction (SSE3 and later, or XSSE 4),
    [(x + z) + (y + w)] with the SSE2 shuffles.  The two-operand form adds
    the two sums of the operands in the first build and is the sum of
    [a + b] in the second.  Float addition is not associative: there is a
    vector on which an SSE2 build and an SSE3 build return different sums,
    and [Dot] and [LengthSquared] inherit this. *)
Theorem Vec4_HorizontalAdd_order (cfg : BuildConfig) (a b : Vec4.t) :
  let x := Vec4.X a in
  let y := Vec4.Y a in
  let z := Vec4.Z a in
  let w := Vec4.W a in
  Vec4.HorizontalAdd cfg a
  = (if Vec4.use_hadd cfg then Vec4.of_float ((x + y) + (z + w))
     else Vec4.of_float ((x + z) + (y + w)))%f32
  /\ Vec4.HorizontalAdd2 cfg a b
     = (if Vec4.use_hadd cfg
        then Vec4.of_float
               (((x + y) + (z + w))
                + ((Vec4.X b + Vec4.Y b) + (Vec4.Z b + Vec4.W b)))
        else Vec4.HorizontalAdd cfg (Vec4.add a b))%f32
  /\ Vec4.Dot cfg a b = Vec4.HorizontalAdd cfg (Vec4.mul a b)
  /\ exists c : Vec4.t, forall u v : bool,
       Vec4.HorizontalAdd (MkBuildConfig 2 0 None u) c
       <> Vec4.HorizontalAdd (MkBuildConfig 3 0 None v) c.
Proof.
  cbv zeta. split; [apply HorizontalAdd_lanes|]. split; [|split].
  - unfold Vec4.HorizontalAdd2, Vec4.HorizontalAdd.
    destruct (Vec4.use_hadd cfg); [|reflexivity].
    destruct a as [x y z w], b as [x' y' z' w']. reflexivity.
  - reflexivity.
  - exists (Vec4.make (F32.lit 100000000.0) (F32.lit (-100000000.0))
                      (F32.lit 1.0) (F32.lit 0.0)).
    intros [|] [|]; vm_compute; discriminate.
Qed.

(** *** Reciprocal and division *)


Lemma Reciprocal_lane (hw : Machine) (x : F32.float) :
  Vec4.Reciprocal hw (Vec4.of_float x)
  = Vec4.of_float
      ((F32.lit 1.0 - rcp_estimate hw x * x) * rcp_estimate hw x
       + rcp_estimate hw x)%f32.
Proof. reflexivity. Qed.

Lemma fmul_nan_r (x : F32.float) : F32.fmul x S754_nan = S754_nan.
Proof. destruct x as [[|]|[|]| |[|] m e]; reflexivity. Qed.

Lemma fadd_nan_r (x : F32.float) : F32.fadd x S754_nan = S754_nan.
Proof. destruct x as [[|]|[|]| |[|] m e]; reflexivity. Qed.

Lemma fsub_nan_r (x : F32.float) : F32.fsub x S754_nan = S754_nan.
Proof. destruct x as [[|]|[|]| |[|] m e]; reflexivity. Qed.

Lemma div_float_degenerate (hw : Machine) (left : Vec4.t) (s : bool)
  (right : F32.float) :
  (forall s : bool, rcp_estimate hw (S754_zero s) = S754_infinity s) ->
  (forall s : bool, rcp_estimate hw (S754_infinity s) = S754_zero s) ->
  right = S754_zero s \/ right = S754_infinity s \/ right = S754_nan ->
  Vec4.Reciprocal hw (Vec4.of_float right) = Vec4.of_float S754_nan
  /\ Vec4.div_float hw left right = Vec4.of_float S754_nan.
Proof.
  intros Hzero Hinf Hright.
  assert (Hrec : Vec4.Reciprocal hw (Vec4.of_float right)
                 = Vec4.of_float S754_nan).
  { rewrite Reciprocal_lane.
    destruct Hright as [-> | [-> | ->]].
    - rewrite Hzero. destruct s; reflexivity.
    - rewrite Hinf. destruct s; reflexivity.
    - rewrite fmul_nan_r. reflexivity. }
  split; [exact Hrec|].
  unfold Vec4.div_float. rewrite Hrec.
  destruct left as [x y z w].
  unfold Vec4.mul, SSEf._mm_mul_ps, map2, Vec4.of_float, SSEf._mm_set1_ps,
    splat.
  cbn [lane0 lane1 lane2 lane3]. now rewrite !fmul_nan_r.
Qed.

(** X17.  [Reciprocal] refines the estimate of RCPPS by one Newton step,
    [(1 - e * v) * e + e].  On a processor whose estimate of a zero is the
    infinity of its sign and whose estimate of an infinity is the zero of
    its sign, the step multiplies zero by infinity: the reciprocal of 0, of
    an infinity and of a NaN is a NaN in every lane, and so is every vector
    divided by such a float with [operator/] or [operator/=], where IEEE
    division gives an infinity or a zero. *)
Theorem Vec4_division_by_zero_is_nan (hw : Machine) (left : Vec4.t) :
  (forall s : bool, rcp_estimate hw (S754_zero s) = S754_infinity s) ->
  (forall s : bool, rcp_estimate hw (S754_infinity s) = S754_zero s) ->
  forall (s : bool) (right : F32.float),
    right = S754_zero s \/ right = S754_infinity s \/ right = S754_nan ->
    Vec4.Reciprocal hw (Vec4.of_float right) = Vec4.of_float S754_nan
    /\ Vec4.div_float hw left right = Vec4.of_float S754_nan.
Proof.
  intros Hzero Hinf s right Hright.
  now apply (div_float_degenerate hw left s right).
Qed.

Lemma Vec4_division_by_zero_is_nan_witness :
  Vec4.div_float Sample.machine
    (Vec4.make (F32.lit 1.0) (F32.lit 2.0) (F32.lit 0.0) (F32.lit (-3.0)))
    (F32.lit 0.0)
  = Vec4.of_float S754_nan.
Proof.
  refine (proj2 (Vec4_division_by_zero_is_nan Sample.machine _ _ _ false _ _)).
  - intros []; reflexivity.
  - intros []; reflexivity.
  - left. reflexivity.
Defined.

(** *** Clamp *)

Lemma fle_refl_number (x : F32.float) :
  F32.is_nan x = false -> F32.fle x x = true.
Proof.
  intros H. unfold F32.fle, SFleb.
  destruct (SFcompare_refl x) as [E | E]; rewrite E; [|reflexivity].
  destruct x; try discriminate; simpl in E; discriminate.
Qed.

Lemma Clamp_lanes (v : Vec4.t) :
  Vec4.Clamp v
  = map1 (fun x =>
            let y := if F32.fgt (F32.lit 0.0) x then F32.lit 0.0 else x in
            if F32.flt (F32.lit 1.0) y then F32.lit 1.0 else y) v.
Proof. destruct v; reflexivity. Qed.

Lemma clamped_lane (x : F32.float) :
  clamped x (let y := if F32.fgt (F32.lit 0.0) x then F32.lit 0.0 else x in
             if F32.flt (F32.lit 1.0) y then F32.lit 1.0 else y).
Proof.
  cbv zeta. unfold F32.fgt, clamped.
  change (SFltb x (F32.lit 0.0)) with (F32.flt x (F32.lit 0.0)).
  destruct (F32.is_nan x) eqn:Hnan.
  { destruct x; try discriminate.
    split; [reflexivity|]. split; [discriminate|].
    split; [discriminate|]. split; discriminate. }
  split; [discriminate|].
  destruct (F32.flt x (F32.lit 0.0)) eqn:Hneg.
  { change (F32.flt (F32.lit 1.0) (F32.lit 0.0)) with false. cbv iota.
    split; [intros _; split; reflexivity|].
    split; [|split; [reflexivity|]].
    - intros H0 _. apply flt_fle_false in Hneg. congruence.
    - intros H1.
      pose proof (flt_trans _ _ _ H1 Hneg) as H. discriminate H. }
  assert (H0 : F32.fle (F32.lit 0.0) x = true)
    by (apply flt_total; [exact Hnan|reflexivity|exact Hneg]).
  destruct (F32.flt (F32.lit 1.0) x) eqn:Hbig.
  { split; [intros _; split; reflexivity|].
    split; [|split; [discriminate|reflexivity]].
    intros _ H1. apply flt_fle_false in Hbig. congruence. }
  assert (H1 : F32.fle x (F32.lit 1.0) = true)
    by (apply flt_total; [reflexivity|exact Hnan|exact Hbig]).
  split; [intros _; split; assumption|].
  split; [reflexivity|]. split; discriminate.
Qed.

(** X18.  [Clamp] maps each lane into [0, 1]: a number between 0 and 1
    is kept, a number below 0 becomes 0.0 and a number above 1 becomes 1.0,
    so that the result of a number is between 0 and 1.  A NaN is not
    clamped: MAXPS and MINPS return their second operand on an unordered
    pair, and the lane stays a NaN. *)
Theorem Vec4_Clamp_lanes (v : Vec4.t) :
  clamped (Vec4.X v) (Vec4.X (Vec4.Clamp v))
  /\ clamped (Vec4.Y v) (Vec4.Y (Vec4.Clamp v))
  /\ clamped (Vec4.Z v) (Vec4.Z (Vec4.Clamp v))
  /\ clamped (Vec4.W v) (Vec4.W (Vec4.Clamp v)).
Proof.
  rewrite Clamp_lanes. destruct v as [x y z w].
  unfold map1, Vec4.X, Vec4.Y, Vec4.Z, Vec4.W. cbn [lane0 lane1 lane2 lane3].
  split; [|split; [|split]]; apply clamped_lane.
Qed.

(** *** Comparisons and conversions *)

Lemma mask_sign (c : bool) :
  Z.b2z (Z.testbit (if c then 2 ^ 32 - 1 else 0) 31) = Z.b2z c.
Proof. destruct c; reflexivity. Qed.

(** X19.  [CompareAnyLessThan] on [Vec4] is true exactly when some lane
    of [left] is below the same lane of [right]; a lane holding a NaN on
    either side never counts.  (The [Col4] function of the same name tests
    equality.) *)
Theorem Vec4_CompareAnyLessThan_some_lane (left right : Vec4.t) :
  Vec4.CompareAnyLessThan left right
  = F32.flt (Vec4.X left) (Vec4.X right)
    || F32.flt (Vec4.Y left) (Vec4.Y right)
    || F32.flt (Vec4.Z left) (Vec4.Z right)
    || F32.flt (Vec4.W left) (Vec4.W right).
Proof.
  destruct left as [x y z w], right as [x' y' z' w'].
  unfold Vec4.CompareAnyLessThan, SSEf._mm_movemask_ps, SSEf._mm_cmplt_ps,
    map2, Vec4.X, Vec4.Y, Vec4.Z, Vec4.W.
  cbn [lane0 lane1 lane2 lane3]. cbv zeta. rewrite !mask_sign.
  destruct (F32.flt x x'), (F32.flt y y'), (F32.flt z z'), (F32.flt w w');
    reflexivity.
Qed.

Lemma signed32_wrap32 (z : Z) :
  - 2 ^ 31 <= z < 2 ^ 31 -> SSE.signed32 (SSE.wrap32 z) = z.
Proof.
  intros Hz. unfold SSE.signed32, SSE.wrap32.
  destruct (Z.ltb_spec (z mod 2 ^ 32) (2 ^ 31)) as [H | H].
  - destruct (Z_lt_le_dec z 0) as [Hn | Hp].
    + rewrite <- (Z.mod_add z 1 (2 ^ 32)) in H by lia.
      rewrite Z.mod_small in H by lia. lia.
    + apply Z.mod_small. lia.
  - destruct (Z_lt_le_dec z 0) as [Hn | Hp].
    + rewrite <- (Z.mod_add z 1 (2 ^ 32)) by lia.
      rewrite Z.mod_small by lia. lia.
    + rewrite Z.mod_small in H by lia. lia.
Qed.


(** *** The integer setters *)

Lemma insert_xyzw_lanes (x y z w : Z) :
  Vec4.insert_xyzw x y z w
  = Quad (SSE.wrap16 x) (SSE.wrap16 y) (SSE.wrap16 z) (SSE.wrap16 w).
Proof. exact (insert_rgba_lanes x y z w). Qed.

Lemma pow2_bits_checked :
  all_below 254 (fun i => is_pow2_float (i - 126) (pow2_bits (i - 126)))
  = true.
Proof. vm_compute. reflexivity. Qed.

Lemma pow2_bits_spec (e : Z) :
  - 126 <= e <= 127 -> pow2_bits e = pow2_float e.
Proof.
  intros He.
  pose proof (all_below_spec 254 _ (e + 126) pow2_bits_checked ltac:(lia))
    as H.
  cbv beta in H. replace (e + 126 - 126) with e in H by lia.
  unfold is_pow2_float in H. unfold pow2_float.
  destruct (pow2_bits e) as [| | |[|] m ex]; try discriminate H.
  apply andb_prop in H. destruct H as (H1 & H2).
  apply Z.eqb_eq in H1. apply Z.eqb_eq in H2.
  injection H1 as ->. now subst ex.
Qed.

Lemma wrap32_idem (x : Z) : SSE.wrap32 (SSE.wrap32 x) = SSE.wrap32 x.
Proof. unfold SSE.wrap32. apply Z.mod_mod. lia. Qed.

Lemma wrap32_sub_l (a b : Z) :
  SSE.wrap32 (SSE.wrap32 a - b) = SSE.wrap32 (a - b).
Proof. unfold SSE.wrap32. apply Zminus_mod_idemp_l. Qed.

Lemma pow2_bits_small (e : Z) :
  0 <= e < 2 ^ 32 ->
  F32.of_bits (SSE.wrap32 (SSE.wrap32 (Z.shiftl e 23)
                           + F32.bits_of (F32.lit 1.0)))
  = pow2_bits e.
Proof. intros He. unfold pow2_bits. now rewrite (wrap32_small e). Qed.

Lemma pow2_float_checked :
  all_below 254
    (fun i => Qeq_bool (F32.to_Q (pow2_float (i - 126))) (2 ^ (i - 126)))
  = true.
Proof. vm_compute. reflexivity. Qed.

(** X20.  For arguments in 0 .. 65535 whose exponent [e], the argument
    itself or [inv] minus the argument when [inv] is not 0, is in
    -126 .. 127, [SetXYZWpow2] builds in each lane the float 2^e, by adding
    [e << 23] to the bits of 1.0f; and [SetXYZW] the float of [e].  The
    floats are exact powers of two. *)
Theorem Vec4_SetXYZWpow2_powers (inv x y z w : Z) :
  all_lanes (fun c => 0 <= c < 2 ^ 16 /\ - 126 <= pow2_exponent inv c <= 127)
            (Quad x y z w) ->
  Vec4.SetXYZWpow2 inv x y z w
  = map1 (fun c => pow2_float (pow2_exponent inv c)) (Quad x y z w)
  /\ Vec4.SetXYZW inv x y z w
     = map1 (fun c => F32.of_int (pow2_exponent inv c)) (Quad x y z w)
  /\ forall e : Z, - 126 <= e <= 127 ->
       (F32.to_Q (pow2_float e) == 2 ^ e)%Q.
Proof.
  intros ((Hx & Ex) & (Hy & Ey) & (Hz & Ez) & (Hw & Ew)).
  cbn [lane0 lane1 lane2 lane3] in *.
  split; [|split].
  - unfold Vec4.SetXYZWpow2. rewrite insert_xyzw_lanes.
    rewrite !wrap16_small by assumption.
    unfold SSEf._mm_castsi128_ps, SSE._mm_add_epi32,
      SSEf._mm_castps_si128, SSEf._mm_set1_ps, SSE._mm_slli_epi32,
      SSE._mm_sub_epi32, SSE._mm_set1_epi32, splat, map1, map2.
    change ((0 <=? 23) && (23 <? 32)) with true. cbv iota.
    unfold pow2_exponent in *.
    destruct (inv =? 0) eqn:Einv; cbn [negb lane0 lane1 lane2 lane3].
    + rewrite !pow2_bits_small by lia.
      now rewrite !pow2_bits_spec.
    + rewrite !wrap32_sub_l.
      change (Quad (pow2_bits (inv - x)) (pow2_bits (inv - y))
                   (pow2_bits (inv - z)) (pow2_bits (inv - w))
              = Quad (pow2_float (inv - x)) (pow2_float (inv - y))
                     (pow2_float (inv - z)) (pow2_float (inv - w))).
      now rewrite !pow2_bits_spec.
  - unfold Vec4.SetXYZW. rewrite insert_xyzw_lanes.
    rewrite !wrap16_small by assumption.
    unfold SSEf._mm_cvtepi32_ps, SSE._mm_sub_epi32, SSE._mm_set1_epi32,
      splat, map1, map2.
    unfold pow2_exponent in *.
    destruct (inv =? 0) eqn:Einv; cbn [negb lane0 lane1 lane2 lane3].
    + rewrite <- (wrap32_small x) at 1 by lia.
      rewrite <- (wrap32_small y) at 1 by lia.
      rewrite <- (wrap32_small z) at 1 by lia.
      rewrite <- (wrap32_small w) at 1 by lia.
      now rewrite !signed32_wrap32 by lia.
    + rewrite !wrap32_sub_l.
      now rewrite !signed32_wrap32 by lia.
  - intros e He. apply Qeq_bool_eq.
    pose proof (all_below_spec 254 _ (e + 126) pow2_float_checked
                  ltac:(lia)) as H.
    cbv beta in H. now replace (e + 126 - 126) with e in H by lia.
Qed.

Lemma Vec4_SetXYZWpow2_powers_witness :
  Vec4.SetXYZWpow2 3 0 1 5 129
  = Vec4.make (F32.lit 8.0) (F32.lit 4.0) (F32.lit 0.25) (pow2_float (-126))
  /\ Vec4.SetXYZW 0 0 1 127 65535
     = Vec4.make (F32.lit 0.0) (F32.lit 1.0) (F32.lit 127.0)
                 (F32.lit 65535.0).
Proof.
  split.
  - refine (eq_trans (proj1 (Vec4_SetXYZWpow2_powers 3 0 1 5 129 _)) _).
    + unfold all_lanes, pow2_exponent; cbn; lia.
    + reflexivity.
  - reflexivity.
Defined.

(** *** Moving lanes between two vectors *)

Lemma store_same {A : Type} (mem : Vec4.Memory A) (p : Z) (v : quad A) :
  Vec4.store mem p v p = v.
Proof. unfold Vec4.store. now rewrite Z.eqb_refl. Qed.

Lemma store_other {A : Type} (mem : Vec4.Memory A) (p q : Z) (v : quad A) :
  q <> p -> Vec4.store mem p v q = mem q.
Proof.
  intros H. unfold Vec4.store. destruct (Z.eqb_spec q p); [contradiction|].
  reflexivity.
Qed.

Lemma xor_ps_cancel (a b : quad Z) :
  SSEf._mm_xor_ps (SSEf._mm_xor_ps a b) (SSEf._mm_xor_ps b (SSEf._mm_xor_ps a b))
  = b
  /\ SSEf._mm_xor_ps b (SSEf._mm_xor_ps a b) = a.
Proof.
  destruct a as [a0 a1 a2 a3], b as [b0 b1 b2 b3].
  unfold SSEf._mm_xor_ps, map2. cbn [lane0 lane1 lane2 lane3].
  assert (H : forall x y, Z.lxor y (Z.lxor x y) = x).
  { intros x y. rewrite (Z.lxor_comm x y), <- Z.lxor_assoc, Z.lxor_nilpotent.
    apply Z.lxor_0_l. }
  split.
  - rewrite !H. f_equal; rewrite Z.lxor_comm; apply H.
  - now rewrite !H.
Qed.

(** X21.  [SwapXYZW], the in-place swap by three XORs, exchanges the bits
    of two distinct vectors, whatever they encode, and touches no other
    object; called on a vector and itself it clears the vector to zero. *)
Theorem Vec4_SwapXYZW_aliasing (mem : Vec4.Memory Z) (this with_ : Z) :
  (this <> with_ ->
   Vec4.SwapXYZW mem this with_ this = mem with_
   /\ Vec4.SwapXYZW mem this with_ with_ = mem this)
  /\ Vec4.SwapXYZW mem this this this = splat 0
  /\ (forall other : Z, other <> this -> other <> with_ ->
        Vec4.SwapXYZW mem this with_ other = mem other).
Proof.
  split; [|split].
  - intros Hne. unfold Vec4.SwapXYZW. cbv zeta.
    repeat (rewrite store_same || rewrite store_other by congruence).
    destruct (xor_ps_cancel (mem this) (mem with_)) as (H1 & H2).
    split; assumption.
  - unfold Vec4.SwapXYZW. cbv zeta. rewrite !store_same.
    destruct (mem this) as [a b c d]. unfold SSEf._mm_xor_ps, map2, splat.
    cbn [lane0 lane1 lane2 lane3]. now rewrite !Z.lxor_nilpotent.
  - intros other H1 H2. unfold Vec4.SwapXYZW. cbv zeta.
    now rewrite !store_other by assumption.
Qed.

(** X22.  [TransferW] returns X, Y, Z of [left] with W of [right].  On
    two distinct vectors [SwapXYZ] exchanges X, Y, Z and leaves each W,
    and [SwapW] exchanges W and leaves X, Y, Z; called on a vector and
    itself both leave it as it was. *)
Theorem Vec4_lane_swaps (mem : Vec4.Memory F32.float) (this with_ : Z) :
  let a := mem this in
  let b := mem with_ in
  (forall left right : Vec4.t,
     Vec4.TransferW left right
     = Vec4.make (Vec4.X left) (Vec4.Y left) (Vec4.Z left) (Vec4.W right))
  /\ (this <> with_ ->
      Vec4.SwapXYZ mem this with_ this
      = Vec4.make (Vec4.X b) (Vec4.Y b) (Vec4.Z b) (Vec4.W a)
      /\ Vec4.SwapXYZ mem this with_ with_
         = Vec4.make (Vec4.X a) (Vec4.Y a) (Vec4.Z a) (Vec4.W b)
      /\ Vec4.SwapW mem this with_ this
         = Vec4.make (Vec4.X a) (Vec4.Y a) (Vec4.Z a) (Vec4.W b)
      /\ Vec4.SwapW mem this with_ with_
         = Vec4.make (Vec4.X b) (Vec4.Y b) (Vec4.Z b) (Vec4.W a))
  /\ Vec4.SwapXYZ mem this this this = a
  /\ Vec4.SwapW mem this this this = a.
Proof.
  cbv zeta.
  assert (HT : forall left right : Vec4.t,
     Vec4.TransferW left right
     = Vec4.make (Vec4.X left) (Vec4.Y left) (Vec4.Z left) (Vec4.W right)).
  { intros [x y z w] [x' y' z' w']. reflexivity. }
  split; [exact HT|]. split; [|split].
  - intros Hne. unfold Vec4.SwapXYZ, Vec4.SwapW. cbv zeta.
    repeat (rewrite store_same || rewrite store_other by congruence).
    destruct (mem this) as [x y z w], (mem with_) as [x' y' z' w'].
    repeat split; reflexivity.
  - unfold Vec4.SwapXYZ. cbv zeta. rewrite !store_same.
    destruct (mem this) as [x y z w]. reflexivity.
  - unfold Vec4.SwapW. cbv zeta. rewrite !store_same.
    destruct (mem this) as [x y z w]. reflexivity.
Qed.

(** ** maths.cpp *)

(** *** The scan for the largest component *)



(** *** The eigenvector builders *)








(** *** The weighted covariance *)

Lemma centroid_loop_total (points : list Vec4.t) (weights : list F32.float)
  (count : nat) :
  forall (i : nat) (total : F32.float) (centroid : Vec4.t)
         (total' : F32.float) (centroid' : Vec4.t),
    centroid_loop points weights count i total centroid
    = Some (total', centroid') ->
    total' = total_weight weights count i total.
Proof.
  induction count as [|count IH]; intros i total centroid total' centroid' H.
  - cbn in H. injection H as <- _. reflexivity.
  - cbn [centroid_loop total_weight] in *.
    destruct (nth_error weights i) as [w|]; [|discriminate].
    destruct (nth_error points i) as [p|]; [|discriminate].
    exact (IH _ _ _ _ _ H).
Qed.

Lemma covariance_step_nan (covariance : Sym3x3) (p : Vec4.t) (w : F32.float) :
  covariance_step (Vec4.of_float S754_nan) covariance p w
  = Sym3x3_splat S754_nan.
Proof.
  destruct p as [x y z t]. unfold covariance_step. cbv zeta.
  unfold Vec4.sub, Vec4.float_mul, SSEf._mm_sub_ps, SSEf._mm_mul_ps,
    SSEf._mm_set1_ps, Vec4.of_float, splat, map2, Vec4.X, Vec4.Y, Vec4.Z.
  cbn [lane0 lane1 lane2 lane3].
  rewrite !fsub_nan_r, !fmul_nan_r, !fadd_nan_r. reflexivity.
Qed.

Lemma covariance_loop_nan (points : list Vec4.t) (weights : list F32.float)
  (count : nat) :
  forall (i : nat) (covariance result : Sym3x3),
    covariance_loop points weights (Vec4.of_float S754_nan) (S count) i
                    covariance = Some result ->
    result = Sym3x3_splat S754_nan.
Proof.
  induction count as [|count IH]; intros i covariance result H;
    cbn [covariance_loop] in H;
    destruct (nth_error points i) as [p|]; try discriminate;
    destruct (nth_error weights i) as [w|]; try discriminate;
    rewrite covariance_step_nan in H.
  - injection H as <-. reflexivity.
  - exact (IH _ _ _ H).
Qed.

(** X27.  When the weights of the [n > 0] points add up to a zero, to an
    infinity or to a NaN, the centroid divided by the total is a NaN
    vector (on a processor whose reciprocal estimate of a zero is an
    infinity and of an infinity a zero), and every entry of the covariance
    returned is a NaN. *)
Theorem ComputeWeightedCovariance_zero_total (hw : Machine) (n : Z)
  (points : list Vec4.t) (weights : list F32.float) (covariance : Sym3x3) :
  (forall s : bool, rcp_estimate hw (S754_zero s) = S754_infinity s) ->
  (forall s : bool, rcp_estimate hw (S754_infinity s) = S754_zero s) ->
  0 < n ->
  ComputeWeightedCovariance hw n points weights = Some covariance ->
  (exists s : bool,
     total_weight weights (Z.to_nat n) 0 (F32.lit 0.0) = S754_zero s
     \/ total_weight weights (Z.to_nat n) 0 (F32.lit 0.0) = S754_infinity s
     \/ total_weight weights (Z.to_nat n) 0 (F32.lit 0.0) = S754_nan) ->
  covariance = Sym3x3_splat S754_nan /\ all_nan covariance.
Proof.
  intros Hzero Hinf Hn Hrun (s & Htotal).
  assert (Hres : covariance = Sym3x3_splat S754_nan).
  { unfold ComputeWeightedCovariance in Hrun.
    destruct (centroid_loop points weights (Z.to_nat n) 0 (F32.lit 0.0)
                (Vec4.of_float (F32.lit 0.0)))
      as [[total centroid]|] eqn:Hc; [|discriminate].
    apply centroid_loop_total in Hc. rewrite <- Hc in Htotal.
    cbv zeta in Hrun.
    rewrite (proj2 (div_float_degenerate hw centroid s total Hzero Hinf
                      Htotal)) in Hrun.
    destruct (Z.to_nat n) as [|count] eqn:En; [lia|].
    exact (covariance_loop_nan _ _ _ _ _ _ Hrun). }
  split; [exact Hres|]. rewrite Hres. intros i.
  unfold sym_at, Sym3x3_splat; cbn.
  repeat match goal with |- context [if ?c then _ else _] => destruct c end;
    reflexivity.
Qed.

Lemma ComputeWeightedCovariance_zero_total_witness :
  ComputeWeightedCovariance Sample.machine 2
    [Vec4.of_float (F32.lit 1.0); Vec4.of_float (F32.lit 0.5)]
    [F32.lit 0.0; F32.lit 0.0]
  = Some (Sym3x3_splat S754_nan)
  /\ all_nan (Sym3x3_splat S754_nan).
Proof.
  assert (Hrun : ComputeWeightedCovariance Sample.machine 2
    [Vec4.of_float (F32.lit 1.0); Vec4.of_float (F32.lit 0.5)]
    [F32.lit 0.0; F32.lit 0.0]
    = Some (Sym3x3_splat S754_nan)) by (vm_compute; reflexivity).
  split; [exact Hrun|].
  refine (proj2 (ComputeWeightedCovariance_zero_total Sample.machine 2 _ _ _
                   _ _ _ Hrun _)).
  - intros []; reflexivity.
  - intros []; reflexivity.
  - lia.
  - exists false. left. vm_compute. reflexivity.
Defined.

Lemma fmul_sign (x y : F32.float) :
  match x, y, F32.fmul x y with
  | (S754_zero sx | S754_infinity sx | S754_finite sx _ _),
    (S754_zero sy | S754_infinity sy | S754_finite sy _ _),
    (S754_zero s | S754_infinity s | S754_finite s _ _) => s = xorb sx sy
  | _, _, _ => True
  end.
Proof.
  destruct x as [sx|sx| |sx mx ex], y as [sy|sy| |sy my ey]; try exact I;
    try reflexivity.
  unfold F32.fmul, SFmul.
  pose proof (binary_round_aux_sign (xorb sx sy) (Z.pos (mx * my)) (ex + ey)
                loc_Exact) as H.
  destruct (binary_round_aux _ _ _ _ _ _); exact H.
Qed.

Lemma weighted_square_not_negative (a w : F32.float) :
  not_negative w = true -> not_negative (F32.fmul a (F32.fmul w a)) = true.
Proof.
  intros Hw.
  destruct w as [sw|[|]| |[|] mw ew]; try discriminate Hw;
    destruct a as [sa|sa| |sa ma ea]; try reflexivity;
    try (destruct sa; reflexivity).
  pose proof (fmul_sign (S754_finite false mw ew) (S754_finite sa ma ea))
    as H1.
  cbv beta iota in H1.
  destruct (F32.fmul (S754_finite false mw ew) (S754_finite sa ma ea))
    as [s1|s1| |s1 m1 e1]; try reflexivity.
  - cbn in H1. subst s1. destruct sa; reflexivity.
  - cbn in H1. subst s1.
    pose proof (fmul_sign (S754_finite sa ma ea) (S754_finite sa m1 e1))
      as H2.
    cbv beta iota in H2.
    destruct (F32.fmul (S754_finite sa ma ea) (S754_finite sa m1 e1))
      as [s2|s2| |s2 m2 e2]; try reflexivity;
      rewrite xorb_nilpotent in H2; subst s2; reflexivity.
Qed.

Lemma covariance_step_diagonal (centroid : Vec4.t) (covariance : Sym3x3)
  (p : Vec4.t) (w : F32.float) :
  not_negative w = true ->
  not_negative (covariance 0) = true /\ not_negative (covariance 3) = true
  /\ not_negative (covariance 5) = true ->
  not_negative (covariance_step centroid covariance p w 0) = true
  /\ not_negative (covariance_step centroid covariance p w 3) = true
  /\ not_negative (covariance_step centroid covariance p w 5) = true.
Proof.
  intros Hw (H0 & H3 & H5).
  unfold covariance_step. cbv zeta.
  destruct (Vec4.sub p centroid) as [x y z t].
  unfold Vec4.float_mul, SSEf._mm_mul_ps, SSEf._mm_set1_ps, splat, map2,
    Vec4.X, Vec4.Y, Vec4.Z.
  cbn [lane0 lane1 lane2 lane3 sym_at Z.eqb Pos.eqb m_x0 m_x3 m_x5].
  repeat split; apply fadd_not_negative; try assumption;
    now apply weighted_square_not_negative.
Qed.

Lemma covariance_loop_diagonal (points : list Vec4.t)
  (weights : list F32.float) (centroid : Vec4.t) (count : nat) :
  (forall w, In w weights -> not_negative w = true) ->
  forall (i : nat) (covariance result : Sym3x3),
    not_negative (covariance 0) = true /\ not_negative (covariance 3) = true
    /\ not_negative (covariance 5) = true ->
    covariance_loop points weights centroid count i covariance
    = Some result ->
    not_negative (result 0) = true /\ not_negative (result 3) = true
    /\ not_negative (result 5) = true.
Proof.
  intros Hw.
  induction count as [|count IH]; intros i covariance result Hc H;
    cbn [covariance_loop] in H.
  - injection H as <-. exact Hc.
  - destruct (nth_error points i) as [p|]; [|discriminate].
    destruct (nth_error weights i) as [w|] eqn:Ew; [|discriminate].
    apply (IH _ _ _ (covariance_step_diagonal centroid covariance p w
                       (Hw w (nth_error_In _ _ Ew)) Hc) H).
Qed.

(** X26.  With weights that are not negative, the diagonal entries
    [covariance[0]], [[3]], [[5]] of the result are never negative: each is
    a sum of products [a * (w * a)], which have the sign of [w] (a NaN
    counts as not negative). *)
Theorem ComputeWeightedCovariance_diagonal (hw : Machine) (n : Z)
  (points : list Vec4.t) (weights : list F32.float) (covariance : Sym3x3) :
  (forall w, In w weights -> not_negative w = true) ->
  ComputeWeightedCovariance hw n points weights = Some covariance ->
  not_negative (covariance 0) = true /\ not_negative (covariance 3) = true
  /\ not_negative (covariance 5) = true.
Proof.
  intros Hw Hrun. unfold ComputeWeightedCovariance in Hrun.
  destruct (centroid_loop points weights (Z.to_nat n) 0 (F32.lit 0.0)
              (Vec4.of_float (F32.lit 0.0)))
    as [[total centroid]|]; [|discriminate].
  cbv zeta in Hrun.
  refine (covariance_loop_diagonal _ _ _ _ Hw _ _ _ _ Hrun).
  repeat split; reflexivity.
Qed.

Lemma Forall2_nth_error_xyz (points points' : list Vec4.t) :
  Forall2 same_xyz points points' ->
  forall i : nat,
    match nth_error points i, nth_error points' i with
    | Some p, Some p' => same_xyz p p'
    | None, None => True
    | _, _ => False
    end.
Proof.
  induction 1 as [|p p' l l' Hp Hl IH]; intros [|i]; cbn; auto.
  apply IH.
Qed.

Lemma ComputeWeightedCovariance_diagonal_witness :
  exists covariance : Sym3x3,
    ComputeWeightedCovariance Sample.machine 2
      [Vec4.make (F32.lit 1.0) (F32.lit 0.0) (F32.lit 0.25) (F32.lit 1.0);
       Vec4.make (F32.lit 0.0) (F32.lit 1.0) (F32.lit 0.5) (F32.lit 1.0)]
      [F32.lit 1.0; F32.lit 3.0]
    = Some covariance
    /\ not_negative (covariance 0) = true
    /\ not_negative (covariance 3) = true
    /\ not_negative (covariance 5) = true.
Proof.
  destruct (ComputeWeightedCovariance Sample.machine 2
      [Vec4.make (F32.lit 1.0) (F32.lit 0.0) (F32.lit 0.25) (F32.lit 1.0);
       Vec4.make (F32.lit 0.0) (F32.lit 1.0) (F32.lit 0.5) (F32.lit 1.0)]
      [F32.lit 1.0; F32.lit 3.0]) as [covariance|] eqn:Hrun.
  - exists covariance. split; [reflexivity|].
    refine (ComputeWeightedCovariance_diagonal Sample.machine 2 _ _ _ _ Hrun).
    intros w [<- | [<- | []]]; reflexivity.
  - vm_compute in Hrun. discriminate Hrun.
Defined.

(** The lanes of a [Vec4] are computed one by one. *)
Lemma centroid_loop_xyz (points points' : list Vec4.t)
  (weights : list F32.float) (count : nat) :
  Forall2 same_xyz points points' ->
  forall (i : nat) (total : F32.float) (centroid centroid' : Vec4.t),
    same_xyz centroid centroid' ->
    match centroid_loop points weights count i total centroid,
          centroid_loop points' weights count i total centroid' with
    | Some (t, c), Some (t', c') => t = t' /\ same_xyz c c'
    | None, None => True
    | _, _ => False
    end.
Proof.
  intros Hpts.
  induction count as [|count IH]; intros i total centroid centroid' Hc.
  - cbn. split; [reflexivity|exact Hc].
  - cbn [centroid_loop].
    destruct (nth_error weights i) as [w|]; [|exact I].
    pose proof (Forall2_nth_error_xyz _ _ Hpts i) as Hi.
    destruct (nth_error points i) as [p|], (nth_error points' i) as [p'|];
      try contradiction; [|exact I].
    apply IH.
    destruct Hc as (H0 & H1 & H2), Hi as (G0 & G1 & G2).
    destruct centroid, centroid', p, p'.
    unfold same_xyz, Vec4.X, Vec4.Y, Vec4.Z in *.
    cbn in *. subst. repeat split; reflexivity.
Qed.

Lemma covariance_step_xyz (centroid centroid' : Vec4.t) (covariance : Sym3x3)
  (p p' : Vec4.t) (w : F32.float) :
  same_xyz centroid centroid' -> same_xyz p p' ->
  covariance_step centroid covariance p w
  = covariance_step centroid' covariance p' w.
Proof.
  intros (H0 & H1 & H2) (G0 & G1 & G2).
  destruct centroid, centroid', p, p'.
  unfold same_xyz, Vec4.X, Vec4.Y, Vec4.Z in *. cbn in *. subst.
  reflexivity.
Qed.

Lemma covariance_loop_xyz (points points' : list Vec4.t)
  (weights : list F32.float) (centroid centroid' : Vec4.t) (count : nat) :
  Forall2 same_xyz points points' -> same_xyz centroid centroid' ->
  forall (i : nat) (covariance : Sym3x3),
    covariance_loop points weights centroid count i covariance
    = covariance_loop points' weights centroid' count i covariance.
Proof.
  intros Hpts Hc.
  induction count as [|count IH]; intros i covariance; [reflexivity|].
  cbn [covariance_loop].
  pose proof (Forall2_nth_error_xyz _ _ Hpts i) as Hi.
  destruct (nth_error points i) as [p|], (nth_error points' i) as [p'|];
    try contradiction; [|reflexivity].
  destruct (nth_error weights i) as [w|]; [|reflexivity].
  rewrite (covariance_step_xyz centroid centroid' covariance p p' w Hc Hi).
  apply IH.
Qed.

Lemma div_float_xyz (hw : Machine) (c c' : Vec4.t) (t : F32.float) :
  same_xyz c c' -> same_xyz (Vec4.div_float hw c t) (Vec4.div_float hw c' t).
Proof.
  intros (H0 & H1 & H2). destruct c, c'.
  unfold same_xyz, Vec4.X, Vec4.Y, Vec4.Z in *. cbn in *. subst.
  repeat split; reflexivity.
Qed.

Lemma centroid_loop_bounds (points : list Vec4.t) (weights : list F32.float)
  (count : nat) :
  forall (i : nat) (total : F32.float) (centroid : Vec4.t),
    (i <= length points)%nat -> (i <= length weights)%nat ->
    centroid_loop points weights count i total centroid = None
    <-> (length points < i + count \/ length weights < i + count)%nat.
Proof.
  induction count as [|count IH]; intros i total centroid Hp Hw.
  - cbn. split; [discriminate|lia].
  - cbn [centroid_loop].
    destruct (nth_error weights i) as [w|] eqn:Ew.
    + destruct (nth_error points i) as [p|] eqn:Ep.
      * assert (i < length weights)%nat
          by (apply nth_error_Some; congruence).
        assert (i < length points)%nat
          by (apply nth_error_Some; congruence).
        rewrite IH by lia. lia.
      * apply nth_error_None in Ep. split; [lia|reflexivity].
    + apply nth_error_None in Ew. split; [lia|reflexivity].
Qed.

Lemma covariance_loop_bounds (points : list Vec4.t) (weights : list F32.float)
  (centroid : Vec4.t) (count : nat) :
  forall (i : nat) (covariance : Sym3x3),
    (i + count <= length points)%nat -> (i + count <= length weights)%nat ->
    covariance_loop points weights centroid count i covariance <> None.
Proof.
  induction count as [|count IH]; intros i covariance Hp Hw.
  - discriminate.
  - cbn [covariance_loop].
    destruct (nth_error points i) as [p|] eqn:Ep;
      [|apply nth_error_None in Ep; lia].
    destruct (nth_error weights i) as [w|] eqn:Ew;
      [|apply nth_error_None in Ew; lia].
    apply IH; lia.
Qed.

(** X25.  [ComputeWeightedCovariance] on [Vec4] points: with [n <= 0] no
    element is read and the result is the zero matrix; the call reads
    beyond an array exactly when [n] exceeds the length of [points] or of
    [weights]; and the W components of the points have no influence on the
    result. *)
Theorem ComputeWeightedCovariance_reads (hw : Machine) (n : Z)
  (points : list Vec4.t) (weights : list F32.float) :
  (n <= 0 ->
   ComputeWeightedCovariance hw n points weights
   = Some (Sym3x3_splat (F32.lit 0.0)))
  /\ (ComputeWeightedCovariance hw n points weights = None
      <-> Z.of_nat (length points) < n \/ Z.of_nat (length weights) < n)
  /\ (forall points' : list Vec4.t,
        Forall2 same_xyz points points' ->
        ComputeWeightedCovariance hw n points' weights
        = ComputeWeightedCovariance hw n points weights).
Proof.
  split; [|split].
  - intros Hn. unfold ComputeWeightedCovariance.
    replace (Z.to_nat n) with 0%nat by lia. reflexivity.
  - unfold ComputeWeightedCovariance.
    pose proof (centroid_loop_bounds points weights (Z.to_nat n) 0
                  (F32.lit 0.0) (Vec4.of_float (F32.lit 0.0))
                  ltac:(lia) ltac:(lia)) as Hb.
    destruct (centroid_loop points weights (Z.to_nat n) 0 (F32.lit 0.0)
                (Vec4.of_float (F32.lit 0.0))) as [[total centroid]|].
    + cbv zeta. split.
      * intros H. exfalso. revert H. apply covariance_loop_bounds.
        -- destruct (le_lt_dec (0 + Z.to_nat n) (length points));
             [assumption|].
           assert (Some (total, centroid) = None) by (apply Hb; lia).
           discriminate.
        -- destruct (le_lt_dec (0 + Z.to_nat n) (length weights));
             [assumption|].
           assert (Some (total, centroid) = None) by (apply Hb; lia).
           discriminate.
      * intros H.
        assert (Some (total, centroid) = None) by (apply Hb; lia).
        discriminate.
    + split; [|reflexivity]. intros _.
      destruct (proj1 Hb eq_refl); lia.
  - intros points' Hpts. unfold ComputeWeightedCovariance.
    pose proof (centroid_loop_xyz points points' weights (Z.to_nat n) Hpts 0
                  (F32.lit 0.0) (Vec4.of_float (F32.lit 0.0))
                  (Vec4.of_float (F32.lit 0.0))
                  ltac:(repeat split; reflexivity)) as Hc.
    destruct (centroid_loop points weights (Z.to_nat n) 0 (F32.lit 0.0)
                (Vec4.of_float (F32.lit 0.0))) as [[t c]|],
             (centroid_loop points' weights (Z.to_nat n) 0 (F32.lit 0.0)
                (Vec4.of_float (F32.lit 0.0))) as [[t' c']|];
      try contradiction; [|reflexivity].
    destruct Hc as (<- & Hc). cbv zeta. symmetry.
    apply covariance_loop_xyz; [exact Hpts|].
    now apply div_float_xyz.
Qed.

(** ** The gamma tables *)

Lemma gamma_tables_checked :
  all_below 256 (linear_within 0.000001) = true
  /\ all_below 255 (rises_at (ComputeGammaLUT false)) = true
  /\ all_below 255 (rises_at (ComputeGammaLUT true)) = true.
Proof.
  split; [vm_compute; reflexivity|].
  split; vm_compute; reflexivity.
Qed.

(** X28.  Both tables [ComputeGammaLUT] can return have 256 entries, start
    at 0.0, end at exactly 1.0 and are strictly increasing; and every entry
    [i] of the linear table is within 0.000001 of [i / 255]. *)
Theorem ComputeGammaLUT_tables (sRGB : bool) :
  length (ComputeGammaLUT sRGB) = 256%nat
  /\ lut_at (ComputeGammaLUT sRGB) 0 = F32.lit 0.0
  /\ lut_at (ComputeGammaLUT sRGB) 255 = F32.lit 1.0
  /\ (forall i : Z, 0 <= i < 255 ->
        F32.flt (lut_at (ComputeGammaLUT sRGB) i)
                (lut_at (ComputeGammaLUT sRGB) (i + 1)) = true)
  /\ (forall i : Z, 0 <= i < 256 ->
        (inject_Z i / 255 - 0.000001
         <= F32.to_Q (lut_at (ComputeGammaLUT false) i))%Q
        /\ (F32.to_Q (lut_at (ComputeGammaLUT false) i)
            <= inject_Z i / 255 + 0.000001)%Q).
Proof.
  destruct gamma_tables_checked as (Hlin & Hup & Hups).
  split; [destruct sRGB; reflexivity|].
  split; [destruct sRGB; reflexivity|].
  split; [destruct sRGB; vm_compute; reflexivity|].
  split.
  - intros i Hi.
    destruct sRGB;
      [exact (all_below_spec 255 _ i Hups ltac:(lia))
      |exact (all_below_spec 255 _ i Hup ltac:(lia))].
  - intros i Hi.
    pose proof (all_below_spec 256 _ i Hlin ltac:(lia)) as H.
    unfold linear_within in H. cbv zeta in H.
    apply andb_prop in H. destruct H as (H1 & H2).
    split; now apply Qle_bool_iff.
Qed.

